(** * MERN_Structure: the request-processing security pipeline

    A shallow embedding of the security-relevant TypeScript sources
    (server middleware chain, error handler, secrets manager, client
    interceptor, client rate limiter and storage cipher) together with the
    properties the specification states about them.

    Conventions.
    - A JavaScript string is represented by the bytes of its UTF-8
      encoding ([string]); all patterns the sources search for are ASCII.
    - Integral JavaScript numbers (timestamps, status codes, counters) are
      [Z]; a number inside a JSON tree is a binary64 value ([spec_float]).
    - A thrown exception is the [Throw] constructor of [Exc]; [try]/[catch]
      is [try_catch].
    - Calls into third-party libraries (Node's [crypto], CryptoJS, the
      network) are fields of interface records or explicit oracles. *)

From Stdlib Require Import ZArith Lia Bool List Ascii String Sorted.
From Stdlib.Floats Require Import SpecFloat.
From Stdlib.Strings Require Byte.
From stdpp Require Import base option list gmap strings pretty.

Abbreviation byte := Byte.byte.

#[global] Instance byte_eq_dec : EqDecision byte := Byte.byte_eq_dec.

#[local] Set Warnings "-register-all".

Local Open Scope string_scope.
Local Open Scope Z_scope.
Local Open Scope list_scope.

(* ================================================================== *)
(** * Part I: the model                                                *)
(* ================================================================== *)

(** ** Exceptions *)

Inductive Exc (E A : Type) : Type :=
| Ret (a : A)
| Throw (e : E).
Arguments Ret {E A} a.
Arguments Throw {E A} e.

Definition exc_bind {E A B} (m : Exc E A) (k : A -> Exc E B) : Exc E B :=
  match m with
  | Ret a => k a
  | Throw e => Throw e
  end.

(** [try { m } catch (error) { h error }] *)
Definition try_catch {E F A} (m : Exc E A) (h : E -> Exc F A) : Exc F A :=
  match m with
  | Ret a => Ret a
  | Throw e => h e
  end.

Notation "x <- m ;;; k" := (exc_bind m (fun x => k))
  (at level 100, m at next level, right associativity).

(** ** JavaScript strings and the regular expressions of the sources *)

Module JsString.

Definition code (c : ascii) : N := N_of_ascii c.

Definition in_range (lo hi : N) (c : ascii) : bool :=
  ((lo <=? code c) && (code c <=? hi))%N.

(** ASCII lower-casing: the case folding under which a pattern of ASCII
    letters matches with the [i] flag. *)
Definition lower (c : ascii) : ascii :=
  if in_range 65 90 c then ascii_of_N (code c + 32) else c.

(** [s.toLowerCase()] on the ASCII letters of [s].  The sources apply it
    to header values and to their own constants and then look for an ASCII
    needle; header values are Latin-1, where no other character becomes an
    ASCII letter. *)
Fixpoint toLowerCase (s : string) : string :=
  match s with
  | EmptyString => EmptyString
  | String a r => String (lower a) (toLowerCase r)
  end.

Definition eqb_ci (a b : ascii) : bool := Ascii.eqb (lower a) (lower b).

(** [\w] *)
Definition is_word (c : ascii) : bool :=
  in_range 48 57 c || in_range 65 90 c || in_range 97 122 c
  || Ascii.eqb c "_"%char.

(** The remainder of [s] after the literal [p], compared exactly. *)
Fixpoint strip_prefix (p s : string) : option string :=
  match p, s with
  | EmptyString, _ => Some s
  | String a p', String b s' =>
      if Ascii.eqb a b then strip_prefix p' s' else None
  | String _ _, EmptyString => None
  end.

(** The same with the [i] flag. *)
Fixpoint strip_prefix_ci (p s : string) : option string :=
  match p, s with
  | EmptyString, _ => Some s
  | String a p', String b s' =>
      if eqb_ci a b then strip_prefix_ci p' s' else None
  | String _ _, EmptyString => None
  end.

(** [haystack.includes(needle)] *)
Fixpoint includes (haystack needle : string) : bool :=
  match strip_prefix needle haystack with
  | Some _ => true
  | None =>
      match haystack with
      | EmptyString => false
      | String _ rest => includes rest needle
      end
  end.

(** White space ([\s], and what [trim()] removes): the UTF-8 encodings of
    TAB LF VT FF CR SP, U+00A0, U+1680, U+2000..U+200A, U+2028, U+2029,
    U+202F, U+205F, U+3000 and U+FEFF. *)
Definition is_ws1 (a : ascii) : bool :=
  in_range 9 13 a || (code a =? 32)%N.

Definition is_ws2 (a b : ascii) : bool :=
  ((code a =? 194) && (code b =? 160))%N.

Definition is_ws3 (a b c : ascii) : bool :=
  (((code a =? 225) && (code b =? 154) && (code c =? 128))
   || ((code a =? 226) && (code b =? 128)
       && (in_range 128 138 c || in_range 168 169 c || (code c =? 175)))
   || ((code a =? 226) && (code b =? 129) && (code c =? 159))
   || ((code a =? 227) && (code b =? 128) && (code c =? 128))
   || ((code a =? 239) && (code b =? 187) && (code c =? 191)))%N.

(** [\s*] (greedy), and [trimStart()]. *)
Fixpoint skip_ws (s : string) : string :=
  match s with
  | String a r1 =>
      if is_ws1 a then skip_ws r1 else
      match r1 with
      | String b r2 =>
          if is_ws2 a b then skip_ws r2 else
          match r2 with
          | String c r3 => if is_ws3 a b c then skip_ws r3 else s
          | EmptyString => s
          end
      | EmptyString => s
      end
  | EmptyString => s
  end.

Definition all_ws (s : string) : bool :=
  match skip_ws s with
  | EmptyString => true
  | String _ _ => false
  end.

Fixpoint trimEnd (s : string) : string :=
  match s with
  | EmptyString => EmptyString
  | String a r => if all_ws s then EmptyString else String a (trimEnd r)
  end.

Definition trim (s : string) : string := trimEnd (skip_ws s).

(** [\w*] (greedy) *)
Fixpoint skip_word (s : string) : string :=
  match s with
  | String a r => if is_word a then skip_word r else s
  | EmptyString => s
  end.

(** [s.replace(re, '')] for a regular expression with the [g] flag,
    given as the function [m] that tells how long the match starting at
    the head of its argument is, if there is one.  The scan restarts
    after each match; [skip] counts the characters of the current match
    still to be dropped. *)
Fixpoint remove_all (m : string -> option nat) (skip : nat) (s : string)
  : string :=
  match s with
  | EmptyString => EmptyString
  | String a r =>
      match skip with
      | S k => remove_all m k r
      | O =>
          match m s with
          | Some (S n) => remove_all m n r
          | _ => String a (remove_all m O r)
          end
      end
  end.

Definition matched (s rest : string) : nat :=
  (String.length s - String.length rest)%nat.

(** The script-block expression of [sanitizeInput] (apiSecurity.ts line
    31, flag [i]) anchored at the head of [s]: the literal [<script], a
    word boundary, then repeatedly either characters other than [<] or a
    [<] that does not start the literal [</script>], then that literal.
    The expression can only advance this way, so it ends at the first
    closing literal or fails. *)
Fixpoint to_script_close (s : string) : option string :=
  match s with
  | EmptyString => None
  | String a r =>
      match strip_prefix_ci "</script>" s with
      | Some rest => Some rest
      | None => to_script_close r
      end
  end.

Definition word_boundary_after_word (s : string) : bool :=
  match s with
  | EmptyString => true
  | String a _ => negb (is_word a)
  end.

Definition match_script (s : string) : option nat :=
  match strip_prefix_ci "<script" s with
  | Some r =>
      if word_boundary_after_word r then
        match to_script_close r with
        | Some rest => Some (matched s rest)
        | None => None
        end
      else None
  | None => None
  end.

(** [/javascript:/i] *)
Definition match_javascript (s : string) : option nat :=
  match strip_prefix_ci "javascript:" s with
  | Some rest => Some (matched s rest)
  | None => None
  end.

(** [/on\w+\s*=/i]: neither [\w+] nor [\s*] can give a character back to
    what follows, so the greedy reading is the only one. *)
Definition match_on_handler (s : string) : option nat :=
  match strip_prefix_ci "on" s with
  | Some r =>
      match r with
      | String a _ =>
          if is_word a then
            match skip_ws (skip_word r) with
            | String e rest =>
                if Ascii.eqb e "="%char then Some (matched s rest) else None
            | EmptyString => None
            end
          else None
      | EmptyString => None
      end
  | None => None
  end.

End JsString.

(** ** JSON trees and run-time values *)

Module Json.

(** What [JSON.parse] and the query-string parser produce: the type
    [SanitizableValue] of apiSecurity.ts.  The fields of an object are
    listed in enumeration order. *)
Inductive value : Type :=
| VString (s : string)
| VNumber (x : spec_float)
| VBoolean (b : bool)
| VNull
| VObject (fields : list (string * value))
| VArray (items : list value).

(** A value built at run time by assignments to a fresh [{}] or [[]].
    [proto] is the object's prototype where it is not the initial
    [Object.prototype]: [Some JNull] for [null], [Some o] for an object. *)
Inductive jsval : Type :=
| JString (s : string)
| JNumber (x : spec_float)
| JBoolean (b : bool)
| JNull
| JObject (proto : option jsval) (own : list (string * jsval))
| JArray (items : list jsval).

Fixpoint of_json (v : value) : jsval :=
  match v with
  | VString s => JString s
  | VNumber x => JNumber x
  | VBoolean b => JBoolean b
  | VNull => JNull
  | VObject fields =>
      JObject None (map (fun kv => (fst kv, of_json (snd kv))) fields)
  | VArray items => JArray (map of_json items)
  end.

(** [if (v)] *)
Definition truthy (v : value) : bool :=
  match v with
  | VString s => negb (String.eqb s "")
  | VNumber x =>
      match x with
      | S754_zero _ | S754_nan => false
      | S754_infinity _ | S754_finite _ _ _ => true
      end
  | VBoolean b => b
  | VNull => false
  | VObject _ | VArray _ => true
  end.

(** Own data property [k] of an object: overwritten in place when it
    exists, appended otherwise. *)
Fixpoint set_own (k : string) (v : jsval) (own : list (string * jsval))
  : list (string * jsval) :=
  match own with
  | [] => [(k, v)]
  | (k', v') :: rest =>
      if String.eqb k' k then (k', v) :: rest
      else (k', v') :: set_own k v rest
  end.

(** [target[key] = v] on an object created by [{}].  The key
    [__proto__] is not an own property of such an object: the assignment
    reaches the accessor [Object.prototype.__proto__] it inherits, whose
    setter replaces the prototype when [v] is an object or [null] and does
    nothing otherwise.  No own property is created.  (The parsed input can
    have an own property of that name, because [JSON.parse] defines the
    properties it reads instead of assigning them.) *)
Definition assign (target : jsval) (key : string) (v : jsval) : jsval :=
  match target with
  | JObject proto own =>
      if String.eqb key "__proto__" then
        match v with
        | JObject _ _ | JArray _ | JNull => JObject (Some v) own
        | JString _ | JNumber _ | JBoolean _ => target
        end
      else JObject proto (set_own key v own)
  | _ => target
  end.

(** The shape of a value: everything but the text of its strings. *)
Inductive shape : Type :=
| SString
| SNumber (x : spec_float)
| SBoolean (b : bool)
| SNull
| SObject (proto : option shape) (keys : list (string * shape))
| SArray (items : list shape).

Fixpoint shape_of (v : jsval) : shape :=
  match v with
  | JString _ => SString
  | JNumber x => SNumber x
  | JBoolean b => SBoolean b
  | JNull => SNull
  | JObject proto own =>
      SObject (option_map shape_of proto)
              (map (fun kv => (fst kv, shape_of (snd kv))) own)
  | JArray items => SArray (map shape_of items)
  end.

(** Own keys of an object, [Object.keys]. *)
Definition keys (v : jsval) : list string :=
  match v with
  | JObject _ own => map fst own
  | _ => []
  end.

(** Every object lists each key once, as objects do. *)
Fixpoint well_formed (v : value) : bool :=
  match v with
  | VObject fields =>
      bool_decide (NoDup (map fst fields))
      && forallb (fun kv => well_formed (snd kv)) fields
  | VArray items => forallb well_formed items
  | _ => true
  end.

(** No object of the tree has a key named [__proto__]. *)
Fixpoint proto_free (v : value) : bool :=
  match v with
  | VObject fields =>
      forallb (fun kv => negb (String.eqb (fst kv) "__proto__")
                         && proto_free (snd kv)) fields
  | VArray items => forallb proto_free items
  | _ => true
  end.

End Json.

(** ** Backend/src/middlewares/apiSecurity.ts: [sanitizeInput] *)

Module Sanitizer.
Import JsString Json.

(** The chain of [replace] calls and [trim()] applied to a string
    property (lines 30-34). *)
Definition cleanString (value : string) : string :=
  trim
    (remove_all match_on_handler 0
       (remove_all match_javascript 0
          (remove_all match_script 0 value))).

(** The inner function [sanitize] (lines 21-43).  [typeof value ===
    'object'] holds of objects, arrays and [null]. *)
Fixpoint sanitize (obj : value) : jsval :=
  let property (value : Json.value) : jsval :=
    match value with
    | VString s => JString (cleanString s)
    | VObject _ | VArray _ | VNull => sanitize value
    | VNumber _ | VBoolean _ => of_json value
    end in
  match obj with
  | VObject fields =>
      fold_left
        (fun sanitized kv => assign sanitized (fst kv) (property (snd kv)))
        fields (JObject None [])
  | VArray items => JArray (map property items)
  | VString _ | VNumber _ | VBoolean _ | VNull => of_json obj
  end.

(** What [sanitize] stores under a key (lines 28-39). *)
Definition sanitize_property (value : Json.value) : jsval :=
  match value with
  | VString s => JString (cleanString s)
  | VObject _ | VArray _ | VNull => sanitize value
  | VNumber _ | VBoolean _ => of_json value
  end.

(** The three payloads of a request the middleware rewrites. *)
Record Payload (A : Type) : Type := mkPayload {
  body : option A;
  query : option A;
  params : option A;
}.
Arguments mkPayload {A}.
Arguments body {A}.
Arguments query {A}.
Arguments params {A}.

(** [if (req.x) req.x = sanitize(req.x)] *)
Definition sanitize_if_set (x : option value) : option jsval :=
  match x with
  | Some v => if truthy v then Some (sanitize v) else Some (of_json v)
  | None => None
  end.

(** [sanitizeInput(req, _res, next)]: always calls [next()]. *)
Definition sanitizeInput (req : Payload value) : Payload jsval :=
  mkPayload (sanitize_if_set (body req))
            (sanitize_if_set (query req))
            (sanitize_if_set (params req)).

(** The body [{"__proto__": {"isAdmin": true}, "name": " a "}], as
    [JSON.parse] delivers it. *)
Definition proto_body : value :=
  VObject [("__proto__", VObject [("isAdmin", VBoolean true)]);
           ("name", VString " a ")].

End Sanitizer.

(** ** Requests, responses and the JSON bodies of [res.json] *)

Module Express.
Import Json.

(** The parts of an Express request the middlewares read.  Header names
    are lower-case, as Node delivers them; [id] is the optional property
    added by the declaration merging of the repository's type file. *)
Record Request : Type := mkRequest {
  id : option string;
  method : string;
  originalUrl : string;
  headers : list (string * string);
}.

Fixpoint assoc (k : string) (l : list (string * string)) : option string :=
  match l with
  | [] => None
  | (k', v) :: rest => if String.eqb k' k then Some v else assoc k rest
  end.

(** [req.get(name)] and [req.headers[name]] *)
Definition get (name : string) (req : Request) : option string :=
  assoc (JsString.toLowerCase name) (headers req).

(** [res.status(code).json(body)] *)
Record Response : Type := mkResponse {
  statusCode : Z;
  json : value;
}.

(** An object literal as [res.json] serializes it: a property whose
    value is [undefined] is left out. *)
Definition object (props : list (string * option value)) : value :=
  VObject
    (omap (fun kv => match snd kv with
                     | Some v => Some (fst kv, v)
                     | None => None
                     end) props).

Definition str (s : string) : option value := Some (VString s).
Definition opt_str (s : option string) : option value :=
  option_map VString s.

(** The property of a JSON body, if it has it. *)
Definition property (k : string) (body : value) : option value :=
  match body with
  | VObject fields =>
      snd <$> List.find (fun kv => String.eqb (fst kv) k) fields
  | _ => None
  end.

(** What a middleware of apiSecurity.ts does with a request: it calls
    [next()] or sends a response. *)
Inductive Outcome : Type :=
| Next
| Respond (res : Response).

End Express.

(** ** Backend/src/middlewares/apiSecurity.ts: header checks *)

Module ApiSecurity.
Import JsString Json Express.

(** [validateContentType(allowedTypes)] (lines 253-284) *)
Definition validateContentType (allowedTypes : list string) (req : Request)
  : Outcome :=
  if String.eqb (method req) "GET" then Next else
  match get "content-type" req with
  | None | Some EmptyString =>
      Respond (mkResponse 400 (object [
        ("success", Some (VBoolean false));
        ("message", str "Content-Type header is required");
        ("requestId", opt_str (id req))]))
  | Some contentType =>
      let isAllowed :=
        existsb (fun type =>
                   includes (toLowerCase contentType) (toLowerCase type))
                allowedTypes in
      if negb isAllowed then
        Respond (mkResponse 415 (object [
          ("success", Some (VBoolean false));
          ("message",
           str ("Unsupported Content-Type. Allowed: "
                +:+ String.concat ", " allowedTypes));
          ("requestId", opt_str (id req))]))
      else Next
  end.

(** [validateUserAgent] (lines 309-337) *)
Definition validateUserAgent (req : Request) : Outcome :=
  match get "user-agent" req with
  | None | Some EmptyString =>
      Respond (mkResponse 400 (object [
        ("success", Some (VBoolean false));
        ("message", str "User-Agent header is required");
        ("requestId", opt_str (id req))]))
  | Some userAgent =>
      let maliciousAgents := ["sqlmap"; "nikto"; "nmap"; "masscan"] in
      let isBlocked :=
        existsb (fun agent => includes (toLowerCase userAgent) agent)
                maliciousAgents in
      if isBlocked then
        Respond (mkResponse 403 (object [
          ("success", Some (VBoolean false));
          ("message", str "Access denied")]))
      else Next
  end.

(** A request of a scanner, tagged by the request-id middleware. *)
Definition scanner_request : Request :=
  mkRequest (Some "3f0c9a52-req") "GET" "/api/users"
            [("host", "example.org"); ("user-agent", "sqlmap/1.7.2")].

Definition anonymous_request : Request :=
  mkRequest (Some "3f0c9a52-req") "GET" "/api/users"
            [("host", "example.org")].

End ApiSecurity.

(** ** The application: middleware stack and error handlers *)

Module App.
Import Json Express.

(** *** The stack built by the [app.use] calls (lines 20-50) *)

Inductive Middleware : Type :=
| requestIdMiddleware
| securityHeaders
| cors_corsOptions
| requestLogger
| morgan_dev
| generalLimiter
| express_json
| express_urlencoded
| cookieParser
| mongoSanitizeConfig
| hppConfig
| sanitizeInput
| detectSuspiciousActivity
| validateUserAgent
| validateContentType
| compressionConfig.

(** One [app.use([path,] handler)]. *)
Record Layer : Type := mkLayer {
  mount : option string;
  handler : Middleware;
}.

Definition use (mw : Middleware) : Layer := mkLayer None mw.
Definition use_at (path : string) (mw : Middleware) : Layer :=
  mkLayer (Some path) mw.

(** [env] is [config.env]. *)
Definition stack (env : string) : list Layer :=
  [use requestIdMiddleware; use securityHeaders;
   use cors_corsOptions; use requestLogger]
  ++ (if String.eqb env "development" then [use morgan_dev] else [])
  ++ [use_at "/api/" generalLimiter;
      use express_json; use express_urlencoded; use cookieParser;
      use mongoSanitizeConfig; use hppConfig; use sanitizeInput;
      use detectSuspiciousActivity; use validateUserAgent;
      use validateContentType;
      use compressionConfig].

(** How Express walks the stack for one request.  [matches] is its test
    of a mount path against the request path and [run] the behaviour of
    each middleware on the state of the exchange; both are left
    open.  The result lists the middlewares invoked, in order, and tells
    how the walk ended: [Some s] when every layer called [next()] and the
    request goes on to the routes, [None] when a layer sent a response or
    called [next(err)], after which no further layer of the stack runs. *)
Section Dispatch.
Context {State : Type}.
Variable matches : string -> string -> bool.
Variable run : Middleware -> State -> option State.

Definition applies (path : string) (l : Layer) : bool :=
  match mount l with
  | None => true
  | Some p => matches p path
  end.

Fixpoint dispatch (layers : list Layer) (path : string) (s : State)
  : list Middleware * option State :=
  match layers with
  | [] => ([], Some s)
  | l :: rest =>
      if applies path l then
        match run (handler l) s with
        | Some s' =>
            let '(trace, out) := dispatch rest path s' in
            (handler l :: trace, out)
        | None => ([handler l], None)
        end
      else dispatch rest path s
  end.
End Dispatch.

(** *** The stages of the specification (section 4.5) *)

Inductive Stage : Type :=
| RequestIdTagging
| HeaderHardening
| CorsDecision
| RateLimiting
| BodyParsing
| Sanitization
| AnomalyDetection
| ContentTypeGating
| Compression.

#[global] Instance Stage_eq_dec : EqDecision Stage.
Proof. solve_decision. Defined.

(** The order the specification fixes. *)
Definition spec_chain : list Stage :=
  [RequestIdTagging; HeaderHardening; CorsDecision; RateLimiting;
   BodyParsing; Sanitization; AnomalyDetection; ContentTypeGating;
   Compression].

(** The stage a middleware of the stack carries out, if it is one of the
    nine.  The two body parsers both enforce the size limit. *)
Definition stage_of (mw : Middleware) : option Stage :=
  match mw with
  | requestIdMiddleware => Some RequestIdTagging
  | securityHeaders => Some HeaderHardening
  | cors_corsOptions => Some CorsDecision
  | generalLimiter => Some RateLimiting
  | express_json | express_urlencoded => Some BodyParsing
  | sanitizeInput => Some Sanitization
  | detectSuspiciousActivity => Some AnomalyDetection
  | validateContentType => Some ContentTypeGating
  | compressionConfig => Some Compression
  | requestLogger | morgan_dev | cookieParser | mongoSanitizeConfig
  | hppConfig | validateUserAgent => None
  end.

(** Consecutive middlewares of one stage count once. *)
Fixpoint squash (l : list Stage) : list Stage :=
  match l with
  | [] => []
  | a :: rest =>
      match rest with
      | b :: _ => if bool_decide (a = b) then squash rest else a :: squash rest
      | [] => [a]
      end
  end.

Definition stages (trace : list Middleware) : list Stage :=
  squash (omap stage_of trace).

(** The stages of the specification that apply to a request path: rate
    limiting is mounted on the API prefix. *)
Definition spec_chain_for (matches : string -> string -> bool)
    (path : string) : list Stage :=
  List.filter
    (fun st => negb (bool_decide (st = RateLimiting)) || matches "/api/" path)
    spec_chain.

(** *** The error handlers (lines 74-172) *)

(** [interface CustomError extends Error].  [errors] maps a field to an
    object with an optional [message]. *)
Record CustomError : Type := mkError {
  name : string;
  message : string;
  stack_trace : option string;
  err_statusCode : option Z;
  status : option Z;
  type : option string;
  errors : option (list (string * option string));
}.

(** [a || b] on numbers *)
Definition or_number (a : option Z) (b : Z) : Z :=
  match a with
  | Some n => if n =? 0 then b else n
  | None => b
  end.

(** [a || b] on strings *)
Definition or_string (a b : string) : string :=
  if String.eqb a "" then b else a.

(** [Object.values(err.errors || {}).map(e => e.message)], serialized *)
Definition error_messages (errors : option (list (string * option string)))
  : value :=
  VArray (map (fun kv => match snd kv with
                         | Some m => VString m
                         | None => VNull
                         end)
              (default [] errors)).

Definition failure (status : Z) (message : string)
    (extra : list (string * option value)) (req : Request) : Response :=
  mkResponse status (object (
    [("success", Some (VBoolean false)); ("message", str message)]
    ++ extra ++ [("requestId", opt_str (id req))])).

(** The 404 handler. *)
Definition notFound (req : Request) : Response :=
  failure 404
    ("Route " +:+ method req +:+ " " +:+ originalUrl req +:+ " not found")
    [] req.

(** The global error handler; [env] is [config.env]. *)
Definition errorHandler (env : string) (err : CustomError) (req : Request)
  : Response :=
  if String.eqb (message err) "Not allowed by CORS" then
    failure 403 "CORS policy: Access denied" [] req
  else if bool_decide (status err = Some 429) then
    failure 429 (or_string (message err) "Too many requests") [] req
  else if String.eqb (name err) "ValidationError" then
    mkResponse 400 (object [
      ("success", Some (VBoolean false));
      ("message", str "Validation failed");
      ("errors", Some (error_messages (errors err)));
      ("requestId", opt_str (id req))])
  else if String.eqb (name err) "JsonWebTokenError" then
    failure 401 "Invalid token" [] req
  else if String.eqb (name err) "TokenExpiredError" then
    failure 401 "Token expired" [] req
  else if bool_decide (type err = Some "entity.too.large") then
    failure 413 "Request payload too large" [] req
  else
    let statusCode := or_number (err_statusCode err) (or_number (status err) 500) in
    mkResponse statusCode (object (
      [("success", Some (VBoolean false));
       ("message",
        str (if String.eqb env "production" then "Internal server error"
             else or_string (message err) "Something went wrong"));
       ("requestId", opt_str (id req))]
      ++ (if String.eqb env "development"
          then [("stack", opt_str (stack_trace err))] else []))).

End App.

(** ** The error classification as the specification words it *)

Module ErrorSpec.
Import Json Express App.

(** A class of failures and the response it gets. *)
Record Rule : Type := mkRule {
  test : CustomError -> bool;
  answer : CustomError -> Request -> Response;
}.

(** First match wins. *)
Fixpoint classify (rules : list Rule)
    (fallback : CustomError -> Request -> Response)
    (err : CustomError) (req : Request) : Response :=
  match rules with
  | [] => fallback err req
  | r :: rest =>
      if test r err then answer r err req
      else classify rest fallback err req
  end.

Definition cors_rejection : Rule :=
  mkRule (fun err => String.eqb (message err) "Not allowed by CORS")
         (fun _ => failure 403 "CORS policy: Access denied" []).

(** [fallback_message]: whether an empty message is replaced by the
    handler's own text. *)
Definition rate_limit (fallback_message : bool) : Rule :=
  mkRule (fun err => bool_decide (status err = Some 429))
         (fun err =>
            failure 429
              (if fallback_message
               then or_string (message err) "Too many requests"
               else message err) []).

Definition payload_too_large : Rule :=
  mkRule (fun err => bool_decide (type err = Some "entity.too.large"))
         (fun _ => failure 413 "Request payload too large" []).

Definition validation_failure : Rule :=
  mkRule (fun err => String.eqb (name err) "ValidationError")
         (fun err =>
            failure 400 "Validation failed"
                    [("errors", Some (error_messages (errors err)))]).

Definition invalid_token : Rule :=
  mkRule (fun err => String.eqb (name err) "JsonWebTokenError")
         (fun _ => failure 401 "Invalid token" []).

Definition expired_token : Rule :=
  mkRule (fun err => String.eqb (name err) "TokenExpiredError")
         (fun _ => failure 401 "Token expired" []).

Definition declared_status (err : CustomError) : Z :=
  or_number (err_statusCode err) (or_number (status err) 500).

(** The classification as claimed: payload-too-large third, and for an
    unclassified failure the original message and the stack trace in
    every build other than production. *)
Definition claimed_rules : list Rule :=
  [cors_rejection; rate_limit false; payload_too_large;
   validation_failure; invalid_token; expired_token].

Definition claimed_fallback (env : string) (err : CustomError)
    (req : Request) : Response :=
  mkResponse (declared_status err) (object (
    [("success", Some (VBoolean false));
     ("message",
      str (if String.eqb env "production" then "Internal server error"
           else message err));
     ("requestId", opt_str (id req))]
    ++ (if String.eqb env "production" then []
        else [("stack", opt_str (stack_trace err))]))).

Definition claimed_classifier (env : string) :=
  classify claimed_rules (claimed_fallback env).

(** The classification as amended: payload-too-large last of the
    classes, an empty message replaced by a fixed text, the stack trace
    in development builds only. *)
Definition amended_rules : list Rule :=
  [cors_rejection; rate_limit true; validation_failure; invalid_token;
   expired_token; payload_too_large].

Definition amended_fallback (env : string) (err : CustomError)
    (req : Request) : Response :=
  mkResponse (declared_status err) (object (
    [("success", Some (VBoolean false));
     ("message",
      str (if String.eqb env "production" then "Internal server error"
           else or_string (message err) "Something went wrong"));
     ("requestId", opt_str (id req))]
    ++ (if String.eqb env "development"
        then [("stack", opt_str (stack_trace err))] else []))).

Definition amended_classifier (env : string) :=
  classify amended_rules (amended_fallback env).

(** A failure that is both a validation failure and too large. *)
Definition oversized_validation_error : CustomError :=
  mkError "ValidationError" "too big" None None None
          (Some "entity.too.large") None.

(** An unclassified failure. *)
Definition plain_error : CustomError :=
  mkError "Error" "boom" (Some "Error: boom at handler") None None None None.

Definition some_request : Request :=
  mkRequest (Some "req-1") "POST" "/api/auth/login"
            [("user-agent", "curl/8.0")].

End ErrorSpec.

(** ** Buffers and their encodings *)

Module Buffer.

(** [Buffer.from(s)] and [Buffer.from(s, 'utf8')]: the bytes of the text. *)
Definition from (s : string) : list byte := list_byte_of_string s.

(** [buf.toString('utf8')] *)
Definition toString (bs : list byte) : string := string_of_list_byte bs.

Definition hex_digit (n : N) : ascii :=
  if (n <? 10)%N then ascii_of_N (48 + n) else ascii_of_N (87 + n).

Definition hex_of_byte (b : byte) : string :=
  let n := Byte.to_N b in
  String (hex_digit (n / 16)) (String (hex_digit (n mod 16)) EmptyString).

(** [buf.toString('hex')] *)
Fixpoint toHex (bs : list byte) : string :=
  match bs with
  | [] => EmptyString
  | b :: rest => hex_of_byte b +:+ toHex rest
  end.

Definition hex_value (c : ascii) : option N :=
  let n := N_of_ascii c in
  if ((48 <=? n) && (n <=? 57))%N then Some (n - 48)%N
  else if ((97 <=? n) && (n <=? 102))%N then Some (n - 87)%N
  else if ((65 <=? n) && (n <=? 70))%N then Some (n - 55)%N
  else None.

(** [Buffer.from(s, 'hex')]: pairs of hexadecimal digits of either case,
    up to the first character that is not one; a last digit without a
    partner is dropped. *)
Fixpoint fromHex (s : string) : list byte :=
  match s with
  | String a (String b rest) =>
      match hex_value a, hex_value b with
      | Some x, Some y =>
          match Byte.of_N (16 * x + y) with
          | Some byte => byte :: fromHex rest
          | None => []
          end
      | _, _ => []
      end
  | _ => []
  end.

End Buffer.

(** ** Node's [crypto] module, as the secrets manager uses it *)

Module NodeCrypto.

(** The primitives are the library's, not the repository's: they are the
    fields of an interface.  [gcm_seal key iv plaintext] stands for
    [createCipheriv('aes-256-gcm', key, iv)], [update], [final] and
    [getAuthTag], and gives the ciphertext and the tag; [gcm_open key iv tag
    ciphertext] stands for [createDecipheriv], [setAuthTag], [update] and
    [final].  Either throws where the library does. *)
Record Primitives : Type := mkPrimitives {
  pbkdf2Sync :
    list byte -> list byte -> N -> N -> string -> list byte;
  hmac : string -> list byte -> list byte -> list byte;
  gcm_seal :
    list byte -> list byte -> list byte -> Exc string (list byte * list byte);
  gcm_open :
    list byte -> list byte -> list byte -> list byte -> Exc string (list byte);
}.


(** [crypto.timingSafeEqual(a, b)]: throws a [RangeError] when the two
    buffers differ in byte length. *)
Definition timingSafeEqual (a b : list byte) : Exc string bool :=
  if bool_decide (List.length a = List.length b)
  then Ret (bool_decide (a = b))
  else Throw "RangeError [ERR_CRYPTO_TIMING_SAFE_EQUAL_LENGTH]".

(** An instance to exhibit inputs with: the key derivation repeats salt
    and password up to the length asked for, the MAC is the message, and
    sealing leaves the text as it is and uses it as its own tag. *)
Fixpoint cycle (n : nat) (pattern current : list byte) : list byte :=
  match n with
  | O => []
  | Datatypes.S n' =>
      match current with
      | b :: rest => b :: cycle n' pattern rest
      | [] =>
          match pattern with
          | b :: rest => b :: cycle n' pattern rest
          | [] => Byte.x00 :: cycle n' pattern []
          end
      end
  end.

Definition toy : Primitives :=
  mkPrimitives
    (fun password salt _ keylen _ =>
       cycle (N.to_nat keylen) (salt ++ password) (salt ++ password))
    (fun _ key data => data)
    (fun key iv pt =>
       if bool_decide (List.length key = 32%nat) then Ret (pt, pt)
       else Throw "Invalid key length")
    (fun key iv tag ct =>
       if bool_decide (tag = ct) then Ret ct
       else Throw "Unsupported state or unable to authenticate data").


Definition sample_random : list byte := repeat Byte.x01 16.
Definition other_random : list byte := repeat Byte.x02 16.

End NodeCrypto.

(** ** [class SecretsManager] *)

Module SecretsManager.
Import Buffer NodeCrypto.

Record IEncryptedData : Type := mkEncrypted {
  encrypted : string;
  iv : string;
  authTag : string;
}.

Record IHashResult : Type := mkHash {
  hash_hex : string;
  salt_used : string;
}.

(** [generateKey(length = 32)]; [random] is what [crypto.randomBytes]
    returns. *)
Definition generateKey (random : list byte) : string := toHex random.

(** The constructor: [process.env.MASTER_KEY || this.generateKey()]. *)
Definition masterKey (env_MASTER_KEY : option string) (random : list byte)
  : string :=
  match env_MASTER_KEY with
  | Some k => if String.eqb k "" then generateKey random else k
  | None => generateKey random
  end.

(** [Buffer.from(this.masterKey, 'hex').slice(0, 32)] *)
Definition key_bytes (masterKey : string) : list byte :=
  take 32 (fromHex masterKey).

Section WithPrimitives.
Variable P : Primitives.

(** [hash(data, salt = null)]; [random] is what [crypto.randomBytes(16)]
    returns when it is called. *)
Definition hash (random : list byte) (data : string) (salt : option string)
  : IHashResult :=
  let actualSalt :=
    match salt with
    | Some s => if String.eqb s "" then toHex random else s
    | None => toHex random
    end in
  mkHash (toHex (pbkdf2Sync P (from data) (from actualSalt) 100000 64 "sha512"))
         actualSalt.

(** [verifyHash(data, hash, salt)] *)
Definition verifyHash (random : list byte) (data hash_ salt : string)
  : Exc string bool :=
  let newHash := hash_hex (hash random data (Some salt)) in
  timingSafeEqual (from hash_) (from newHash).

(** [encrypt(text)]; [random] is what [crypto.randomBytes(16)] returns. *)
Definition encrypt (masterKey : string) (random : list byte) (text : string)
  : Exc string IEncryptedData :=
  try_catch
    (sealed <- gcm_seal P (key_bytes masterKey) random (from text) ;;;
     Ret (mkEncrypted (toHex (fst sealed)) (toHex random)
                      (toHex (snd sealed))))
    (fun _ => Throw "Encryption failed").

(** [decrypt(encrypted, iv, authTag)] *)
Definition decrypt (masterKey : string) (encrypted iv authTag : string)
  : Exc string string :=
  try_catch
    (decrypted <- gcm_open P (key_bytes masterKey) (fromHex iv)
                           (fromHex authTag) (fromHex encrypted) ;;;
     Ret (toString decrypted))
    (fun _ => Throw "Decryption failed").

(** [sign(data, secret)]; [json] is [JSON.stringify(data)], which is
    [undefined] for data that has no JSON text, and then [update] throws. *)
Definition sign (json : option string) (secret : string) : Exc string string :=
  match json with
  | Some text => Ret (toHex (hmac P "sha256" (from secret) (from text)))
  | None => Throw "TypeError [ERR_INVALID_ARG_TYPE]"
  end.

(** [verifySignature(data, signature, secret)] *)
Definition verifySignature (json : option string) (signature secret : string)
  : Exc string bool :=
  expectedSignature <- sign json secret ;;;
  timingSafeEqual (from signature) (from expectedSignature).

End WithPrimitives.

End SecretsManager.

(** ** Frontend/src/utils/security.ts: [encrypt] and [decrypt] *)

Module ClientCipher.

(** CryptoJS, as the two functions use it: [AES_encrypt data key] is
    [CryptoJS.AES.encrypt(data, key).toString()], [AES_decrypt text key] is
    [CryptoJS.AES.decrypt(text, key)] and [Utf8_stringify] the
    [toString(CryptoJS.enc.Utf8)] of its result.  Each may throw. *)
Record CryptoJS : Type := mkCryptoJS {
  AES_encrypt : string -> string -> Exc string string;
  AES_decrypt : string -> string -> Exc string (list byte);
  Utf8_stringify : list byte -> Exc string string;
}.

Section WithCryptoJS.
Variable L : CryptoJS.
Variable ENCRYPTION_KEY : string.

(** [encrypt(data)] (lines 20-27) *)
Definition encrypt (data : string) : Exc string string :=
  try_catch (AES_encrypt L data ENCRYPTION_KEY)
            (fun error => Ret data).

(** [decrypt(encryptedData)] (lines 34-42) *)
Definition decrypt (encryptedData : string) : Exc string string :=
  try_catch
    (bytes <- AES_decrypt L encryptedData ENCRYPTION_KEY ;;;
     Utf8_stringify L bytes)
    (fun error => Ret encryptedData).

End WithCryptoJS.

(** An instance whose decryption rejects everything. *)
Definition rejecting : CryptoJS :=
  mkCryptoJS (fun _ _ => Throw "Error")
             (fun _ _ => Throw "Error")
             (fun _ => Throw "Malformed UTF-8 data").

End ClientCipher.

(** ** Frontend/src/utils/security.ts: [class RateLimiter] *)

Module RateLimiter.

Record t : Type := mk {
  maxRequests : Z;
  timeWindow : Z;
  requests : gmap string (list Z);
}.

(** [constructor(maxRequests = 10, timeWindow = 60000)] *)
Definition new (maxRequests timeWindow : Z) : t :=
  mk maxRequests timeWindow ∅.

Definition default_new : t := new 10 60000.

(** [isAllowed(identifier)], with [now] the value of [Date.now()] read
    at the call.  The filtered array is a fresh one; it is written back
    to the map only on the allowed path. *)
Definition isAllowed (now : Z) (identifier : string) (rl : t) : bool * t :=
  let userRequests := default [] (requests rl !! identifier) in
  let recentRequests :=
    filter (fun timestamp => now - timestamp < timeWindow rl) userRequests in
  if bool_decide (maxRequests rl <= Z.of_nat (List.length recentRequests)) then
    (false, rl)
  else
    (true,
     mk (maxRequests rl) (timeWindow rl)
        (<[identifier := recentRequests ++ [now]]> (requests rl))).

(** [reset(identifier)] *)
Definition reset (identifier : string) (rl : t) : t :=
  mk (maxRequests rl) (timeWindow rl) (delete identifier (requests rl)).

(** A sequence of calls for one identifier at the given clock readings. *)
Fixpoint isAllowed_seq (clock : list Z) (identifier : string) (rl : t)
  : list bool * t :=
  match clock with
  | [] => ([], rl)
  | now :: rest =>
      let '(b, rl1) := isAllowed now identifier rl in
      let '(bs, rl2) := isAllowed_seq rest identifier rl1 in
      (b :: bs, rl2)
  end.

(** The timestamps of the identifier's record that are less than one
    window old. *)
Definition recent_of (now : Z) (identifier : string) (rl : t) : list Z :=
  filter (fun timestamp => now - timestamp < timeWindow rl)
         (default [] (requests rl !! identifier)).

End RateLimiter.

(** ** Frontend/src/services/api.ts: the interceptors *)

Module ApiClient.

(** A stored token, as [isTokenExpired] sees it: its text, and what
    decoding its payload gives for [exp]. *)
Inductive Expiry : Type :=
| Malformed
| NoExpiry
| ExpiresAt (seconds : Z).

Record Token : Type := mkToken {
  raw : string;
  expiry : Expiry;
}.

(** [isTokenExpired(token)] (utils/security.ts lines 89-100); [now] is
    [Date.now()].  A payload that cannot be decoded counts as expired; one
    without a numeric [exp] compares against [NaN] and does not. *)
Definition isTokenExpired (now : Z) (token : option Token) : bool :=
  match token with
  | None => true
  | Some t =>
      if String.eqb (raw t) "" then true else
      match expiry t with
      | Malformed => true
      | NoExpiry => false
      | ExpiresAt seconds => bool_decide (seconds * 1000 <= now)
      end
  end.

(** [if (token)] *)
Definition present (token : option Token) : bool :=
  match token with
  | Some t => negb (String.eqb (raw t) "")
  | None => false
  end.

(** The body of a response, as far as the interceptors read it: the
    [message] of an error body, and the tokens the refresh endpoint
    returns. *)
Record Data : Type := mkData {
  message : option string;
  accessToken : Token;
  refreshToken : option Token;
}.

(** What the network does with one request: no response within the
    timeout, or a response with a status.  [latency] is the time it
    took. *)
Inductive Reply : Type :=
| NoResponse (latency : Z)
| Answer (latency : Z) (status : Z) (data : Data).

(** The request configuration.  [_retry] is the mark the response
    interceptor sets; the instance is created with [validateStatus:
    (status) => status < 500], which a caller's configuration may
    replace. *)
Record Config : Type := mkConfig {
  url : string;
  method : string;
  headers : list (string * string);
  _retry : bool;
  validateStatus : Z -> bool;
}.

Definition default_validateStatus (status : Z) : bool :=
  bool_decide (status < 500).

(** [axios]'s own default, in force for the refresh call. *)
Definition axios_validateStatus (status : Z) : bool :=
  bool_decide (200 <= status) && bool_decide (status < 300).

Fixpoint set_header (k v : string) (hs : list (string * string))
  : list (string * string) :=
  match hs with
  | [] => [(k, v)]
  | (k', v') :: rest =>
      if String.eqb k' k then (k, v) :: rest else (k', v') :: set_header k v rest
  end.

Definition with_header (k v : string) (c : Config) : Config :=
  mkConfig (url c) (method c) (set_header k v (headers c)) (_retry c)
           (validateStatus c).

Definition retried (c : Config) : Config :=
  mkConfig (url c) (method c) (headers c) true (validateStatus c).

(** The session storage, decrypted. *)
Record Storage : Type := mkStorage {
  user_id : option string;
  access_token : option Token;
  refresh_token : option Token;
  csrf_token : option string;
}.

Definition cleared : Storage := mkStorage None None None None.

Inductive Event : Type :=
| Sent (url : string) (retry : bool)
| Refresh.

(** Everything outside the interceptors: the clock, the storage, the
    location, the limiter of the module, the answers the network will give
    to the exchanges to come, and the exchanges made so far, latest
    first. *)
Record World : Type := mkWorld {
  now : Z;
  storage : Storage;
  fresh_csrf : string;
  pathname : string;
  rateLimiter : RateLimiter.t;
  network : list Reply;
  log : list Event;
}.

(** One HTTP exchange. *)
Definition exchange (event : Event) (w : World) : Reply * World :=
  match network w with
  | [] =>
      (NoResponse 0,
       mkWorld (now w) (storage w) (fresh_csrf w) (pathname w)
               (rateLimiter w) [] (event :: log w))
  | reply :: rest =>
      let latency := match reply with
                     | NoResponse l => l
                     | Answer l _ _ => l
                     end in
      (reply,
       mkWorld (now w + latency) (storage w) (fresh_csrf w) (pathname w)
               (rateLimiter w) rest (event :: log w))
  end.

Definition with_storage (st : Storage) (w : World) : World :=
  mkWorld (now w) st (fresh_csrf w) (pathname w) (rateLimiter w)
          (network w) (log w).

Definition with_pathname (path : string) (w : World) : World :=
  mkWorld (now w) (storage w) (fresh_csrf w) path (rateLimiter w)
          (network w) (log w).

Definition with_limiter (rl : RateLimiter.t) (w : World) : World :=
  mkWorld (now w) (storage w) (fresh_csrf w) (pathname w) rl
          (network w) (log w).

(** What a rejected promise carries. *)
Inductive Failure : Type :=
| LocalError (message : string)
| TypeError
| RefreshError (reply : Reply)
| ApiFailure (message : string) (status : option Z) (data : option Data).

Inductive Outcome : Type :=
| Resolved (data : Data)
| Rejected (failure : Failure).

(** The error the response interceptor receives: [error.response] and
    [error.config]. *)
Record AxiosError : Type := mkAxiosError {
  response : option (Z * Data);
  config : option Config;
}.

Definition NETWORK : string := "Network error. Please check your connection.".
Definition UNAUTHORIZED : string :=
  "You are not authorized to access this resource.".
Definition NOT_FOUND : string := "The requested resource was not found.".
Definition SERVER_ERROR : string := "Server error. Please try again later.".
Definition VALIDATION : string := "Please check your input and try again.".

Definition message_or (data : Data) (fallback : string) : string :=
  match message data with
  | Some m => if String.eqb m "" then fallback else m
  | None => fallback
  end.

(** [handleApiError(error)] (lines 182-199) *)
Definition handleApiError (error : AxiosError) : string :=
  match response error with
  | None => NETWORK
  | Some (status, data) =>
      if status =? 401 then UNAUTHORIZED
      else if status =? 404 then NOT_FOUND
      else if status =? 400 then message_or data VALIDATION
      else if status =? 500 then SERVER_ERROR
      else message_or data "An error occurred"
  end.

(** The request interceptor (lines 35-81). *)
Definition requestInterceptor (config : Config) (w : World)
  : Exc Failure Config * World :=
  let userId :=
    match user_id (storage w) with
    | Some i => if String.eqb i "" then "anonymous" else i
    | None => "anonymous"
    end in
  let '(allowed, limiter) :=
    RateLimiter.isAllowed (now w) userId (rateLimiter w) in
  let w := with_limiter limiter w in
  if negb allowed then
    (Throw (LocalError "Too many requests. Please try again later."), w)
  else
    let token := access_token (storage w) in
    if present token && isTokenExpired (now w) token then
      let st := storage w in
      (Throw (LocalError "Token expired"),
       with_pathname "/admin/auth"
         (with_storage (mkStorage (user_id st) None (refresh_token st)
                                  (csrf_token st)) w))
    else
      let config :=
        match token with
        | Some t =>
            if present token
            then with_header "Authorization" ("Bearer " +:+ raw t) config
            else config
        | None => config
        end in
      let mutating :=
        existsb (String.eqb (JsString.toLowerCase (method config)))
                ["post"; "put"; "patch"; "delete"] in
      let '(config, w) :=
        if mutating then
          let csrfToken :=
            match csrf_token (storage w) with
            | Some t => if String.eqb t "" then fresh_csrf w else t
            | None => fresh_csrf w
            end in
          let st := storage w in
          (with_header "X-CSRF-Token" csrfToken config,
           with_storage (mkStorage (user_id st) (access_token st)
                                   (refresh_token st) (Some csrfToken)) w)
        else (config, w) in
      (Ret (with_header "X-Request-Timestamp" (pretty (now w)) config), w).

(** The second function of the response interceptor (lines 106-178).
    [replay] is [apiClient] itself. *)
Definition onRejected (replay : Config -> World -> option (Outcome * World))
    (error : AxiosError) (w : World) : option (Outcome * World) :=
  let surface :=
    match response error with
    | Some (status, data) =>
        if status =? 429 then
          Some (Rejected (ApiFailure "Too many requests. Please slow down."
                                     (Some 429) None), w)
        else
          Some (Rejected (ApiFailure (handleApiError error) (Some status)
                                     (Some data)), w)
    | None =>
        Some (Rejected (ApiFailure (handleApiError error) None None), w)
    end in
  match response error with
  | Some (status, _) =>
      if status =? 401 then
        match config error with
        | None => Some (Rejected TypeError, w)
        | Some originalRequest =>
            if _retry originalRequest then surface else
            let originalRequest := retried originalRequest in
            let stored := refresh_token (storage w) in
            if present stored && negb (isTokenExpired (now w) stored) then
              let '(reply, w) := exchange Refresh w in
              let failed :=
                let w := with_storage cleared w in
                let w :=
                  if negb (JsString.includes (pathname w) "/auth")
                  then with_pathname "/admin/auth" w else w in
                Some (Rejected (RefreshError reply), w) in
              match reply with
              | Answer _ status data =>
                  if axios_validateStatus status then
                    let st := storage w in
                    let newRefreshToken :=
                      if present (refreshToken data) then refreshToken data
                      else refresh_token st in
                    let w :=
                      with_storage
                        (mkStorage (user_id st) (Some (accessToken data))
                                   newRefreshToken (csrf_token st)) w in
                    replay
                      (with_header "Authorization"
                         ("Bearer " +:+ raw (accessToken data))
                         originalRequest) w
                  else failed
              | NoResponse _ => failed
              end
            else surface
        end
      else surface
  | None => surface
  end.

(** One call of [apiClient(config)]: the request interceptor, the
    exchange, [validateStatus], then the response interceptor.  A
    rejection by the request interceptor reaches the response
    interceptor's second function as an error without [response] and
    [config].  [fuel] bounds the nesting of replays. *)
Fixpoint apiClient (fuel : nat) (config : Config) (w : World)
  : option (Outcome * World) :=
  match fuel with
  | O => None
  | Datatypes.S fuel' =>
      match requestInterceptor config w with
      | (Throw _, w) =>
          onRejected (apiClient fuel') (mkAxiosError None None) w
      | (Ret config, w) =>
          let '(reply, w) := exchange (Sent (url config) (_retry config)) w in
          match reply with
          | Answer _ status data =>
              if validateStatus config status then Some (Resolved data, w)
              else onRejected (apiClient fuel')
                     (mkAxiosError (Some (status, data)) (Some config)) w
          | NoResponse _ =>
              onRejected (apiClient fuel')
                (mkAxiosError None (Some config)) w
          end
      end
  end.

Definition refreshes (events : list Event) : nat :=
  List.length (List.filter (fun e => match e with Refresh => true | _ => false end)
                           events).

Definition sends (events : list Event) : nat :=
  List.length (List.filter (fun e => match e with Sent _ _ => true | _ => false end)
                           events).

Definition replays (events : list Event) : nat :=
  List.length (List.filter (fun e => match e with Sent _ true => true | _ => false end)
                           events).

(** What one call does to the log. *)
Definition bounded (r s : nat) (result : option (Outcome * World)) (w : World)
  : Prop :=
  exists out w' events,
    result = Some (out, w') /\
    log w' = events ++ log w /\
    (refreshes events <= r)%nat /\
    (sends events <= s)%nat /\
    (replays events <= 1)%nat.

(** A session to run the client in, at millisecond 1000000: a user whose
    access and refresh tokens expire at seconds 1900 and 2000. *)
Definition access_1 : Token := mkToken "a1.b1.c1" (ExpiresAt 1900).
Definition access_2 : Token := mkToken "a2.b2.c2" (ExpiresAt 2900).
Definition refresh_1 : Token := mkToken "r1.s1.t1" (ExpiresAt 2000).

Definition body (text : string) : Data :=
  mkData (Some text) access_2 None.

Definition session (answers : list Reply) : World :=
  mkWorld 1000000
          (mkStorage (Some "u-17") (Some access_1) (Some refresh_1) None)
          "c5rf" "/admin" (RateLimiter.new 100 60000) answers [].

(** A request whose configuration has the promise rejected on every
    status outside 2xx, and the same request with the instance's own
    [validateStatus]. *)
Definition strict_request : Config :=
  mkConfig "/users" "get" [] false axios_validateStatus.

Definition plain_request : Config :=
  mkConfig "/users" "get" [] false default_validateStatus.

End ApiClient.

(** ** Runs of the rate limiter *)

Module LimiterRuns.
Import RateLimiter.

(** The two methods of the class, as operations on one limiter. *)
Inductive Op : Type :=
| Check (now : Z) (identifier : string)
| Reset (identifier : string).

Definition step (rl : t) (op : Op) : t :=
  match op with
  | Check now identifier => snd (isAllowed now identifier rl)
  | Reset identifier => reset identifier rl
  end.

Definition run (ops : list Op) (rl : t) : t := fold_left step ops rl.

(** The clock readings of a sequence of calls for one identifier at which
    [isAllowed] answered [true]. *)
Fixpoint allowed_times (clock : list Z) (identifier : string) (rl : t)
  : list Z :=
  match clock with
  | [] => []
  | now :: rest =>
      let '(b, rl1) := isAllowed now identifier rl in
      (if b then [now] else []) ++ allowed_times rest identifier rl1
  end.

(** The record of an identifier, [this.requests.get(identifier) || []]. *)
Definition record (identifier : string) (rl : t) : list Z :=
  default [] (requests rl !! identifier).

End LimiterRuns.

(** ** Backend/src/middlewares/apiSecurity.ts: tokens, keys and signatures *)

Module Guards.
Import JsString Json Express Buffer NodeCrypto.

(** [s.split(c)] for a separator of one character. *)
Fixpoint split (c : ascii) (s : string) : list string :=
  match s with
  | EmptyString => [EmptyString]
  | String a r =>
      if Ascii.eqb a c then EmptyString :: split c r
      else match split c r with
           | h :: t => String a h :: t
           | [] => [String a EmptyString]
           end
  end.

(** [array.includes(s)] for an array of strings *)
Definition includes_string (l : list string) (s : string) : bool :=
  existsb (String.eqb s) l.

(** The body every refusal of these middlewares sends. *)
Definition refuse (status : Z) (message : string) (req : Request) : Outcome :=
  Respond (App.failure status message [] req).

(** [req.session] of [SessionWithCSRF], where there is one. *)
Record Session : Type := mkSession {
  csrfToken : option string;
}.

(** The two ways [generateCSRFToken] ends: [next()] with the token
    stored in the session and in [res.locals], or [next(err)]. *)
Inductive Generated : Type :=
| Issued (session : Session) (locals_csrfToken : string)
| NextError (message : string).

(** [generateCSRFToken] (lines 64-75); [random] is what
    [crypto.randomBytes(32)] returns. *)
Definition generateCSRFToken (random : list byte) (session : option Session)
  : Generated :=
  match session with
  | None => NextError "Session is required for CSRF protection"
  | Some _ =>
      let token := toHex random in
      Issued (mkSession (Some token)) token
  end.

(** [(req.headers['x-csrf-token'] as string) || req.body._csrf]: reading
    a property of a body that is [undefined] or [null] throws. *)
Definition csrf_candidate (body : option value) (req : Request)
  : Exc string (option value) :=
  match get "x-csrf-token" req with
  | Some (String a r) => Ret (Some (VString (String a r)))
  | _ =>
      match body with
      | None | Some VNull => Throw "TypeError"
      | Some b => Ret (property "_csrf" b)
      end
  end.

(** [verifyCSRFToken] (lines 80-99) *)
Definition verifyCSRFToken (session : option Session) (body : option value)
    (req : Request) : Exc string Outcome :=
  if includes_string ["GET"; "HEAD"; "OPTIONS"] (method req) then Ret Next
  else
    token <- csrf_candidate body req ;;;
    let expected := session ≫= csrfToken in
    let same :=
      match token, expected with
      | Some (VString t), Some e => String.eqb t e
      | None, None => true
      | _, _ => false
      end in
    if negb (from_option truthy false token) || negb same
    then Ret (refuse 403 "Invalid CSRF token" req)
    else Ret Next.

(** [validateApiKey] (lines 106-132); [API_KEYS] is
    [process.env.API_KEYS]. *)
Definition validateApiKey (API_KEYS : option string) (req : Request)
  : Outcome :=
  match get "x-api-key" req with
  | None | Some EmptyString => refuse 401 "API key is required" req
  | Some apiKey =>
      let validApiKeys :=
        match API_KEYS with
        | Some keys => split ","%char keys
        | None => []
        end in
      if negb (includes_string validApiKeys apiKey)
      then refuse 401 "Invalid API key" req
      else Next
  end.

Definition digit_value (a : ascii) : option Z :=
  if in_range 48 57 a then Some (Z.of_N (code a) - 48) else None.

(** The value of the longest prefix of decimal digits, if it has one. *)
Fixpoint digits (acc : option Z) (s : string) : option Z :=
  match s with
  | String a r =>
      match digit_value a with
      | Some d => digits (Some (10 * default 0 acc + d)) r
      | None => acc
      end
  | EmptyString => acc
  end.

(** [parseInt(s, 10)]: leading white space, an optional sign, then
    digits; [None] is [NaN].  The result is exact below 2^53. *)
Definition parseInt (s : string) : option Z :=
  match skip_ws s with
  | String "-" r => Z.opp <$> digits None r
  | String "+" r => digits None r
  | r => digits None r
  end.

(** [validateTimestamp(maxAgeSeconds)] (lines 176-204); [now] is
    [Date.now()].  Every comparison with [NaN] is false. *)
Definition validateTimestamp (maxAgeSeconds : Z) (now : Z) (req : Request)
  : Outcome :=
  match get "x-timestamp" req with
  | None | Some EmptyString => refuse 400 "Timestamp is required" req
  | Some timestamp =>
      let currentTime := now / 1000 in
      match parseInt timestamp with
      | Some requestTime =>
          let age := currentTime - requestTime in
          if (age >? maxAgeSeconds) || (age <? 0)
          then refuse 401 "Request expired or timestamp invalid" req
          else Next
      | None => Next
      end
  end.

(** [verifySignature(secret)] (lines 139-169); [payload] is
    [JSON.stringify(req.body)], which is [undefined] for a body without
    JSON text, and then [update] throws. *)
Definition verifySignature (P : Primitives) (secret : string)
    (payload : option string) (req : Request) : Exc string Outcome :=
  match get "x-signature" req with
  | None | Some EmptyString => Ret (refuse 401 "Signature is required" req)
  | Some signature =>
      match payload with
      | None => Throw "TypeError [ERR_INVALID_ARG_TYPE]"
      | Some text =>
          let expectedSignature :=
            toHex (hmac P "sha256" (from secret) (from text)) in
          if negb (String.eqb signature expectedSignature)
          then Ret (refuse 401 "Invalid signature" req)
          else Ret Next
      end
  end.

End Guards.

(** ** Backend/src/middlewares/apiSecurity.ts: [detectSuspiciousActivity] *)

Module Detector.
Import JsString Json Express Sanitizer.

(** Whether the character [c] occurs in [s]. *)
Fixpoint mentions (c : ascii) (s : string) : bool :=
  match s with
  | EmptyString => false
  | String a r => Ascii.eqb a c || mentions c r
  end.

Definition starts_with (p s : string) : bool :=
  match strip_prefix p s with
  | Some _ => true
  | None => false
  end.

Definition starts_with_ci (p s : string) : bool :=
  match strip_prefix_ci p s with
  | Some _ => true
  | None => false
  end.

(** A line terminator at the head of [s]: LF, CR, U+2028 or U+2029, the
    characters the dot of a regular expression does not match. *)
Definition line_terminator (s : string) : bool :=
  match s with
  | String a r =>
      (code a =? 10)%N || (code a =? 13)%N
      || match r with
         | String b (String c _) =>
             (code a =? 226)%N && (code b =? 128)%N && in_range 168 169 c
         | _ => false
         end
  | EmptyString => false
  end.

(** A lazy run of dots and then what [target] recognises at the head of
    the rest. *)
Fixpoint on_line (target : string -> bool) (s : string) : bool :=
  target s
  || match s with
     | EmptyString => false
     | String a r => if line_terminator s then false else on_line target r
     end.

(** The literal [w], ending in a word character, and a word boundary. *)
Definition word (w s : string) : option string :=
  match strip_prefix_ci w s with
  | Some r => if word_boundary_after_word r then Some r else None
  | None => None
  end.

(** The first pattern (line 209) at the head of [s]: the word [or] or
    the word [and], in either case, and an equals sign later on the
    line.  The lazy run after the sign matches nothing. *)
Definition sql_here (s : string) : bool :=
  match word "or" s with
  | Some r => on_line (starts_with "=") r
  | None => false
  end
  || match word "and" s with
     | Some r => on_line (starts_with "=") r
     | None => false
     end.

(** The search for it; [after_word] tells whether the character before
    [s] is a word character. *)
Fixpoint sql_from (after_word : bool) (s : string) : bool :=
  (negb after_word && sql_here s)
  || match s with
     | EmptyString => false
     | String a r => sql_from (is_word a) r
     end.

Definition sql_injection (s : string) : bool := sql_from false s.

(** The rest of [s] after the first occurrence of [p], in either case. *)
Fixpoint after_ci (p s : string) : option string :=
  match strip_prefix_ci p s with
  | Some r => Some r
  | None =>
      match s with
      | EmptyString => None
      | String _ r => after_ci p r
      end
  end.

(** The second pattern (line 210): an opening script tag, a closing
    angle bracket anywhere after it and a closing script tag anywhere
    after that.  There is such a triple exactly when there is one made
    of first occurrences. *)
Definition xss (s : string) : bool :=
  match after_ci "<script" s with
  | Some r =>
      match after_ci ">" r with
      | Some r' =>
          match after_ci "</script>" r' with
          | Some _ => true
          | None => false
          end
      | None => false
      end
  | None => false
  end.

(** The third pattern (line 211): two dots and a slash of either kind. *)
Definition path_traversal (s : string) : bool :=
  includes s "../" || includes s "..\".

Definition command_word (s : string) : bool :=
  starts_with_ci "exec" s || starts_with_ci "system" s
  || starts_with_ci "eval" s.

(** The fourth pattern (line 212): a semicolon and one of three words
    later on the line. *)
Fixpoint command_injection (s : string) : bool :=
  match s with
  | EmptyString => false
  | String a r =>
      (Ascii.eqb a ";" && on_line command_word r) || command_injection r
  end.

(** [suspiciousPatterns.some(pattern => pattern.test(input))] *)
Definition suspicious (input : string) : bool :=
  sql_injection input || xss input || path_traversal input
  || command_injection input.

(** [checkInput] (lines 216-224): [Object.values] lists the own
    properties of an object and the items of an array. *)
Fixpoint checkInput (input : jsval) : bool :=
  match input with
  | JString s => suspicious s
  | JObject _ own => existsb (fun kv => checkInput (snd kv)) own
  | JArray items => existsb checkInput items
  | JNumber _ | JBoolean _ | JNull => false
  end.

(** [detectSuspiciousActivity] (lines 215-249) on the payloads as
    [sanitizeInput] left them. *)
Definition detectSuspiciousActivity (payload : Payload jsval) (req : Request)
  : Outcome :=
  let check (input : option jsval) := from_option checkInput false input in
  if check (query payload) || check (body payload) || check (params payload)
  then Guards.refuse 400 "Invalid request detected" req
  else Next.

(** The strings of a value that [Object.values] reaches. *)
Inductive leaf (s : string) : jsval -> Prop :=
| leaf_here : leaf s (JString s)
| leaf_own proto own k v :
    In (k, v) own -> leaf s v -> leaf s (JObject proto own)
| leaf_item items v :
    In v items -> leaf s v -> leaf s (JArray items).

(** A string is plain when it has none of the characters [=], [<], [.]
    and [;]. *)
Definition plain (s : string) : Prop :=
  mentions "=" s = false /\ mentions "<" s = false
  /\ mentions "." s = false /\ mentions ";" s = false.

End Detector.

(** ** Backend/src/config/security.ts: the CORS origin check *)

Module Security.
Import JsString App Guards.

(** [new Error(message)]; [stack] is the trace the engine records. *)
Definition Error (message : string) (stack : option string) : CustomError :=
  mkError "Error" message stack None None None None.

(** [corsOriginHandler(origin, callback)] (lines 54-65): [Ret allow] is
    [callback(null, allow)] and [Throw err] is [callback(err)], which the
    [cors] middleware hands to [next].  [cors_origin] is
    [config.cors.origin]. *)
Definition corsOriginHandler (stack : option string) (cors_origin : string)
    (origin : option string) : Exc CustomError bool :=
  let allowedOrigins := map trim (split "," cors_origin) in
  match origin with
  | None | Some EmptyString => Ret true
  | Some origin =>
      if includes_string allowedOrigins origin
         || includes_string allowedOrigins "*"
      then Ret true
      else Throw (Error "Not allowed by CORS" stack)
  end.

End Security.

(** ** [class SecretsManager]: masking and comparison *)

Module SecretsTools.
Import JsString Json Buffer NodeCrypto.

Definition REDACTED : jsval := JString "***REDACTED***".

Definition is_redacted (v : jsval) : bool :=
  match v with
  | JString s => String.eqb s "***REDACTED***"
  | _ => false
  end.

Section Masking.
(** [String.prototype.toLowerCase], on every string. *)
Variable toLowerCase : string -> string.
Variable fieldsToMask : list string.

(** [fieldsToMask.some(field =>
    key.toLowerCase().includes(field.toLowerCase()))] *)
Definition sensitive (key : string) : bool :=
  existsb (fun field => includes (toLowerCase key) (toLowerCase field))
          fieldsToMask.

(** [maskSensitiveData(data, fieldsToMask)] (lines 134-155).  The keys
    of an array are its indices in decimal; [typeof v === 'object'] holds
    of objects, arrays and [null]. *)
Fixpoint maskSensitiveData (data : value) : jsval :=
  let property (key : string) (v : value) : jsval :=
    if sensitive key then REDACTED
    else match v with
         | VObject _ | VArray _ | VNull => maskSensitiveData v
         | VString _ | VNumber _ | VBoolean _ => of_json v
         end in
  match data with
  | VObject fields =>
      fold_left
        (fun masked kv => assign masked (fst kv) (property (fst kv) (snd kv)))
        fields (JObject None [])
  | VArray items =>
      JArray ((fix go (i : nat) (l : list value) : list jsval :=
                 match l with
                 | [] => []
                 | v :: rest => property (pretty i) v :: go (S i) rest
                 end) O items)
  | VString _ | VNumber _ | VBoolean _ | VNull => of_json data
  end.

(** What is stored under [key] (lines 44-52). *)
Definition mask_property (key : string) (v : value) : jsval :=
  if sensitive key then REDACTED
  else match v with
       | VObject _ | VArray _ | VNull => maskSensitiveData v
       | VString _ | VNumber _ | VBoolean _ => of_json v
       end.

Fixpoint mask_items (i : nat) (l : list value) : list jsval :=
  match l with
  | [] => []
  | v :: rest => mask_property (pretty i) v :: mask_items (S i) rest
  end.

(** An entry is in order when a sensitive key holds the mask. *)
Definition entry_ok (key : string) (v : jsval) : bool :=
  if sensitive key then is_redacted v else true.

(** Nothing is left in the clear: in the value, in the objects and
    arrays inside it and in their prototypes, every sensitive key holds
    the mask. *)
Fixpoint concealed (v : jsval) : bool :=
  match v with
  | JObject proto own =>
      match proto with
      | Some p => concealed p
      | None => true
      end
      && forallb (fun kv => entry_ok (fst kv) (snd kv) && concealed (snd kv))
                 own
  | JArray items =>
      (fix go (i : nat) (l : list jsval) : bool :=
         match l with
         | [] => true
         | v :: rest =>
             entry_ok (pretty i) v && concealed v && go (S i) rest
         end) O items
  | JString _ | JNumber _ | JBoolean _ | JNull => true
  end.

Fixpoint concealed_items (i : nat) (l : list jsval) : bool :=
  match l with
  | [] => true
  | v :: rest =>
      entry_ok (pretty i) v && concealed v && concealed_items (S i) rest
  end.

End Masking.

(** The number of UTF-16 code units of the character a byte of UTF-8
    begins: none for a continuation byte, two for the lead byte of a
    sequence of four. *)
Definition utf16_units (a : ascii) : nat :=
  if (code a <? 128)%N then 1
  else if (code a <? 192)%N then 0
  else if (code a <? 240)%N then 1
  else 2.

(** [s.length] *)
Fixpoint utf16_length (s : string) : nat :=
  match s with
  | EmptyString => O
  | String a r => (utf16_units a + utf16_length r)%nat
  end.

(** Text of ASCII characters only. *)
Fixpoint is_ascii (s : string) : bool :=
  match s with
  | EmptyString => true
  | String a r => (code a <? 128)%N && is_ascii r
  end.

(** [safeCompare(a, b)] (lines 160-173), on two strings. *)
Definition safeCompare (a b : string) : Exc string bool :=
  if negb (Nat.eqb (utf16_length a) (utf16_length b)) then Ret false
  else timingSafeEqual (from a) (from b).

(** The two bytes of the UTF-8 encoding of U+00E9. *)
Definition e_acute : string :=
  String (ascii_of_N 195) (String (ascii_of_N 169) EmptyString).

End SecretsTools.

(** ** Frontend/src/utils/security.ts: escaping and the storage wrapper *)

Module ClientSecurity.
Import Json Buffer ClientCipher.

(** [s.replace(/c/g, by)] for a pattern of one character. *)
Fixpoint replace_char (c : ascii) (by_ : string) (s : string) : string :=
  match s with
  | EmptyString => EmptyString
  | String a r =>
      if Ascii.eqb a c then by_ +:+ replace_char c by_ r
      else String a (replace_char c by_ r)
  end.

(** The double quote and the apostrophe. *)
Definition quote : ascii := ascii_of_N 34.
Definition apostrophe : ascii := ascii_of_N 39.

(** [sanitizeInput(input)] (lines 62-72), on a string. *)
Definition sanitizeInput (input : string) : string :=
  if String.eqb input "" then ""
  else
    replace_char "/" "&#x2F;"
      (replace_char apostrophe "&#x27;"
         (replace_char quote "&quot;"
            (replace_char ">" "&gt;"
               (replace_char "<" "&lt;"
                  (replace_char "&" "&amp;" input))))).

(** What [secureStorage.setItem] is given: a string or other data. *)
Inductive Stored : Type :=
| Text (s : string)
| Other (v : value).

(** What [secureStorage.getItem] returns: [null], what [JSON.parse]
    made of the stored text, or the text itself. *)
Inductive Item : Type :=
| Null
| Parsed (v : value)
| Raw (s : string).

Section SecureStorage.
Variable L : CryptoJS.
Variable ENCRYPTION_KEY : string.
(** [JSON.parse], which throws on text that is not JSON, and
    [JSON.stringify] on data. *)
Variable JSON_parse : string -> option value.
Variable JSON_stringify : value -> string.
(** Whether [sessionStorage.setItem] accepts the entry; it throws when
    the quota is exceeded. *)
Variable accepts : string -> string -> bool.

(** [secureStorage.setItem(key, value)] (lines 111-119) *)
Definition setItem (key : string) (value : Stored)
    (sessionStorage : gmap string string) : gmap string string :=
  let stringValue :=
    match value with
    | Text s => s
    | Other v => JSON_stringify v
    end in
  match ClientCipher.encrypt L ENCRYPTION_KEY stringValue with
  | Ret encrypted =>
      if accepts key encrypted then <[key := encrypted]> sessionStorage
      else sessionStorage
  | Throw _ => sessionStorage
  end.

(** [secureStorage.getItem(key)] (lines 126-141) *)
Definition getItem (key : string) (sessionStorage : gmap string string)
  : Item :=
  match sessionStorage !! key with
  | None | Some EmptyString => Null
  | Some encrypted =>
      match ClientCipher.decrypt L ENCRYPTION_KEY encrypted with
      | Ret decrypted =>
          match JSON_parse decrypted with
          | Some v => Parsed v
          | None => Raw decrypted
          end
      | Throw _ => Null
      end
  end.

End SecureStorage.

(** An instance to exhibit inputs with: a cipher that writes a mark
    before the text, and a parser that knows the text [null] only. *)
Definition marking : CryptoJS :=
  mkCryptoJS
    (fun data _ => Ret ("U2FsdGVk" +:+ data))
    (fun text _ =>
       match JsString.strip_prefix "U2FsdGVk" text with
       | Some data => Ret (from data)
       | None => Throw "Error"
       end)
    (fun bytes => Ret (toString bytes)).

Definition parse_null (text : string) : option value :=
  if String.eqb text "null" then Some VNull else None.

End ClientSecurity.

(** ** Backend/src/utils/jwt.ts *)

Module JWTHelper.
Import JsString.

(** [extractFromHeader(authHeader)] (lines 104-109) *)
Definition extractFromHeader (authHeader : option string) : option string :=
  match authHeader with
  | None | Some EmptyString => None
  | Some h => strip_prefix "Bearer " h
  end.

(** [isExpired(token)] (lines 114-124).  [decoded] is what [this.decode]
    returns for the token: [None] for [null], otherwise the [exp] of the
    payload if it has a number there; [now] is [Date.now()]. *)
Definition isExpired (now : Z) (decoded : option (option Z)) : bool :=
  match decoded with
  | None | Some None => true
  | Some (Some exp) =>
      if exp =? 0 then true
      else
        let currentTime := now / 1000 in
        exp <? currentTime
  end.

End JWTHelper.

(** ** Backend/src/utils/sanitize.ts *)

Module SanitizeHelper.
Import JsString SecretsTools.

(** [[a-zA-Z0-9._-]] *)
Definition filename_char (a : ascii) : bool :=
  in_range 97 122 a || in_range 65 90 a || in_range 48 57 a
  || Ascii.eqb a "." || Ascii.eqb a "_" || Ascii.eqb a "-".

(** The expression of line 63 at the head of [s]: two dots and a slash
    of either kind. *)
Definition match_traversal (s : string) : option nat :=
  match s with
  | String a (String b (String c _)) =>
      if Ascii.eqb a "." && Ascii.eqb b "."
         && (Ascii.eqb c "/" || Ascii.eqb c "\")
      then Some 3%nat else None
  | _ => None
  end.

Fixpoint underscores (n : nat) : string :=
  match n with
  | O => EmptyString
  | S k => String "_" (underscores k)
  end.

(** [s.replace(/[^a-zA-Z0-9._-]/g, '_')]: one underscore for each code
    unit outside the class. *)
Fixpoint replace_others (s : string) : string :=
  match s with
  | EmptyString => EmptyString
  | String a r =>
      if filename_char a then String a (replace_others r)
      else underscores (utf16_units a) +:+ replace_others r
  end.

(** [filename(filename)] (lines 61-69) *)
Definition filename (name : string) : string :=
  replace_others (remove_all match_traversal 0 name).

(** [[a-f0-9]] with the [i] flag *)
Definition hex_char (a : ascii) : bool :=
  in_range 97 102 a || in_range 65 70 a || in_range 48 57 a.

Fixpoint keep (p : ascii -> bool) (s : string) : string :=
  match s with
  | EmptyString => EmptyString
  | String a r => if p a then String a (keep p r) else keep p r
  end.

(** [objectId(id)] (lines 133-139) *)
Definition objectId (id : string) : Exc string string :=
  let sanitized := keep hex_char id in
  if negb (Nat.eqb (utf16_length sanitized) 24)
  then Throw "Invalid ObjectId format"
  else Ret sanitized.

End SanitizeHelper.

(** ** Password policies: Backend/src/utils/password.ts and
    Frontend/src/utils/validation.ts *)

Module Passwords.
Import JsString Detector SecretsTools ClientSecurity.

Fixpoint any_char (p : ascii -> bool) (s : string) : bool :=
  match s with
  | EmptyString => false
  | String a r => p a || any_char p r
  end.

Fixpoint all_chars (p : ascii -> bool) (s : string) : bool :=
  match s with
  | EmptyString => true
  | String a r => p a && all_chars p r
  end.

Definition is_upper (a : ascii) : bool := in_range 65 90 a.
Definition is_lower (a : ascii) : bool := in_range 97 122 a.
Definition is_digit (a : ascii) : bool := in_range 48 57 a.

Definition lowercase : string := "abcdefghijklmnopqrstuvwxyz".
Definition uppercase : string := "ABCDEFGHIJKLMNOPQRSTUVWXYZ".
Definition numbers : string := "0123456789".
Definition special : string := "!@#$%^&*(),.?" +:+ String quote ":{}|<>".
Definition all : string := lowercase +:+ uppercase +:+ numbers +:+ special.

(** The class of line 65 has the characters of [special]. *)
Definition is_special (a : ascii) : bool := mentions a special.

Record Strength : Type := mkStrength {
  valid : bool;
  errors : list string;
}.

(** [validateStrength(password)] (password.ts lines 43-73) *)
Definition validateStrength (password : string) : Strength :=
  let errors :=
    (if (utf16_length password <? 8)%nat
     then ["Password must be at least 8 characters long"] else [])
    ++ (if negb (any_char is_upper password)
        then ["Password must contain at least one uppercase letter"] else [])
    ++ (if negb (any_char is_lower password)
        then ["Password must contain at least one lowercase letter"] else [])
    ++ (if negb (any_char is_digit password)
        then ["Password must contain at least one number"] else [])
    ++ (if negb (any_char is_special password)
        then ["Password must contain at least one special character"]
        else []) in
  mkStrength (Nat.eqb (List.length errors) 0) errors.

(** [s[i]], appended to a string: the text [undefined] outside the
    string. *)
Definition pick (s : string) (i : nat) : string :=
  match String.get i s with
  | Some a => String a EmptyString
  | None => "undefined"
  end.

(** [generate(length)] (password.ts lines 78-100).  [random k n] is
    [Math.floor(Math.random() * n)] at the [k]-th draw, and [shuffle] what
    sorting with a random comparison does to the characters. *)
Definition generate (random : nat -> nat -> nat)
    (shuffle : list ascii -> list ascii) (length : nat) : string :=
  let password :=
    pick lowercase (random 0%nat (String.length lowercase))
    +:+ pick uppercase (random 1%nat (String.length uppercase))
    +:+ pick numbers (random 2%nat (String.length numbers))
    +:+ pick special (random 3%nat (String.length special)) in
  let start := utf16_length password in
  let password :=
    fold_left
      (fun password i => password +:+ pick all (random i (String.length all)))
      (seq start (length - start)) password in
  string_of_list_ascii (shuffle (list_ascii_of_string password)).

(** A look-ahead for a character of the class [p] after a run of
    dots. *)
Definition ahead (p : ascii -> bool) (s : string) : bool :=
  on_line (fun r => match r with
                    | String a _ => p a
                    | EmptyString => false
                    end) s.

(** [REGEX.PASSWORD.test(password)]: three look-aheads, then eight or
    more letters and digits up to the end of the input. *)
Definition isStrongPassword (password : string) : bool :=
  ahead is_lower password && ahead is_upper password
  && ahead is_digit password
  && all_chars (fun a => is_lower a || is_upper a || is_digit a) password
  && (8 <=? String.length password)%nat.

(** [isEmpty(str)] (validation.ts lines 40-42) *)
Definition isEmpty (str : string) : bool :=
  String.eqb str "" || Nat.eqb (utf16_length (trim str)) 0.

(** [validatePassword(password)] (validation.ts lines 90-101); [None] is
    [null]. *)
Definition validatePassword (password : string) : option string :=
  if String.eqb password "" || isEmpty password
  then Some "Password is required"
  else if (utf16_length password <? 8)%nat
  then Some "Password must be at least 8 characters"
  else if negb (isStrongPassword password)
  then Some "Password must contain at least one uppercase, one lowercase, and one number"
  else None.

End Passwords.

(** ** Backend/src/config/env.ts *)

Module Env.
Import Guards.

Record Jwt : Type := mkJwt {
  secret : string;
  expire : string;
  refreshSecret : string;
  refreshExpire : string;
}.

Record Security : Type := mkSecurity {
  bcryptSaltRounds : option Z;
  rateLimitWindowMs : option Z;
  rateLimitMaxRequests : option Z;
}.

(** [IEnvConfig]; a number that is [NaN] is [None]. *)
Record Config : Type := mkConfig {
  env : string;
  port : option Z;
  database_url : string;
  jwt : Jwt;
  security : Security;
  cors_origin : string;
  cookie_secret : string;
  cookie_maxAge : option Z;
}.

(** [process.env[name] || fallback] *)
Definition or_default (process_env : gmap string string) (name fallback : string)
  : string :=
  match process_env !! name with
  | Some v => if String.eqb v "" then fallback else v
  | None => fallback
  end.

(** The object of lines 11-45. *)
Definition config (process_env : gmap string string) : Config :=
  let var := or_default process_env in
  mkConfig
    (var "NODE_ENV" "development")
    (parseInt (var "PORT" "5000"))
    (var "DATABASE_URL" "")
    (mkJwt (var "JWT_SECRET" "") (var "JWT_EXPIRE" "15m")
           (var "JWT_REFRESH_SECRET" "") (var "JWT_REFRESH_EXPIRE" "7d"))
    (mkSecurity (parseInt (var "BCRYPT_SALT_ROUNDS" "12"))
                (parseInt (var "RATE_LIMIT_WINDOW_MS" "900000"))
                (parseInt (var "RATE_LIMIT_MAX_REQUESTS" "100")))
    (var "CORS_ORIGIN" "http://localhost:5173")
    (var "COOKIE_SECRET" "")
    (parseInt (var "COOKIE_MAX_AGE" "604800000")).

Definition requiredEnvVars : list string :=
  ["JWT_SECRET"; "JWT_REFRESH_SECRET"; "COOKIE_SECRET"].

(** [!process.env[varName]] *)
Definition unset (process_env : gmap string string) (varName : string) : bool :=
  match process_env !! varName with
  | Some v => String.eqb v ""
  | None => true
  end.

(** [validateConfig()] (lines 50-65) *)
Definition validateConfig (process_env : gmap string string) : Exc string unit :=
  let missingVars := List.filter (unset process_env) requiredEnvVars in
  if (0 <? List.length missingVars)%nat then
    Throw ("Missing required environment variables: "
           +:+ String.concat ", " missingVars +:+ String (ascii_of_N 10)
           "Please check your .env file and ensure all required variables are set.")
  else Ret tt.

(** Loading the module (lines 11-72): what it exports, or the error it
    throws. *)
Definition load (process_env : gmap string string) : Exc string Config :=
  let config := config process_env in
  if negb (String.eqb (env config) "test") then
    _ <- validateConfig process_env ;;; Ret config
  else Ret config.

End Env.

(* ================================================================== *)
(** * Part II: the properties                                          *)
(* ================================================================== *)

(** ** The middleware chain *)

Section ChainFacts.
Import Express App.

Lemma squash_head a l : exists t, squash (a :: l) = a :: t.
Proof.
  revert a. induction l as [|b l IH]; intros a.
  - now exists [].
  - cbn [squash]. case_bool_decide as Hab.
    + subst b. apply IH.
    + eauto.
Qed.

Lemma squash_prefix l1 l2 : squash l1 `prefix_of` squash (l1 ++ l2).
Proof.
  induction l1 as [|a l1 IH].
  - apply prefix_nil.
  - destruct l1 as [|b l1].
    + destruct (squash_head a l2) as [t Ht].
      cbn [app]. rewrite Ht. cbn [squash].
      apply prefix_cons, prefix_nil.
    + cbn [app] in *. cbn [squash]. case_bool_decide.
      * exact IH.
      * apply prefix_cons, IH.
Qed.

(** The middlewares invoked for a request are an initial part of the
    layers that apply to its path, and all of them when every layer
    calls [next()]. *)
Lemma dispatch_trace {State} (matches : string -> string -> bool)
    (run : Middleware -> State -> option State) layers path :
  forall s,
    match dispatch matches run layers path s with
    | (trace, Some _) =>
        trace = map handler (List.filter (applies matches path) layers)
    | (trace, None) =>
        trace `prefix_of`
          map handler (List.filter (applies matches path) layers)
    end.
Proof.
  induction layers as [|l layers IH]; intros s; cbn [dispatch List.filter].
  - reflexivity.
  - destruct (applies matches path l); [|apply IH].
    destruct (run (handler l) s) as [s'|].
    + specialize (IH s').
      destruct (dispatch matches run layers path s') as [trace [s2|]];
        cbn [map].
      * now rewrite IH.
      * now apply prefix_cons.
    + cbn [map]. apply prefix_cons, prefix_nil.
Qed.

Lemma stages_applicable env matches path :
  stages (map handler (List.filter (applies matches path) (stack env)))
  = spec_chain_for matches path.
Proof.
  unfold stack, spec_chain_for, spec_chain, applies.
  destruct (String.eqb env "development");
    cbn [app List.filter mount use use_at handler];
    destruct (matches "/api/" path); reflexivity.
Qed.

(** C1.  Whatever the environment, the stages of the specification are
    carried out by the stack in the order the specification gives, rate
    limiting being the one layer mounted on a path, the API prefix; and
    for every request, whatever the middlewares do, the stages run are
    the first stages of that order for the request's path, all of them
    when no middleware ends the exchange. *)
Theorem middleware_chain_order (env : string) :
  stages (map handler (stack env)) = spec_chain /\
  omap (fun l => pair (handler l) <$> mount l) (stack env)
  = [(generalLimiter, "/api/")] /\
  forall (State : Type) (matches : string -> string -> bool)
         (run : Middleware -> State -> option State) (path : string)
         (s : State),
    match dispatch matches run (stack env) path s with
    | (trace, Some _) => stages trace = spec_chain_for matches path
    | (trace, None) => stages trace `prefix_of` spec_chain_for matches path
    end.
Proof.
  split; [|split].
  - unfold stack. destruct (String.eqb env "development"); reflexivity.
  - unfold stack. destruct (String.eqb env "development"); reflexivity.
  - intros State matches run path s.
    pose proof (dispatch_trace matches run (stack env) path s) as Htrace.
    destruct (dispatch matches run (stack env) path s) as [trace [s'|]].
    + rewrite Htrace. apply stages_applicable.
    + destruct Htrace as [rest Hrest].
      rewrite <- (stages_applicable env matches path), Hrest.
      unfold stages. rewrite omap_app. apply squash_prefix.
Qed.

End ChainFacts.

(** ** The error handler *)

Section ErrorHandlerFacts.
Import Json Express App ErrorSpec.

(** C2, as amended.  The handler is the first-match classification with
    the classes in the order CORS rejection, rate limit, validation
    failure, invalid token, expired token, payload too large; an
    unclassified failure gets its declared status or 500, the generic
    message in production and otherwise its own message (a fixed text
    when that is empty), with the stack trace in development only. *)
Theorem errorHandler_classification env err req :
  errorHandler env err req = amended_classifier env err req.
Proof.
  unfold errorHandler, amended_classifier, amended_rules.
  cbn [classify test answer cors_rejection rate_limit validation_failure
       invalid_token expired_token payload_too_large].
  repeat match goal with
         | |- context [if ?b then _ else _] =>
             lazymatch b with
             | String.eqb env _ => fail
             | _ => destruct b eqn:?; try reflexivity
             end
         end.
Qed.

(** C2, as claimed, fails: a failure of two classes is answered 400
    where payload-too-large tried third would answer 413, and in the
    environment [test], which is not production, the stack trace is left
    out. *)
Lemma errorHandler_not_as_claimed :
  (statusCode (errorHandler "production" oversized_validation_error some_request) = 400
   /\ statusCode (claimed_classifier "production" oversized_validation_error some_request) = 413)
  /\ (property "stack" (json (errorHandler "test" plain_error some_request)) = None
      /\ property "stack" (json (claimed_classifier "test" plain_error some_request))
         = Some (VString "Error: boom at handler"))
  /\ ~ (forall env err req,
          errorHandler env err req = claimed_classifier env err req).
Proof.
  split; [split; reflexivity|]. split; [split; reflexivity|].
  intros H.
  specialize (H "production" oversized_validation_error some_request).
  apply (f_equal statusCode) in H. vm_compute in H. discriminate H.
Qed.

(** Every answer of the error handlers carries the request's id. *)
Lemma errorHandler_requestId env err req :
  property "requestId" (json (errorHandler env err req))
  = opt_str (id req).
Proof.
  unfold errorHandler, failure.
  repeat match goal with
         | |- context [if ?b then _ else _] => destruct b
         end;
    destruct (id req); destruct (stack_trace err); reflexivity.
Qed.

Lemma notFound_requestId req :
  property "requestId" (json (notFound req)) = opt_str (id req).
Proof. unfold notFound, failure. destruct (id req); reflexivity. Qed.

End ErrorHandlerFacts.

(** ** Responses sent by the middlewares themselves *)

Section ApiSecurityFacts.
Import Json Express ApiSecurity.

Lemma validateContentType_requestId allowed req res :
  validateContentType allowed req = Respond res ->
  property "requestId" (json res) = opt_str (id req).
Proof.
  unfold validateContentType.
  destruct (String.eqb (method req) "GET"); [discriminate|].
  destruct (get "content-type" req) as [[|a ct]|].
  - intros [= <-]. destruct (id req); reflexivity.
  - destruct (negb _); [|discriminate].
    intros [= <-]. destruct (id req); reflexivity.
  - intros [= <-]. destruct (id req); reflexivity.
Qed.

(** Whatever the request, the 403 of [validateUserAgent] has no
    [requestId]. *)
Lemma validateUserAgent_403_without_requestId req res :
  validateUserAgent req = Respond res ->
  statusCode res = 403 ->
  property "requestId" (json res) = None.
Proof.
  unfold validateUserAgent.
  destruct (get "user-agent" req) as [[|a ua]|].
  - intros [= <-]. discriminate.
  - destruct (existsb _ _); [|discriminate]. now intros [= <-].
  - intros [= <-]. discriminate.
Qed.

(** The middleware is a layer of the stack in every environment, mounted
    on no path. *)
Lemma validateUserAgent_in_stack env :
  App.use App.validateUserAgent ∈ App.stack env.
Proof.
  unfold App.stack. rewrite !elem_of_app. right. right.
  repeat first [apply list_elem_of_here | apply list_elem_of_further].
Qed.

(** C3, at an input that shows the defect: the response that refuses a
    blocked user agent has no [requestId], although the request has an
    id and the other response of the same middleware carries it. *)
Theorem validateUserAgent_blocked_without_requestId :
  id scanner_request = Some "3f0c9a52-req" /\
  (exists res,
      validateUserAgent scanner_request = Respond res /\
      res = mkResponse 403
              (VObject [("success", VBoolean false);
                        ("message", VString "Access denied")]) /\
      property "requestId" (json res) = None) /\
  (exists res,
      validateUserAgent anonymous_request = Respond res /\
      statusCode res = 400 /\
      property "requestId" (json res) = Some (VString "3f0c9a52-req")).
Proof.
  split; [reflexivity|]. split; eexists; repeat split.
Qed.

End ApiSecurityFacts.

(** ** The client interceptor *)

Section ApiClientFacts.
Import ApiClient.

Lemma exchange_log event w :
  log (snd (exchange event w)) = event :: log w.
Proof. unfold exchange. destruct (network w) as [|[l|l st d] rest]; reflexivity. Qed.

(** The request interceptor makes no exchange and leaves the retry mark
    as it is. *)
Lemma requestInterceptor_keeps config w :
  log (snd (requestInterceptor config w)) = log w /\
  forall config', fst (requestInterceptor config w) = Ret config' ->
                  _retry config' = _retry config.
Proof.
  unfold requestInterceptor.
  destruct (RateLimiter.isAllowed _ _ _) as [allowed limiter].
  destruct allowed; cbn [negb]; [|split; [reflexivity|discriminate]].
  destruct (present _ && isTokenExpired _ _);
    [split; [reflexivity|discriminate]|].
  destruct (existsb _ _); cbn [fst snd]; (split; [reflexivity|]);
    intros config' [= <-];
    destruct (access_token _) as [t|]; try destruct (present _); reflexivity.
Qed.

(** An error whose request is marked, or has no request, is surfaced: no
    exchange, no replay. *)
Lemma onRejected_surfaces replay error w :
  match config error with
  | Some c => _retry c = true
  | None => True
  end ->
  exists failure, onRejected replay error w = Some (Rejected failure, w).
Proof.
  unfold onRejected. intros Hretry.
  destruct (response error) as [[status data]|]; [|eauto].
  destruct (config error) as [c|].
  - rewrite Hretry.
    destruct (status =? 401); destruct (status =? 429); eauto.
  - destruct (status =? 401); destruct (status =? 429); eauto.
Qed.

(** Closes [bounded] once the outcome, the world and the events are given. *)
Ltac count_events Hlog := repeat split; [exact Hlog | cbn; lia..].

(** A marked request is sent at most once and never refreshed, whatever
    the fuel left for replays. *)
Lemma apiClient_marked fuel config w :
  _retry config = true ->
  bounded 0 1 (apiClient (Datatypes.S fuel) config w) w.
Proof.
  intros Hretry. cbn [apiClient].
  destruct (requestInterceptor_keeps config w) as [Hlog Hkeep].
  destruct (requestInterceptor config w) as [[config'|e] w1]; cbn [fst snd] in *.
  - specialize (Hkeep config' eq_refl). rewrite Hretry in Hkeep.
    pose proof (exchange_log (Sent (url config') (_retry config')) w1) as Hex.
    destruct (exchange _ w1) as [reply w2]. cbn [snd] in Hex.
    assert (Hsent : log w2 = [Sent (url config') true] ++ log w)
      by (rewrite Hex, Hkeep, Hlog; reflexivity).
    destruct reply as [l|l status data].
    + destruct (onRejected_surfaces (apiClient fuel)
                  (mkAxiosError None (Some config')) w2 Hkeep) as [f Hf].
      rewrite Hf. exists (Rejected f), w2, [Sent (url config') true].
      count_events Hsent.
    + destruct (validateStatus config' status).
      * exists (Resolved data), w2, [Sent (url config') true].
        count_events Hsent.
      * destruct (onRejected_surfaces (apiClient fuel)
                    (mkAxiosError (Some (status, data)) (Some config')) w2 Hkeep)
          as [f Hf].
        rewrite Hf. exists (Rejected f), w2, [Sent (url config') true].
        count_events Hsent.
  - destruct (onRejected_surfaces (apiClient fuel)
                (mkAxiosError None None) w1 I) as [f Hf].
    rewrite Hf. exists (Rejected f), w1, [].
    count_events Hlog.
Qed.

Lemma refreshes_app a b : refreshes (a ++ b) = (refreshes a + refreshes b)%nat.
Proof. unfold refreshes. now rewrite List.filter_app, length_app. Qed.

Lemma sends_app a b : sends (a ++ b) = (sends a + sends b)%nat.
Proof. unfold sends. now rewrite List.filter_app, length_app. Qed.

Lemma replays_app a b : replays (a ++ b) = (replays a + replays b)%nat.
Proof. unfold replays. now rewrite List.filter_app, length_app. Qed.

(** The response interceptor refreshes at most once, and replays only
    after a refresh and only a request it has marked. *)
Lemma onRejected_bounded replay error w :
  (forall c w1, _retry c = true -> bounded 0 1 (replay c w1) w1) ->
  bounded 1 1 (onRejected replay error w) w.
Proof.
  intros Hreplay.
  assert (Hsurface : forall f, bounded 1 1 (Some (Rejected f, w)) w).
  { intros f. exists (Rejected f), w, []. repeat split; cbn; lia. }
  unfold onRejected.
  destruct (response error) as [[status data]|]; [|apply Hsurface].
  destruct (status =? 401); [|destruct (status =? 429); apply Hsurface].
  destruct (config error) as [originalRequest|]; [|apply Hsurface].
  destruct (_retry originalRequest);
    [destruct (status =? 429); apply Hsurface|].
  destruct (present _ && negb _);
    [|destruct (status =? 429); apply Hsurface].
  pose proof (exchange_log Refresh w) as Hex.
  destruct (exchange Refresh w) as [reply w1]. cbn [snd] in Hex.
  assert (Hfailed : forall f w2, log w2 = log w1 ->
                                 bounded 1 1 (Some (Rejected f, w2)) w).
  { intros f w2 Hw2. exists (Rejected f), w2, [Refresh].
    repeat split; [now rewrite Hw2, Hex | cbn; lia..]. }
  destruct reply as [l|l status' data'].
  - apply Hfailed. now destruct (negb _).
  - destruct (axios_validateStatus status').
    + match goal with
      | |- bounded _ _ (replay ?c ?w2) _ =>
          destruct (Hreplay c w2 eq_refl)
            as (out & w' & events & Hrun & Hlog & Hr & Hs & Hp)
      end.
      exists out, w', (events ++ [Refresh]).
      cbn [log with_storage] in Hlog.
      rewrite refreshes_app, sends_app, replays_app.
      repeat split;
        [exact Hrun | now rewrite Hlog, Hex, <- app_assoc | cbn; lia..].
    + apply Hfailed. now destruct (negb _).
Qed.

(** C4.  Given fuel for one replay, a call of the client ends, having
    refreshed at most once, replayed at most once and sent the request at
    most twice; a request that carries the retry mark is sent at most once
    and never refreshed, and when the answer to it is a 401 that
    [validateStatus] refuses, the call is rejected with the "not
    authorized" failure. *)
Theorem one_refresh_and_replay (fuel : nat) (config : Config) (w : World) :
  (2 <= fuel)%nat ->
  exists out w' events,
    apiClient fuel config w = Some (out, w') /\
    log w' = events ++ log w /\
    (refreshes events <= 1)%nat /\
    (replays events <= 1)%nat /\
    (sends events <= 2)%nat /\
    (_retry config = true ->
     refreshes events = 0%nat /\
     (sends events <= 1)%nat /\
     forall config' w1 latency data rest,
       requestInterceptor config w = (Ret config', w1) ->
       network w1 = Answer latency 401 data :: rest ->
       validateStatus config' 401 = false ->
       out = Rejected (ApiFailure UNAUTHORIZED (Some 401) (Some data)) /\
       events = [Sent (url config') true]).
Proof.
  intros Hfuel.
  destruct fuel as [|[|fuel]]; [lia..|].
  destruct (_retry config) eqn:Hretry.
  - destruct (apiClient_marked (Datatypes.S fuel) config w Hretry)
      as (out & w' & events & Hrun & Hlog & Hr & Hs & Hp).
    exists out, w', events.
    split; [exact Hrun|]. split; [exact Hlog|].
    split; [lia|]. split; [lia|]. split; [lia|].
    intros _. split; [lia|]. split; [lia|].
    intros config' w1 latency data rest Hreq Hnet Hvs.
    destruct (requestInterceptor_keeps config w) as [Hlog0 Hkeep].
    rewrite Hreq in Hlog0, Hkeep. cbn [fst snd] in Hlog0, Hkeep.
    specialize (Hkeep config' eq_refl). rewrite Hretry in Hkeep.
    cbn [apiClient] in Hrun. rewrite Hreq in Hrun.
    unfold exchange in Hrun. rewrite Hnet in Hrun.
    rewrite Hvs in Hrun. unfold onRejected in Hrun.
    cbn [response ApiClient.config] in Hrun. rewrite Hkeep in Hrun.
    change (401 =? 401) with true in Hrun.
    change (401 =? 429) with false in Hrun.
    cbn [handleApiError response] in Hrun.
    change (401 =? 401) with true in Hrun.
    injection Hrun as <- <-. split; [reflexivity|].
    cbn [log] in Hlog. rewrite Hlog0 in Hlog.
    change (Sent (url config') true :: log w)
      with ([Sent (url config') true] ++ log w) in Hlog.
    apply app_inv_tail in Hlog. now rewrite <- Hlog.
  - assert (Hreplay : forall c w1, _retry c = true ->
                        bounded 0 1 (apiClient (Datatypes.S fuel) c w1) w1)
      by (intros c w1 Hc; now apply apiClient_marked).
    cbn [apiClient].
    destruct (requestInterceptor_keeps config w) as [Hlog0 Hkeep].
    destruct (requestInterceptor config w) as [[config'|e] w1];
      cbn [fst snd] in *.
    + specialize (Hkeep config' eq_refl). rewrite Hretry in Hkeep.
      pose proof (exchange_log (Sent (url config') (_retry config')) w1) as Hex.
      destruct (exchange _ w1) as [reply w2]. cbn [snd] in Hex.
      rewrite Hkeep, Hlog0 in Hex.
      assert (Hrej : forall error,
                 exists out w' events,
                   onRejected (apiClient (Datatypes.S fuel)) error w2
                   = Some (out, w') /\
                   log w' = events ++ log w /\
                   (refreshes events <= 1)%nat /\
                   (replays events <= 1)%nat /\
                   (sends events <= 2)%nat).
      { intros error.
        destruct (onRejected_bounded (apiClient (Datatypes.S fuel)) error w2
                    Hreplay)
          as (out & w' & events & Hrun & Hlog & Hr & Hs & Hp).
        exists out, w', (events ++ [Sent (url config') false]).
        rewrite refreshes_app, sends_app, replays_app.
        repeat split;
          [exact Hrun | now rewrite Hlog, Hex, <- app_assoc | cbn; lia..]. }
      destruct reply as [l|l status data].
      * destruct (Hrej (mkAxiosError None (Some config')))
          as (out & w' & events & Hrun & Hlog & Hr & Hp & Hs).
        exists out, w', events. repeat (split; [assumption|]). discriminate.
      * destruct (validateStatus config' status).
        -- exists (Resolved data), w2, [Sent (url config') false].
           split; [reflexivity|]. split; [exact Hex|].
           repeat (split; [cbn; lia|]). discriminate.
        -- destruct (Hrej (mkAxiosError (Some (status, data)) (Some config')))
             as (out & w' & events & Hrun & Hlog & Hr & Hp & Hs).
           exists out, w', events. repeat (split; [assumption|]). discriminate.
    + destruct (onRejected_surfaces (apiClient (Datatypes.S fuel))
                  (mkAxiosError None None) w1 I) as [f Hf].
      exists (Rejected f), w1, [].
      split; [exact Hf|]. split; [exact Hlog0|].
      repeat (split; [cbn; lia|]). discriminate.
Qed.

Lemma one_refresh_and_replay_witness :
  exists w',
    apiClient 2 (retried strict_request)
              (session [Answer 40 401 (body "expired")])
    = Some (Rejected (ApiFailure UNAUTHORIZED (Some 401)
                                 (Some (body "expired"))), w') /\
    log w' = [Sent "/users" true].
Proof.
  destruct (one_refresh_and_replay 2 (retried strict_request)
              (session [Answer 40 401 (body "expired")]) ltac:(lia))
    as (out & w' & events & Hrun & Hlog & _ & _ & _ & Hmarked).
  destruct (Hmarked eq_refl) as (_ & _ & Hsecond).
  edestruct Hsecond as [Hout Hevents];
    [vm_compute; reflexivity | reflexivity | reflexivity |].
  exists w'. split.
  - rewrite Hrun, Hout. reflexivity.
  - rewrite Hlog, Hevents. reflexivity.
Defined.

(** A 401, a successful refresh, then a second 401: one refresh, one
    replay, and the failure is surfaced. *)
Lemma second_401_is_surfaced :
  exists w',
    apiClient 2 strict_request
      (session [Answer 40 401 (body "expired"); Answer 25 200 (body "ok");
                Answer 40 401 (body "still expired")])
    = Some (Rejected (ApiFailure UNAUTHORIZED (Some 401)
                                 (Some (body "still expired"))), w') /\
    log w' = [Sent "/users" true; Refresh; Sent "/users" false] /\
    network w' = [].
Proof. eexists. vm_compute. repeat split. Qed.

(** A 401, a successful refresh, then a 200: the replay's answer is the
    result. *)
Lemma refreshed_replay_succeeds :
  exists w',
    apiClient 2 strict_request
      (session [Answer 40 401 (body "expired"); Answer 25 200 (body "ok");
                Answer 40 200 (body "users")])
    = Some (Resolved (body "users"), w') /\
    log w' = [Sent "/users" true; Refresh; Sent "/users" false] /\
    access_token (storage w') = Some access_2.
Proof. eexists. vm_compute. repeat split. Qed.

(** With the [validateStatus] the instance is created with, a 401 answer
    resolves the promise: the response interceptor's second function is not
    called, nothing is refreshed and nothing replayed. *)
Lemma plain_request_resolves_401 :
  exists w',
    apiClient 2 plain_request (session [Answer 40 401 (body "expired")])
    = Some (Resolved (body "expired"), w') /\
    log w' = [Sent "/users" false].
Proof. eexists. vm_compute. repeat split. Qed.

End ApiClientFacts.

(** ** The secrets manager *)

Section SecretsFacts.
Import Buffer NodeCrypto SecretsManager.

Lemma fromHex_hex_of_byte b rest :
  fromHex (hex_of_byte b +:+ rest) = b :: fromHex rest.
Proof. destruct b; reflexivity. Qed.

(** Decoding the hexadecimal text of a buffer gives the buffer back. *)
Lemma fromHex_toHex bs : fromHex (toHex bs) = bs.
Proof.
  induction bs as [|b bs IH]; [reflexivity|].
  cbn [toHex]. now rewrite fromHex_hex_of_byte, IH.
Qed.

Lemma toHex_inj a b : toHex a = toHex b -> a = b.
Proof.
  intros H. apply (f_equal fromHex) in H. now rewrite !fromHex_toHex in H.
Qed.

Lemma toString_from s : toString (from s) = s.
Proof. apply string_of_list_byte_of_string. Qed.

Lemma from_inj a b : from a = from b -> a = b.
Proof.
  intros H. apply (f_equal toString) in H. now rewrite !toString_from in H.
Qed.

(** A generated master key is a key of 32 bytes. *)
Lemma generated_key_bytes random :
  List.length random = 32%nat ->
  key_bytes (masterKey None random) = random.
Proof.
  intros Hlen. unfold key_bytes, masterKey, generateKey.
  rewrite fromHex_toHex. apply take_ge. lia.
Qed.




Lemma timingSafeEqual_same a : timingSafeEqual a a = Ret true.
Proof.
  unfold timingSafeEqual. now rewrite !bool_decide_eq_true_2.
Qed.

Lemma timingSafeEqual_other a b :
  List.length a = List.length b -> a <> b -> timingSafeEqual a b = Ret false.
Proof.
  intros Hlen Hne. unfold timingSafeEqual.
  rewrite bool_decide_eq_true_2 by exact Hlen.
  now rewrite bool_decide_eq_false_2.
Qed.

Lemma timingSafeEqual_length a b :
  List.length a <> List.length b ->
  timingSafeEqual a b = Throw "RangeError [ERR_CRYPTO_TIMING_SAFE_EQUAL_LENGTH]".
Proof.
  intros Hlen. unfold timingSafeEqual. now rewrite bool_decide_eq_false_2.
Qed.

(** With a salt that is not empty the hash does not depend on the random
    draw. *)
Lemma hash_with_salt P random random' data salt :
  salt <> "" ->
  hash P random data (Some salt) = hash P random' data (Some salt).
Proof.
  intros Hsalt. unfold hash.
  destruct (String.eqb_spec salt ""); [contradiction|reflexivity].
Qed.

(** C8, as amended.  For every data and every salt that is not empty,
    [verifyHash] accepts the hash that [hash] computed; and it returns
    [false] for every other candidate of the same byte length. *)
Theorem verifyHash_contract (P : Primitives) (random random' : list byte)
    (data salt : string) :
  salt <> "" ->
  let stored := hash_hex (hash P random data (Some salt)) in
  verifyHash P random' data stored salt = Ret true /\
  forall mutated,
    mutated <> stored ->
    List.length (from mutated) = List.length (from stored) ->
    verifyHash P random' data mutated salt = Ret false.
Proof.
  intros Hsalt stored. unfold verifyHash.
  rewrite (hash_with_salt P random' random data salt Hsalt). fold stored.
  split.
  - apply timingSafeEqual_same.
  - intros mutated Hne Hlen. apply timingSafeEqual_other; [exact Hlen|].
    intros Heq. apply Hne. now apply from_inj.
Qed.

Lemma verifyHash_contract_witness :
  let stored := hash_hex (hash toy sample_random "hunter2" (Some "a1b2")) in
  verifyHash toy other_random "hunter2" stored "a1b2" = Ret true /\
  forall mutated,
    mutated <> stored ->
    List.length (from mutated) = List.length (from stored) ->
    verifyHash toy other_random "hunter2" mutated "a1b2" = Ret false.
Proof.
  apply (verifyHash_contract toy sample_random other_random "hunter2" "a1b2").
  discriminate.
Defined.

(** With the salt that [hash] reports, which is never empty when the
    random draw is not, the hash is accepted whatever salt was passed. *)
Lemma verifyHash_returned_salt P random random' data salt :
  random <> [] ->
  let result := hash P random data salt in
  verifyHash P random' data (hash_hex result) (salt_used result) = Ret true.
Proof.
  intros Hrandom result.
  assert (Hhex : toHex random <> "").
  { destruct random as [|b rest]; [contradiction|]. discriminate. }
  assert (Hsalt : salt_used result <> "").
  { subst result. unfold hash. cbn [salt_used].
    destruct salt as [s|]; [|exact Hhex].
    destruct (String.eqb_spec s ""); [exact Hhex|assumption]. }
  assert (Hsame : hash P random' data (Some (salt_used result)) = result).
  { unfold hash at 1.
    destruct (String.eqb_spec (salt_used result) ""); [contradiction|].
    subst result. unfold hash. cbn [salt_used].
    destruct salt as [s|]; [|reflexivity].
    destruct (String.eqb s ""); reflexivity. }
  unfold verifyHash. rewrite Hsame. apply timingSafeEqual_same.
Qed.

(** C8, as claimed, fails: with the empty salt each call draws a salt of
    its own, so the hash just computed is refused; and a candidate of
    another length is not answered [false], the comparison throws. *)
Lemma verifyHash_not_as_claimed :
  verifyHash toy other_random "hunter2"
             (hash_hex (hash toy sample_random "hunter2" (Some ""))) ""
  = Ret false /\
  verifyHash toy sample_random "hunter2" "abc" "a1b2"
  = Throw "RangeError [ERR_CRYPTO_TIMING_SAFE_EQUAL_LENGTH]" /\
  ~ (forall P random random' data salt,
        verifyHash P random' data
                   (hash_hex (hash P random data (Some salt))) salt
        = Ret true) /\
  ~ (forall P random data salt mutated,
        mutated <> hash_hex (hash P random data (Some salt)) ->
        verifyHash P random data mutated salt = Ret false).
Proof.
  split; [vm_compute; reflexivity|].
  split; [vm_compute; reflexivity|].
  split.
  - intros H.
    specialize (H toy sample_random other_random "hunter2" "").
    vm_compute in H. discriminate H.
  - intros H.
    specialize (H toy sample_random "hunter2" "a1b2" "abc").
    vm_compute in H. specialize (H ltac:(discriminate)). discriminate H.
Qed.

(** C9.  [verifyHash] throws when the candidate and the recomputed hash
    differ in byte length, and [verifySignature] throws when the candidate
    and the expected signature do. *)
Theorem length_mismatch_throws (P : Primitives) (random : list byte)
    (data hash_ salt : string) (json : option string)
    (signature secret expected : string) :
  (List.length (from hash_)
   <> List.length (from (hash_hex (hash P random data (Some salt)))) ->
   verifyHash P random data hash_ salt
   = Throw "RangeError [ERR_CRYPTO_TIMING_SAFE_EQUAL_LENGTH]") /\
  (sign P json secret = Ret expected ->
   List.length (from signature) <> List.length (from expected) ->
   verifySignature P json signature secret
   = Throw "RangeError [ERR_CRYPTO_TIMING_SAFE_EQUAL_LENGTH]").
Proof.
  split.
  - intros Hlen. unfold verifyHash. now apply timingSafeEqual_length.
  - intros Hsign Hlen. unfold verifySignature. rewrite Hsign.
    cbn [exc_bind]. now apply timingSafeEqual_length.
Qed.

Lemma length_mismatch_throws_witness :
  verifyHash toy sample_random "hunter2" "abc" "a1b2"
  = Throw "RangeError [ERR_CRYPTO_TIMING_SAFE_EQUAL_LENGTH]" /\
  verifySignature toy (Some "{}") "abc" "key"
  = Throw "RangeError [ERR_CRYPTO_TIMING_SAFE_EQUAL_LENGTH]".
Proof.
  destruct (length_mismatch_throws toy sample_random "hunter2" "abc" "a1b2"
              (Some "{}") "abc" "key" "7b7d") as [Hhash Hsig].
  split.
  - apply Hhash. vm_compute. discriminate.
  - apply Hsig; [reflexivity|]. vm_compute. discriminate.
Defined.

End SecretsFacts.

(** ** The client's storage cipher *)

Section ClientCipherFacts.
Import ClientCipher.

(** C10.  Neither function throws.  [encrypt] returns what the library
    returns, and the plaintext itself when the library throws; [decrypt]
    returns the decoded plaintext, and its argument itself when decryption
    or decoding throws, as it does for every input with a library that
    rejects it. *)
Theorem client_cipher_fails_open (L : CryptoJS) (key data : string) :
  encrypt L key data
  = match AES_encrypt L data key with
    | Ret text => Ret text
    | Throw _ => Ret data
    end /\
  decrypt L key data
  = match AES_decrypt L data key with
    | Ret bytes =>
        match Utf8_stringify L bytes with
        | Ret text => Ret text
        | Throw _ => Ret data
        end
    | Throw _ => Ret data
    end /\
  (exists out, encrypt L key data = Ret out) /\
  (exists out, decrypt L key data = Ret out) /\
  decrypt rejecting key data = Ret data.
Proof.
  unfold encrypt, decrypt.
  destruct (AES_encrypt L data key) as [c|e];
    destruct (AES_decrypt L data key) as [bytes|e'];
    cbn [exc_bind try_catch];
    try destruct (Utf8_stringify L bytes) as [text|e''];
    cbn [try_catch]; repeat split; eauto.
Qed.

End ClientCipherFacts.

Section RateLimiterFacts.
Import RateLimiter.

Lemma isAllowed_unfold now ident rl :
  isAllowed now ident rl =
    if bool_decide (Z.of_nat (List.length (recent_of now ident rl)) < maxRequests rl)
    then (true, mk (maxRequests rl) (timeWindow rl)
                   (<[ident := recent_of now ident rl ++ [now]]> (requests rl)))
    else (false, rl).
Proof.
  unfold isAllowed, recent_of.
  repeat case_bool_decide; first [ reflexivity | lia ].
Qed.

Lemma filter_keeps_all (P : Z -> Prop) `{!forall t, Decision (P t)} (l : list Z) :
  Forall P l -> filter P l = l.
Proof.
  induction 1 as [|t l Ht _ IH]; [reflexivity|].
  rewrite filter_cons_True by exact Ht. now rewrite IH.
Qed.

(** The first call for an identifier that has no record. *)
Lemma isAllowed_no_record now ident M W (m : gmap string (list Z)) :
  m !! ident = None -> 0 < M ->
  isAllowed now ident (mk M W m) = (true, mk M W (<[ident := [now]]> m)).
Proof.
  intros Hm HM. rewrite isAllowed_unfold. unfold recent_of.
  cbn [requests timeWindow maxRequests].
  rewrite Hm. cbn [from_option id]. rewrite filter_nil. cbn [List.length app]. rewrite bool_decide_eq_true_2 by lia. reflexivity.
Qed.

(** A call while the record holds fewer than [maxRequests] timestamps,
    all of them inside the window. *)
Lemma isAllowed_below now ident M W (m : gmap string (list Z)) l :
  Forall (fun t => now - t < W) l ->
  Z.of_nat (List.length l) < M ->
  isAllowed now ident (mk M W (<[ident := l]> m))
  = (true, mk M W (<[ident := l ++ [now]]> m)).
Proof.
  intros Hl HM. rewrite isAllowed_unfold. unfold recent_of.
  cbn [requests timeWindow maxRequests].
  rewrite lookup_insert_eq. cbn [from_option id]. rewrite (filter_keeps_all _ _ Hl).
  rewrite bool_decide_eq_true_2 by exact HM.
  now rewrite insert_insert_eq.
Qed.

(** A call while the record holds [maxRequests] timestamps or more
    inside the window. *)
Lemma isAllowed_full now ident M W (m : gmap string (list Z)) l :
  Forall (fun t => now - t < W) l ->
  M <= Z.of_nat (List.length l) ->
  isAllowed now ident (mk M W (<[ident := l]> m))
  = (false, mk M W (<[ident := l]> m)).
Proof.
  intros Hl HM. rewrite isAllowed_unfold. unfold recent_of.
  cbn [requests timeWindow maxRequests].
  rewrite lookup_insert_eq. cbn [from_option id]. rewrite (filter_keeps_all _ _ Hl).
  rewrite bool_decide_eq_false_2 by lia. reflexivity.
Qed.

(** A call once the oldest timestamp of the record has left the window. *)
Lemma isAllowed_oldest_expired now ident M W (m : gmap string (list Z)) t l :
  W <= now - t ->
  Z.of_nat (List.length l) < M ->
  fst (isAllowed now ident (mk M W (<[ident := t :: l]> m))) = true.
Proof.
  intros Ht HM. rewrite isAllowed_unfold. unfold recent_of.
  cbn [requests timeWindow maxRequests].
  rewrite lookup_insert_eq. cbn [from_option id].
  rewrite filter_cons_False by lia.
  pose proof (length_filter (fun t0 => now - t0 < W) l) as Hlen.
  rewrite bool_decide_eq_true_2 by lia. reflexivity.
Qed.

(** C5.  [isAllowed] counts the timestamps of the identifier's record
    that are less than one window old, the others being evicted; it
    returns [true] exactly when fewer than [maxRequests] remain, and then
    stores the remaining timestamps followed by the current time; it
    returns [false] otherwise and stores nothing.  With [maxRequests = 5]
    and a window of 1000 ms, five calls within the window are allowed, the
    sixth is refused, and a call made once the window of the first has
    passed is allowed again. *)
Theorem isAllowed_contract (now : Z) (ident : string) (rl : t)
    (t1 t2 t3 t4 t5 t6 t7 : Z) :
  let stored := default [] (requests rl !! ident) in
  let recent := recent_of now ident rl in
  (forall ts, ts ∈ recent <-> ts ∈ stored /\ now - ts < timeWindow rl) /\
  (forall ts, ts ∈ stored -> timeWindow rl < now - ts -> ts ∉ recent) /\
  (fst (isAllowed now ident rl) = true
     <-> Z.of_nat (List.length recent) < maxRequests rl) /\
  (fst (isAllowed now ident rl) = true ->
     snd (isAllowed now ident rl)
     = mk (maxRequests rl) (timeWindow rl)
          (<[ident := recent ++ [now]]> (requests rl))) /\
  (fst (isAllowed now ident rl) = false -> snd (isAllowed now ident rl) = rl) /\
  (t1 <= t2 <= t3 -> t3 <= t4 <= t5 -> t5 <= t6 -> t6 - t1 < 1000 ->
   1000 <= t7 - t1 ->
   fst (isAllowed_seq [t1; t2; t3; t4; t5; t6; t7] ident (new 5 1000))
   = [true; true; true; true; true; false; true]).
Proof.
  intros stored recent.
  assert (Hmem : forall ts,
             ts ∈ recent <-> ts ∈ stored /\ now - ts < timeWindow rl).
  { intros ts. unfold recent, recent_of, stored.
    rewrite list_elem_of_filter. tauto. }
  split; [exact Hmem|].
  split; [intros ts _ Hold Hin; apply Hmem in Hin; lia|].
  rewrite isAllowed_unfold. fold recent.
  case_bool_decide as Hlt; cbn [fst snd].
  - repeat split; try tauto; try discriminate.
    intros H12 H34 H56 Hin Hout. cbn [isAllowed_seq]. unfold new.
    rewrite isAllowed_no_record by (first [apply lookup_empty | lia]).
    do 4 (rewrite isAllowed_below
            by (first [repeat constructor; lia | cbn; lia]); cbn [app]).
    rewrite isAllowed_full by (first [repeat constructor; lia | cbn; lia]).
    pose proof (isAllowed_oldest_expired t7 ident 5 1000 ∅ t1 [t2; t3; t4; t5])
      as Hlast.
    destruct (isAllowed t7 ident _) as [b rl7]. cbn [fst] in *.
    rewrite Hlast by (cbn; lia). reflexivity.
  - repeat split; try tauto; try discriminate; try congruence.
    intros H12 H34 H56 Hin Hout. cbn [isAllowed_seq]. unfold new.
    rewrite isAllowed_no_record by (first [apply lookup_empty | lia]).
    do 4 (rewrite isAllowed_below
            by (first [repeat constructor; lia | cbn; lia]); cbn [app]).
    rewrite isAllowed_full by (first [repeat constructor; lia | cbn; lia]).
    pose proof (isAllowed_oldest_expired t7 ident 5 1000 ∅ t1 [t2; t3; t4; t5])
      as Hlast.
    destruct (isAllowed t7 ident _) as [b rl7]. cbn [fst] in *.
    rewrite Hlast by (cbn; lia). reflexivity.
Qed.

Lemma isAllowed_contract_witness :
  fst (isAllowed_seq [0; 100; 200; 300; 400; 500; 1000] "x" (new 5 1000))
  = [true; true; true; true; true; false; true].
Proof.
  apply (isAllowed_contract 0 "x" (new 5 1000) 0 100 200 300 400 500 1000);
    lia.
Defined.

End RateLimiterFacts.

(** ** The request sanitizer *)

Section SanitizerFacts.
Import JsString Json Sanitizer.

(** Induction over a JSON tree, with the induction hypothesis for every
    field of an object and every item of an array. *)
Lemma value_ind_nested (P : value -> Prop) :
  (forall s, P (VString s)) ->
  (forall x, P (VNumber x)) ->
  (forall b, P (VBoolean b)) ->
  P VNull ->
  (forall fields, Forall (fun kv => P (snd kv)) fields -> P (VObject fields)) ->
  (forall items, Forall P items -> P (VArray items)) ->
  forall v, P v.
Proof.
  intros Hs Hn Hb Hnull Ho Ha.
  fix IH 1.
  intros [s|x|b| |fields|items].
  - apply Hs.
  - apply Hn.
  - apply Hb.
  - apply Hnull.
  - apply Ho. induction fields as [|[k v] fields IHf]; constructor.
    + apply IH.
    + exact IHf.
  - apply Ha. induction items as [|v items IHi]; constructor.
    + apply IH.
    + exact IHi.
Qed.

Lemma sanitize_object fields :
  sanitize (VObject fields) =
    fold_left
      (fun sanitized kv =>
         assign sanitized (fst kv) (sanitize_property (snd kv)))
      fields (JObject None []).
Proof. reflexivity. Qed.

Lemma sanitize_array items :
  sanitize (VArray items) = JArray (map sanitize_property items).
Proof. reflexivity. Qed.

Lemma set_own_fresh k v own :
  k ∉ map fst own -> set_own k v own = own ++ [(k, v)].
Proof.
  induction own as [|[k' v'] own IH]; simpl; intros Hk.
  - reflexivity.
  - apply not_elem_of_cons in Hk as [Hne Hk].
    destruct (String.eqb_spec k' k) as [->|_]; [congruence|].
    now rewrite IH.
Qed.

(** Assigning fresh keys other than [__proto__] one after the other
    appends them in order. *)
Lemma fold_assign_fresh (f : value -> jsval) fields :
  forall acc,
    NoDup (map fst acc ++ map fst fields) ->
    Forall (fun kv => fst kv <> "__proto__") fields ->
    fold_left (fun o kv => assign o (fst kv) (f (snd kv)))
              fields (JObject None acc)
    = JObject None (acc ++ map (fun kv => (fst kv, f (snd kv))) fields).
Proof.
  induction fields as [|[k v] fields IH]; simpl; intros acc Hnd Hk.
  - now rewrite app_nil_r.
  - apply Forall_cons in Hk as [Hk Hrest]. simpl in Hk.
    destruct (String.eqb_spec k "__proto__") as [->|_]; [congruence|].
    apply NoDup_app in Hnd as (Hacc & Hdisj & Hf).
    apply NoDup_cons in Hf as [Hkf Hf].
    rewrite set_own_fresh.
    + rewrite IH; [now rewrite <- app_assoc | | exact Hrest].
      rewrite map_app. simpl. apply NoDup_app. split; [|split].
      * apply NoDup_app. split; [exact Hacc|]. split.
        -- intros x Hx Hin. apply list_elem_of_singleton in Hin as ->.
           apply (Hdisj k Hx). left.
        -- apply NoDup_singleton.
      * intros x Hx Hin. apply elem_of_app in Hx as [Hx|Hx].
        -- apply (Hdisj x Hx). now right.
        -- apply list_elem_of_singleton in Hx as ->. now apply Hkf.
      * exact Hf.
    + intros Hin. apply (Hdisj k Hin). left.
Qed.

Lemma sanitize_property_shape v :
  shape_of (sanitize v) = shape_of (of_json v) ->
  shape_of (sanitize_property v) = shape_of (of_json v).
Proof. destruct v; simpl; intros H; first [exact H | reflexivity]. Qed.

(** Shape preservation: on a tree none of whose objects has a key named
    [__proto__], [sanitize] changes nothing but the text of strings. *)
Lemma sanitize_shape v :
  well_formed v = true ->
  proto_free v = true ->
  shape_of (sanitize v) = shape_of (of_json v).
Proof.
  induction v as [s|x|b| |fields IH|items IH] using value_ind_nested;
    try reflexivity.
  - intros Hwf Hpf. cbn [well_formed proto_free] in Hwf, Hpf.
    apply andb_true_iff in Hwf as [Hnd Hwf].
    apply bool_decide_eq_true in Hnd.
    rewrite forallb_forall in Hwf, Hpf.
    rewrite sanitize_object, fold_assign_fresh; [| exact Hnd |].
    + cbn [app of_json shape_of option_map]. f_equal.
      rewrite !map_map. apply map_ext_in. intros [k v] Hin. cbn [fst snd].
      f_equal. apply sanitize_property_shape.
      rewrite Forall_forall in IH.
      apply (IH (k, v)).
      * now apply list_elem_of_In.
      * exact (Hwf _ Hin).
      * specialize (Hpf _ Hin). now apply andb_true_iff in Hpf as [_ ?].
    + apply Forall_forall. intros [k v] Hin%list_elem_of_In.
      specialize (Hpf _ Hin). apply andb_true_iff in Hpf as [Hk _].
      cbn [fst] in *. intros ->. discriminate Hk.
  - intros Hwf Hpf. cbn [well_formed proto_free] in Hwf, Hpf.
    rewrite forallb_forall in Hwf, Hpf.
    rewrite sanitize_array. cbn [of_json shape_of]. f_equal.
    rewrite !map_map. apply map_ext_in. intros v Hin.
    apply sanitize_property_shape.
    rewrite Forall_forall in IH.
    apply IH; [now apply list_elem_of_In | exact (Hwf _ Hin) | exact (Hpf _ Hin)].
Qed.

(** The example of the specification. *)
Lemma sanitize_script_example :
  sanitize
    (VObject [("a", VString "<script>alert(1)</script>hi");
              ("b", VObject [("c", VString "ok")])])
  = of_json (VObject [("a", VString "hi");
                      ("b", VObject [("c", VString "ok")])]).
Proof. vm_compute. reflexivity. Qed.

(** C6, at an input that shows the defect: the key [__proto__] of the
    input is not a key of the output, whose prototype is the sanitized
    value of that key instead; the shape of the tree is not preserved. *)
Theorem sanitize_loses_proto_key :
  well_formed proto_body = true /\
  sanitize proto_body
    = JObject (Some (JObject None [("isAdmin", JBoolean true)]))
              [("name", JString "a")] /\
  keys (of_json proto_body) = ["__proto__"; "name"] /\
  keys (sanitize proto_body) = ["name"] /\
  shape_of (sanitize proto_body) <> shape_of (of_json proto_body).
Proof.
  repeat split; try (vm_compute; reflexivity).
  vm_compute. discriminate.
Qed.

End SanitizerFacts.

(** ** Runs of the rate limiter *)

Section LimiterRunFacts.
Import RateLimiter LimiterRuns.

Lemma isAllowed_config now ident rl :
  maxRequests (snd (isAllowed now ident rl)) = maxRequests rl /\
  timeWindow (snd (isAllowed now ident rl)) = timeWindow rl.
Proof. rewrite isAllowed_unfold. case_bool_decide; split; reflexivity. Qed.

Lemma isAllowed_record now ident rl :
  record ident (snd (isAllowed now ident rl))
  = if fst (isAllowed now ident rl)
    then recent_of now ident rl ++ [now]
    else record ident rl.
Proof.
  rewrite isAllowed_unfold. unfold record. case_bool_decide; cbn [fst snd].
  - cbn [requests]. now rewrite lookup_insert_eq.
  - reflexivity.
Qed.

(** A call for one identifier leaves the record of every other
    identifier as it is. *)
Lemma isAllowed_other_record now ident other rl :
  ident <> other ->
  requests (snd (isAllowed now ident rl)) !! other = requests rl !! other.
Proof.
  intros Hne. rewrite isAllowed_unfold. case_bool_decide; cbn [snd requests].
  - now rewrite lookup_insert_ne.
  - reflexivity.
Qed.

(** X3.  Isolation: a call for one identifier changes neither the record of
    another identifier nor the answer a later call for that other
    identifier gets. *)
Theorem isAllowed_isolation (now now' : Z) (ident other : string) (rl : t) :
  ident <> other ->
  requests (snd (isAllowed now ident rl)) !! other = requests rl !! other /\
  fst (isAllowed now' other (snd (isAllowed now ident rl)))
  = fst (isAllowed now' other rl).
Proof.
  intros Hne. split; [now apply isAllowed_other_record|].
  destruct (isAllowed_config now ident rl) as [HM HW].
  rewrite !(isAllowed_unfold now' other). unfold recent_of.
  rewrite HM, HW, (isAllowed_other_record now ident other rl Hne).
  now case_bool_decide.
Qed.

Lemma isAllowed_isolation_witness :
  requests (snd (isAllowed 5 "u1" (new 1 1000))) !! "u2"
  = requests (new 1 1000) !! "u2" /\
  fst (isAllowed 6 "u2" (snd (isAllowed 5 "u1" (new 1 1000))))
  = fst (isAllowed 6 "u2" (new 1 1000)).
Proof. apply (isAllowed_isolation 5 6 "u1" "u2" (new 1 1000)). discriminate. Defined.

(** X4.  After [reset] the identifier starts afresh: with a positive ceiling
    the next call is allowed, whatever the record held before, and the new
    record is that one call. *)
Theorem reset_then_allowed (now : Z) (ident : string) (rl : t) :
  0 < maxRequests rl ->
  requests (reset ident rl) !! ident = None /\
  fst (isAllowed now ident (reset ident rl)) = true /\
  record ident (snd (isAllowed now ident (reset ident rl))) = [now].
Proof.
  intros HM.
  assert (Hgone : requests (reset ident rl) !! ident = None)
    by (unfold reset; cbn [requests]; apply lookup_delete_eq).
  split; [exact Hgone|].
  destruct rl as [M W m]. unfold reset in *.
  cbn [maxRequests timeWindow requests] in *.
  rewrite isAllowed_no_record by assumption.
  split; [reflexivity|]. unfold record. cbn [snd requests].
  now rewrite lookup_insert_eq.
Qed.

Lemma reset_then_allowed_witness :
  requests (reset "x" (snd (isAllowed 1 "x" (new 1 1000)))) !! "x" = None /\
  fst (isAllowed 2 "x" (reset "x" (snd (isAllowed 1 "x" (new 1 1000))))) = true /\
  record "x" (snd (isAllowed 2 "x" (reset "x" (snd (isAllowed 1 "x" (new 1 1000))))))
  = [2].
Proof.
  apply (reset_then_allowed 2 "x" (snd (isAllowed 1 "x" (new 1 1000)))).
  vm_compute. reflexivity.
Defined.

(** Every record holds at least one and at most [maxRequests]
    timestamps. *)
Definition within_ceiling (rl : t) : Prop :=
  forall ident l,
    requests rl !! ident = Some l ->
    l <> [] /\ Z.of_nat (List.length l) <= maxRequests rl.

Lemma step_within_ceiling rl op :
  within_ceiling rl -> within_ceiling (step rl op).
Proof.
  intros Hrl ident l. destruct op as [now who|who]; cbn [step].
  - destruct (isAllowed_config now who rl) as [HM _]. rewrite HM.
    rewrite isAllowed_unfold. case_bool_decide as Hroom; cbn [snd requests].
    + destruct (decide (who = ident)) as [->|Hne].
      * rewrite lookup_insert_eq. intros [= <-]. split.
        -- now destruct (recent_of now ident rl).
        -- rewrite length_app. cbn [List.length]. lia.
      * rewrite lookup_insert_ne by exact Hne. apply Hrl.
    + apply Hrl.
  - unfold reset. cbn [requests maxRequests].
    destruct (decide (who = ident)) as [->|Hne].
    + now rewrite lookup_delete_eq.
    + rewrite lookup_delete_ne by exact Hne. apply Hrl.
Qed.

Lemma run_within_ceiling ops :
  forall rl, within_ceiling rl -> within_ceiling (run ops rl).
Proof.
  unfold run. induction ops as [|op ops IH]; intros rl Hrl; [exact Hrl|].
  cbn [fold_left]. apply IH, step_within_ceiling, Hrl.
Qed.

Lemma run_maxRequests ops :
  forall rl, maxRequests (run ops rl) = maxRequests rl.
Proof.
  unfold run. induction ops as [|op ops IH]; intros rl; [reflexivity|].
  cbn [fold_left]. rewrite IH. destruct op as [now who|who]; cbn [step].
  - exact (proj1 (isAllowed_config now who rl)).
  - reflexivity.
Qed.

(** X2.  Capacity: whatever calls and resets are made on a new limiter, for
    whatever identifiers and at whatever clock readings, no record ever
    holds more than [maxRequests] timestamps, and none is empty. *)
Theorem records_within_ceiling (M W : Z) (ops : list Op) (ident : string)
    (l : list Z) :
  requests (run ops (new M W)) !! ident = Some l ->
  l <> [] /\ Z.of_nat (List.length l) <= M.
Proof.
  intros Hl.
  assert (Hnew : within_ceiling (new M W)).
  { intros i l'. unfold new. cbn [requests]. now rewrite lookup_empty. }
  destruct (run_within_ceiling ops _ Hnew ident l Hl) as [Hne Hlen].
  rewrite run_maxRequests in Hlen. now split.
Qed.

Lemma records_within_ceiling_witness :
  [7; 9] <> [] /\ Z.of_nat (List.length [7; 9]) <= 2.
Proof.
  apply (records_within_ceiling 2 1000
           [Check 1 "x"; Reset "x"; Check 7 "x"; Check 8 "y"; Check 9 "x";
            Check 10 "x"] "x" [7; 9]).
  vm_compute. reflexivity.
Defined.

Lemma filter_weaker (P Q : Z -> Prop) `{!forall t, Decision (P t)}
    `{!forall t, Decision (Q t)} (l : list Z) :
  (forall t, P t -> Q t) -> filter P (filter Q l) = filter P l.
Proof.
  intros HPQ. induction l as [|t l IH]; [reflexivity|].
  destruct (decide (Q t)) as [HQ|HQ].
  - rewrite (filter_cons_True Q) by exact HQ.
    destruct (decide (P t)) as [HP|HP].
    + rewrite !(filter_cons_True P) by exact HP. now rewrite IH.
    + rewrite !(filter_cons_False P) by exact HP. exact IH.
  - rewrite (filter_cons_False Q) by exact HQ.
    rewrite (filter_cons_False P) by (intros HP; apply HQ, HPQ, HP).
    exact IH.
Qed.

(** With a clock that does not run backwards, what is still recent in
    the stored record is what is still recent among all the calls allowed
    so far. *)
Lemma stored_agrees_with_history ident W :
  forall clock rl hist lo,
    timeWindow rl = W ->
    (forall n, lo <= n ->
       filter (fun t => n - t < W) (record ident rl)
       = filter (fun t => n - t < W) hist) ->
    Forall (fun t => lo <= t) clock ->
    StronglySorted Z.le clock ->
    forall n, lo <= n -> Forall (fun t => t <= n) clock ->
      filter (fun t => n - t < W)
             (record ident (snd (isAllowed_seq clock ident rl)))
      = filter (fun t => n - t < W) (hist ++ allowed_times clock ident rl)
      /\ timeWindow (snd (isAllowed_seq clock ident rl)) = W
      /\ maxRequests (snd (isAllowed_seq clock ident rl)) = maxRequests rl.
Proof.
  induction clock as [|now rest IH]; intros rl hist lo HW Hinv Hlo Hsorted n Hn Hle.
  - cbn [isAllowed_seq allowed_times snd]. rewrite app_nil_r. auto.
  - apply Forall_cons in Hlo as [Hlo_now Hlo_rest].
    apply Forall_cons in Hle as [Hnow_n Hrest_n].
    apply StronglySorted_inv in Hsorted as [Hsorted Hnow_rest].
    cbn [isAllowed_seq allowed_times].
    pose proof (isAllowed_record now ident rl) as Hrec.
    destruct (isAllowed_config now ident rl) as [HM1 HW1].
    destruct (isAllowed now ident rl) as [b rl1]. cbn [fst snd] in *.
    specialize (IH rl1 (hist ++ (if b then [now] else [])) now).
    destruct (isAllowed_seq rest ident rl1) as [bs rl2] eqn:Hseq.
    cbn [snd] in *. rewrite app_assoc.
    assert (HW' : timeWindow rl1 = W) by (rewrite HW1; exact HW).
    assert (Hinv' : forall k, now <= k ->
              filter (fun t => k - t < W) (record ident rl1)
              = filter (fun t => k - t < W)
                       (hist ++ (if b then [now] else []))).
    { intros k Hk. rewrite Hrec. destruct b.
      - rewrite !filter_app. f_equal. unfold recent_of. fold (record ident rl).
        rewrite HW. rewrite filter_weaker by (intros t; lia).
        apply Hinv. lia.
      - rewrite app_nil_r. apply Hinv. lia. }
    destruct (IH HW' Hinv' Hnow_rest Hsorted n Hnow_n Hrest_n)
      as (IH1 & IH2 & IH3).
    split; [exact IH1|]. split; [exact IH2|]. rewrite IH3. exact HM1.
Qed.

Lemma sorted_snoc (l : list Z) (x : Z) :
  StronglySorted Z.le (l ++ [x]) ->
  StronglySorted Z.le l /\ Forall (fun t => t <= x) l.
Proof.
  induction l as [|y l IH]; cbn [app]; intros Hs.
  - split; constructor.
  - apply StronglySorted_inv in Hs as [Hl Hy].
    rewrite Forall_app in Hy. destruct Hy as [Hy Hyx].
    rewrite Forall_singleton in Hyx. destruct (IH Hl) as [H1 H2].
    split; [apply SSorted_cons|apply List.Forall_cons]; assumption.
Qed.

(** X1.  The window bound.  On a clock that does not run backwards, a call for
    an identifier without previous record is allowed exactly when fewer
    than [maxRequests] of the calls allowed before it are less than one
    window old: no window ever holds more than [maxRequests] allowed
    calls. *)
Theorem allowed_iff_room_in_window (earlier : list Z) (now : Z)
    (ident : string) (rl : t) :
  requests rl !! ident = None ->
  StronglySorted Z.le (earlier ++ [now]) ->
  fst (isAllowed now ident (snd (isAllowed_seq earlier ident rl))) = true
  <-> Z.of_nat (List.length
                  (filter (fun t => now - t < timeWindow rl)
                          (allowed_times earlier ident rl)))
      < maxRequests rl.
Proof.
  intros Hnone Hsorted.
  destruct (sorted_snoc _ _ Hsorted) as [Hst Hle].
  set (lo := match earlier with [] => now | t :: _ => t end).
  assert (Hbounds : Forall (fun t => lo <= t) earlier /\ lo <= now).
  { subst lo. destruct earlier as [|t earlier].
    - split; [constructor|lia].
    - apply StronglySorted_inv in Hst as [_ Hall].
      apply Forall_cons in Hle as [Htn _].
      split; [constructor; [lia|exact Hall]|exact Htn]. }
  destruct Hbounds as (Hlo & Hlonow).
  destruct (stored_agrees_with_history ident (timeWindow rl) earlier rl [] lo
              eq_refl) with (n := now) as (Hagree & HW & HM); try assumption.
  { intros n _. unfold record. now rewrite Hnone. }
  rewrite isAllowed_unfold. unfold recent_of.
  fold (record ident (snd (isAllowed_seq earlier ident rl))).
  rewrite HW, HM, Hagree. cbn [app].
  case_bool_decide; cbn [fst]; split; intros; try assumption;
    try reflexivity; try discriminate; contradiction.
Qed.

Lemma allowed_iff_room_in_window_witness :
  fst (isAllowed 1500 "x"
         (snd (isAllowed_seq [0; 400; 900] "x" (new 2 1000)))) = true
  <-> Z.of_nat (List.length
                  (filter (fun t => 1500 - t < timeWindow (new 2 1000))
                          (allowed_times [0; 400; 900] "x" (new 2 1000))))
      < maxRequests (new 2 1000).
Proof.
  apply (allowed_iff_room_in_window [0; 400; 900] 1500 "x" (new 2 1000)).
  - reflexivity.
  - repeat constructor; lia.
Defined.

End LimiterRunFacts.

(** ** Tokens, keys and signatures *)

Section GuardFacts.
Import JsString Json Express Buffer NodeCrypto Guards Detector.

Lemma toHex_nonempty bs : bs <> [] -> toHex bs <> "".
Proof.
  destruct bs as [|b bs]; [congruence|]. intros _.
  cbn [toHex]. unfold hex_of_byte. cbn [String.append]. discriminate.
Qed.

Lemma includes_string_In l s : includes_string l s = true <-> In s l.
Proof.
  unfold includes_string. rewrite existsb_exists. split.
  - intros (x & Hin & Heq). apply String.eqb_eq in Heq. now subst.
  - intros Hin. exists s. split; [exact Hin|apply String.eqb_refl].
Qed.

(** X5.  The token [generateCSRFToken] stores in the session is the one
    [verifyCSRFToken] accepts: a request presenting it in the
    [x-csrf-token] header goes on, whatever its method and body, and a
    request with an unsafe method presenting any other token is answered
    403 with the request id. *)
Theorem csrf_round_trip (random : list byte) (session : Session) :
  List.length random = 32%nat ->
  exists session' token,
    generateCSRFToken random (Some session) = Issued session' token /\
    (forall body req,
       get "x-csrf-token" req = Some token ->
       verifyCSRFToken (Some session') body req = Ret Next) /\
    (forall body req presented,
       includes_string ["GET"; "HEAD"; "OPTIONS"] (method req) = false ->
       get "x-csrf-token" req = Some presented ->
       presented <> "" -> presented <> token ->
       verifyCSRFToken (Some session') body req
       = Ret (refuse 403 "Invalid CSRF token" req)).
Proof.
  intros Hlen. exists (mkSession (Some (toHex random))), (toHex random).
  assert (Htok : toHex random <> "").
  { apply toHex_nonempty. intros ->. discriminate Hlen. }
  split; [reflexivity|]. split.
  - intros body req Hget. unfold verifyCSRFToken, csrf_candidate.
    destruct (includes_string _ (method req)); [reflexivity|].
    rewrite Hget. destruct (toHex random) as [|a r] eqn:Ht; [congruence|].
    cbn. rewrite Ascii.eqb_refl, String.eqb_refl. reflexivity.
  - intros body req presented Hm Hget Hne Hother.
    unfold verifyCSRFToken, csrf_candidate. rewrite Hm, Hget.
    destruct presented as [|a r]; [congruence|].
    cbn [exc_bind mbind option_bind csrfToken from_option truthy].
    destruct (String.eqb_spec (String a r) (toHex random)) as [E|_];
      [contradiction|].
    destruct (String.eqb_spec (String a r) ""); reflexivity.
Qed.

Lemma csrf_round_trip_witness :
  exists session' token,
    generateCSRFToken (repeat Byte.x2a 32) (Some (mkSession None))
    = Issued session' token /\
    (forall body req,
       get "x-csrf-token" req = Some token ->
       verifyCSRFToken (Some session') body req = Ret Next) /\
    (forall body req presented,
       includes_string ["GET"; "HEAD"; "OPTIONS"] (method req) = false ->
       get "x-csrf-token" req = Some presented ->
       presented <> "" -> presented <> token ->
       verifyCSRFToken (Some session') body req
       = Ret (refuse 403 "Invalid CSRF token" req)).
Proof.
  apply (csrf_round_trip (repeat Byte.x2a 32) (mkSession None)).
  reflexivity.
Defined.

(** X6.  Without a token in the session, [verifyCSRFToken] lets no
    request with an unsafe method through, whatever its header and
    body. *)
Theorem csrf_needs_session_token (session : option Session)
    (body : option value) (req : Request) :
  session ≫= csrfToken = None ->
  includes_string ["GET"; "HEAD"; "OPTIONS"] (method req) = false ->
  verifyCSRFToken session body req <> Ret Next.
Proof.
  intros Hnone Hm. unfold verifyCSRFToken. rewrite Hm, Hnone.
  destruct (csrf_candidate body req) as [[v|]|e]; cbn [exc_bind from_option].
  - destruct v; cbn [negb orb]; rewrite ?orb_true_r; discriminate.
  - cbn. discriminate.
  - discriminate.
Qed.

Lemma csrf_needs_session_token_witness :
  verifyCSRFToken None (Some (VObject [("_csrf", VString "guess")]))
    (mkRequest None "POST" "/api/users" [("x-csrf-token", "guess")])
  <> Ret Next.
Proof.
  apply csrf_needs_session_token; reflexivity.
Defined.

Lemma split_plain c s : mentions c s = false -> split c s = [s].
Proof.
  induction s as [|a s IH]; cbn [mentions split]; intros H; [reflexivity|].
  apply orb_false_iff in H as [Ha Hs]. rewrite Ha, (IH Hs). reflexivity.
Qed.

Lemma split_app c h rest :
  mentions c h = false ->
  split c (h +:+ String c rest) = h :: split c rest.
Proof.
  induction h as [|a h IH]; cbn [mentions]; intros H.
  - change ("" +:+ String c rest) with (String c rest).
    cbn [split]. now rewrite Ascii.eqb_refl.
  - change (String a h +:+ String c rest)
      with (String a (h +:+ String c rest)).
    apply orb_false_iff in H as [Ha Hh].
    cbn [split]. rewrite Ha, (IH Hh). reflexivity.
Qed.

(** Splitting a list joined with commas gives the list back, when no
    entry has a comma. *)
Lemma split_concat (keys : list string) :
  keys <> [] ->
  Forall (fun k => mentions "," k = false) keys ->
  split "," (String.concat "," keys) = keys.
Proof.
  induction keys as [|k keys IH]; [congruence|]. intros _ Hall.
  apply Forall_cons in Hall as [Hk Hall].
  destruct keys as [|k' keys].
  - cbn [String.concat]. now apply split_plain.
  - change (String.concat "," (k :: k' :: keys))
      with (k +:+ String "," (String.concat "," (k' :: keys))).
    rewrite split_app by exact Hk. f_equal. apply IH; [discriminate|exact Hall].
Qed.

(** X7.  With [API_KEYS] set to keys joined by commas, [validateApiKey]
    lets a request through exactly when its [x-api-key] header is one of
    the keys and is not empty; with [API_KEYS] unset it lets none
    through. *)
Theorem validateApiKey_configured (keys : list string) (req : Request) :
  keys <> [] ->
  Forall (fun k => mentions "," k = false) keys ->
  (validateApiKey (Some (String.concat "," keys)) req = Next
   <-> exists k, get "x-api-key" req = Some k /\ k <> "" /\ In k keys)
  /\ validateApiKey None req <> Next.
Proof.
  intros Hne Hall. unfold validateApiKey. rewrite split_concat by assumption.
  split.
  - destruct (get "x-api-key" req) as [[|a k]|].
    + split; [discriminate|]. intros (k & [= <-] & Hk & _). congruence.
    + destruct (includes_string keys (String a k)) eqn:Hin; cbn [negb].
      * split; [|reflexivity]. intros _. exists (String a k).
        split; [reflexivity|]. split; [discriminate|].
        now apply includes_string_In.
      * split; [discriminate|]. intros (k' & [= <-] & _ & Hk).
        apply includes_string_In in Hk. congruence.
    + split; [discriminate|]. intros (k & Hk & _). discriminate.
  - destruct (get "x-api-key" req) as [[|a k]|]; discriminate.
Qed.

Lemma validateApiKey_configured_witness :
  (validateApiKey (Some (String.concat "," ["alpha"; "beta"]))
     (mkRequest None "GET" "/api/users" [("x-api-key", "beta")]) = Next
   <-> exists k,
         get "x-api-key"
             (mkRequest None "GET" "/api/users" [("x-api-key", "beta")])
         = Some k /\ k <> "" /\ In k ["alpha"; "beta"])
  /\ validateApiKey None
       (mkRequest None "GET" "/api/users" [("x-api-key", "beta")]) <> Next.
Proof.
  apply (validateApiKey_configured ["alpha"; "beta"]).
  - discriminate.
  - repeat constructor.
Defined.

(** X8.  [validateTimestamp] lets every request through whose
    [x-timestamp] header does not begin with a number, at every clock
    reading and for every maximal age: the age is then not a number and
    neither comparison holds.  A header that begins with the number [n] is
    let through exactly when [n] is at most [maxAgeSeconds] seconds old
    and not in the future. *)
Theorem validateTimestamp_verdict (maxAgeSeconds now : Z) (req : Request)
    (timestamp : string) :
  get "x-timestamp" req = Some timestamp ->
  timestamp <> "" ->
  (parseInt timestamp = None -> validateTimestamp maxAgeSeconds now req = Next)
  /\ (forall n, parseInt timestamp = Some n ->
        (validateTimestamp maxAgeSeconds now req = Next
         <-> 0 <= now / 1000 - n <= maxAgeSeconds)).
Proof.
  intros Hget Hne. unfold validateTimestamp. rewrite Hget.
  destruct timestamp as [|a r]; [congruence|]. split.
  - intros ->. reflexivity.
  - intros n ->. cbn zeta.
    destruct (Z.gtb_spec (now / 1000 - n) maxAgeSeconds);
      destruct (Z.ltb_spec (now / 1000 - n) 0); cbn [orb];
      split; try discriminate; try reflexivity; intros; lia.
Qed.

Lemma validateTimestamp_verdict_witness :
  (parseInt "never" = None ->
   validateTimestamp 300 1700000000000
     (mkRequest None "POST" "/api/pay" [("x-timestamp", "never")]) = Next)
  /\ (forall n, parseInt "never" = Some n ->
        (validateTimestamp 300 1700000000000
           (mkRequest None "POST" "/api/pay" [("x-timestamp", "never")]) = Next
         <-> 0 <= 1700000000000 / 1000 - n <= 300)).
Proof.
  apply (validateTimestamp_verdict 300 1700000000000
           (mkRequest None "POST" "/api/pay" [("x-timestamp", "never")])
           "never").
  - reflexivity.
  - discriminate.
Defined.

(** X9.  The signature middleware and [SecretsManager.verifySignature]
    agree on what is valid, and differ on the rest: where the secrets
    manager answers [true] the middleware lets the request through, and
    where it answers [false] or throws on a signature of another length
    the middleware answers 401 with the request id; it does not throw. *)
Theorem signature_middleware_agrees (P : Primitives) (secret text : string)
    (req : Request) (signature : string) :
  get "x-signature" req = Some signature ->
  signature <> "" ->
  Guards.verifySignature P secret (Some text) req
  = match SecretsManager.verifySignature P (Some text) signature secret with
    | Ret true => Ret Next
    | Ret false | Throw _ => Ret (refuse 401 "Invalid signature" req)
    end.
Proof.
  intros Hget Hne. unfold Guards.verifySignature, SecretsManager.verifySignature,
    SecretsManager.sign, timingSafeEqual.
  rewrite Hget. destruct signature as [|a r]; [congruence|].
  cbn [exc_bind].
  set (expected := toHex (hmac P "sha256" (from secret) (from text))).
  destruct (String.eqb_spec (String a r) expected) as [->|Hother]; cbn [negb].
  - rewrite !bool_decide_eq_true_2 by reflexivity. reflexivity.
  - case_bool_decide; [|reflexivity].
    rewrite bool_decide_eq_false_2; [reflexivity|].
    intros Heq. apply Hother. now apply from_inj.
Qed.

Lemma signature_middleware_agrees_witness :
  Guards.verifySignature toy "s3cret" (Some "{}")
    (mkRequest None "POST" "/hook" [("x-signature", "7b")])
  = match SecretsManager.verifySignature toy (Some "{}") "7b" "s3cret" with
    | Ret true => Ret Next
    | Ret false | Throw _ =>
        Ret (refuse 401 "Invalid signature"
               (mkRequest None "POST" "/hook" [("x-signature", "7b")]))
    end.
Proof.
  apply (signature_middleware_agrees toy "s3cret" "{}"
           (mkRequest None "POST" "/hook" [("x-signature", "7b")]) "7b").
  - reflexivity.
  - discriminate.
Defined.

End GuardFacts.

(** ** The detector of suspicious input *)

Section DetectorFacts.
Import JsString Json Express Sanitizer Guards Detector.

Lemma jsval_ind_nested (P : jsval -> Prop) :
  (forall s, P (JString s)) ->
  (forall x, P (JNumber x)) ->
  (forall b, P (JBoolean b)) ->
  P JNull ->
  (forall proto own, Forall (fun kv => P (snd kv)) own -> P (JObject proto own)) ->
  (forall items, Forall P items -> P (JArray items)) ->
  forall v, P v.
Proof.
  intros Hs Hn Hb Hnull Ho Ha.
  fix IH 1.
  intros [s|x|b| |proto own|items].
  - apply Hs.
  - apply Hn.
  - apply Hb.
  - apply Hnull.
  - apply Ho. induction own as [|[k v] own IHo]; constructor.
    + apply IH.
    + exact IHo.
  - apply Ha. induction items as [|v items IHi]; constructor.
    + apply IH.
    + exact IHi.
Qed.

Lemma leaf_flagged s v :
  leaf s v -> suspicious s = true -> checkInput v = true.
Proof.
  intros Hleaf Hs. induction Hleaf as [|proto own k v Hin _ IH|items v Hin _ IH];
    cbn [checkInput].
  - exact Hs.
  - apply existsb_exists. exists (k, v). split; [exact Hin|exact IH].
  - apply existsb_exists. exists v. split; [exact Hin|exact IH].
Qed.

Lemma flagged_leaf v :
  checkInput v = true -> exists s, leaf s v /\ suspicious s = true.
Proof.
  induction v as [s|x|b| |proto own IH|items IH] using jsval_ind_nested;
    cbn [checkInput]; intros H; try discriminate.
  - exists s. split; [constructor|exact H].
  - apply existsb_exists in H as ([k v] & Hin & Hv).
    rewrite List.Forall_forall in IH.
    destruct (IH _ Hin Hv) as (s & Hleaf & Hs).
    exists s. split; [|exact Hs]. now apply (leaf_own s proto own k v).
  - apply existsb_exists in H as (v & Hin & Hv).
    rewrite List.Forall_forall in IH.
    destruct (IH _ Hin Hv) as (s & Hleaf & Hs).
    exists s. split; [|exact Hs]. now apply (leaf_item s items v).
Qed.

Lemma detect_next payload req :
  detectSuspiciousActivity payload req = Next
  <-> from_option checkInput false (query payload) = false
      /\ from_option checkInput false (body payload) = false
      /\ from_option checkInput false (params payload) = false.
Proof.
  unfold detectSuspiciousActivity, refuse.
  destruct (from_option checkInput false (query payload));
    destruct (from_option checkInput false (body payload));
    destruct (from_option checkInput false (params payload));
    cbn [orb]; split; try discriminate; try tauto;
    intros (? & ? & ?); discriminate.
Qed.

(** X10.  [detectSuspiciousActivity] lets a request through exactly when
    no string that is an own property or an item, at any depth, of its
    query, body or parameters matches one of the four patterns; every
    other request is answered 400 with the request id. *)
Theorem detect_verdict (payload : Payload jsval) (req : Request) :
  (detectSuspiciousActivity payload req = Next
   <-> forall v s,
         In (Some v) [query payload; body payload; params payload] ->
         leaf s v -> suspicious s = false)
  /\ (detectSuspiciousActivity payload req = Next
      \/ detectSuspiciousActivity payload req
         = refuse 400 "Invalid request detected" req).
Proof.
  split.
  - rewrite detect_next. split.
    + intros (Hq & Hb & Hp) v s Hin Hleaf.
      destruct (suspicious s) eqn:Hs; [|reflexivity].
      pose proof (leaf_flagged s v Hleaf Hs) as Hv.
      cbn [In] in Hin. destruct Hin as [E|[E|[E|[]]]];
        [rewrite E in Hq|rewrite E in Hb|rewrite E in Hp];
        cbn [from_option] in *; congruence.
    + intros Hall.
      assert (Hone : forall x,
                In x [query payload; body payload; params payload] ->
                from_option checkInput false x = false).
      { intros [v|] Hin; [|reflexivity]. cbn [from_option].
        destruct (checkInput v) eqn:Hv; [|reflexivity].
        destruct (flagged_leaf v Hv) as (s & Hleaf & Hs).
        rewrite (Hall v s Hin Hleaf) in Hs. discriminate. }
      repeat split; apply Hone; cbn [In]; auto.
  - unfold detectSuspiciousActivity.
    destruct (_ || _ || _); [right|left]; reflexivity.
Qed.

Lemma detect_verdict_witness :
  (detectSuspiciousActivity
     (mkPayload (Some (JObject None [("file", JString "../../etc/passwd")]))
                None None)
     (mkRequest (Some "r-2") "POST" "/api/files" []) = Next
   <-> forall v s,
         In (Some v)
            [query (mkPayload
                      (Some (JObject None [("file", JString "../../etc/passwd")]))
                      None None);
             body (mkPayload
                     (Some (JObject None [("file", JString "../../etc/passwd")]))
                     None None);
             params (mkPayload
                       (Some (JObject None [("file", JString "../../etc/passwd")]))
                       None None)] ->
         leaf s v -> suspicious s = false)
  /\ (detectSuspiciousActivity
        (mkPayload (Some (JObject None [("file", JString "../../etc/passwd")]))
                   None None)
        (mkRequest (Some "r-2") "POST" "/api/files" []) = Next
      \/ detectSuspiciousActivity
           (mkPayload (Some (JObject None [("file", JString "../../etc/passwd")]))
                      None None)
           (mkRequest (Some "r-2") "POST" "/api/files" [])
         = refuse 400 "Invalid request detected"
             (mkRequest (Some "r-2") "POST" "/api/files" [])).
Proof.
  exact (detect_verdict
           (mkPayload (Some (JObject None [("file", JString "../../etc/passwd")]))
                      None None)
           (mkRequest (Some "r-2") "POST" "/api/files" [])).
Defined.

Lemma strip_prefix_ci_mentions c p : forall s r,
  strip_prefix_ci p s = Some r -> mentions c r = true -> mentions c s = true.
Proof.
  induction p as [|a p IH]; intros s r; cbn [strip_prefix_ci].
  - intros [= ->]. auto.
  - destruct s as [|b s]; [discriminate|].
    destruct (eqb_ci a b); [|discriminate]. intros H Hr.
    cbn [mentions]. rewrite (IH _ _ H Hr). apply orb_true_r.
Qed.

Lemma eqb_ci_symbol (a b : ascii) :
  is_word a = false -> eqb_ci a b = true -> Ascii.eqb b a = true.
Proof.
  destruct a as [[] [] [] [] [] [] [] []]; try discriminate; intros _;
    destruct b as [[] [] [] [] [] [] [] []]; vm_compute; congruence.
Qed.

Lemma strip_prefix_ci_head a p s r :
  is_word a = false ->
  strip_prefix_ci (String a p) s = Some r -> mentions a s = true.
Proof.
  intros Ha. cbn [strip_prefix_ci]. destruct s as [|b s]; [discriminate|].
  destruct (eqb_ci a b) eqn:E; [|discriminate]. intros _.
  cbn [mentions]. now rewrite (eqb_ci_symbol a b Ha E).
Qed.

Lemma after_ci_head a p s r :
  is_word a = false -> after_ci (String a p) s = Some r -> mentions a s = true.
Proof.
  intros Ha. induction s as [|b s IH]; intros H.
  - cbn in H. discriminate.
  - cbn [after_ci] in H.
    destruct (strip_prefix_ci (String a p) (String b s)) as [r'|] eqn:E.
    + now apply (strip_prefix_ci_head a p _ r').
    + cbn [mentions]. rewrite (IH H). apply orb_true_r.
Qed.

Lemma on_line_mentions c target :
  (forall s, target s = true -> mentions c s = true) ->
  forall s, on_line target s = true -> mentions c s = true.
Proof.
  intros Ht. induction s as [|a s IH]; cbn [on_line]; intros H.
  - rewrite orb_false_r in H. now apply Ht.
  - apply orb_true_iff in H as [H|H]; [now apply Ht|].
    destruct (line_terminator (String a s)); [discriminate|].
    cbn [mentions]. rewrite (IH H). apply orb_true_r.
Qed.

Lemma starts_with_mentions a s :
  starts_with (String a EmptyString) s = true -> mentions a s = true.
Proof.
  unfold starts_with. cbn [strip_prefix]. destruct s as [|b s]; [discriminate|].
  destruct (Ascii.eqb_spec a b) as [->|]; [|discriminate]. intros _.
  cbn [mentions]. now rewrite Ascii.eqb_refl.
Qed.

Lemma sql_from_sign s : forall b,
  sql_from b s = true -> mentions "=" s = true.
Proof.
  induction s as [|a s IH]; intros b; cbn [sql_from]; intros H.
  - rewrite orb_false_r in H. apply andb_true_iff in H as [_ H].
    cbn in H. discriminate.
  - apply orb_true_iff in H as [H|H].
    + apply andb_true_iff in H as [_ H]. unfold sql_here, word in H.
      apply orb_true_iff in H as [H|H];
        match type of H with
        | context [strip_prefix_ci ?w ?t] =>
            destruct (strip_prefix_ci w t) as [r|] eqn:E; [|discriminate];
            destruct (word_boundary_after_word r); [|discriminate];
            apply (strip_prefix_ci_mentions _ _ _ _ E);
            apply (on_line_mentions "=" _ (starts_with_mentions "=") _ H)
        end.
    + cbn [mentions]. rewrite (IH _ H). apply orb_true_r.
Qed.

Lemma sql_injection_sign s : sql_injection s = true -> mentions "=" s = true.
Proof. apply sql_from_sign. Qed.

Lemma xss_bracket s : xss s = true -> mentions "<" s = true.
Proof.
  unfold xss. destruct (after_ci "<script" s) as [r|] eqn:E; [|discriminate].
  intros _. now apply (after_ci_head "<" "script" s r).
Qed.

Lemma includes_mentions a p : forall s,
  includes s (String a p) = true -> mentions a s = true.
Proof.
  induction s as [|b s IH]; cbn [includes strip_prefix]; [discriminate|].
  cbn [mentions]. destruct (Ascii.eqb_spec a b) as [->|].
  - intros _. now rewrite Ascii.eqb_refl.
  - intros H. rewrite (IH H). apply orb_true_r.
Qed.

Lemma path_traversal_dot s : path_traversal s = true -> mentions "." s = true.
Proof.
  unfold path_traversal. intros H.
  apply orb_true_iff in H as [H|H]; now apply includes_mentions in H.
Qed.

Lemma command_injection_semicolon s :
  command_injection s = true -> mentions ";" s = true.
Proof.
  induction s as [|a s IH]; cbn [command_injection mentions]; [discriminate|].
  intros H. apply orb_true_iff in H as [H|H].
  - apply andb_true_iff in H as [H _]. now rewrite H.
  - rewrite (IH H). apply orb_true_r.
Qed.

Lemma plain_not_suspicious s : plain s -> suspicious s = false.
Proof.
  intros (H1 & H2 & H3 & H4). unfold suspicious.
  destruct (sql_injection s) eqn:E1;
    [apply sql_injection_sign in E1; congruence|].
  destruct (xss s) eqn:E2; [apply xss_bracket in E2; congruence|].
  destruct (path_traversal s) eqn:E3;
    [apply path_traversal_dot in E3; congruence|].
  destruct (command_injection s) eqn:E4;
    [apply command_injection_semicolon in E4; congruence|].
  reflexivity.
Qed.

(** X11.  No false alarm on plain text: a request whose strings, at
    every depth of query, body and parameters, have none of the
    characters [=], [<], [.] and [;] is let through. *)
Theorem plain_request_passes (payload : Payload jsval) (req : Request) :
  (forall v s,
     In (Some v) [query payload; body payload; params payload] ->
     leaf s v -> plain s) ->
  detectSuspiciousActivity payload req = Next.
Proof.
  intros Hplain. apply detect_next.
  assert (Hone : forall x,
            In x [query payload; body payload; params payload] ->
            from_option checkInput false x = false).
  { intros [v|] Hin; [|reflexivity]. cbn [from_option].
    destruct (checkInput v) eqn:Hv; [|reflexivity].
    destruct (flagged_leaf v Hv) as (s & Hleaf & Hs).
    rewrite (plain_not_suspicious s (Hplain v s Hin Hleaf)) in Hs.
    discriminate. }
  repeat split; apply Hone; cbn [In]; auto.
Qed.

Lemma plain_request_passes_witness :
  detectSuspiciousActivity
    (mkPayload
       (Some (JObject None [("name", JString "Ada Lovelace");
                            ("tags", JArray [JString "a+b"; JNull])]))
       None None)
    (mkRequest (Some "r-1") "POST" "/api/users" [])
  = Next.
Proof.
  apply plain_request_passes. intros v s Hin Hleaf.
  cbn [In body query params] in Hin.
  destruct Hin as [E|[E|[E|[]]]]; try discriminate E. injection E as <-.
  repeat match goal with
         | H : leaf _ (JString _) |- _ => inversion H; subst; clear H
         | H : leaf _ (JObject _ _) |- _ => inversion H; subst; clear H
         | H : leaf _ (JArray _) |- _ => inversion H; subst; clear H
         | H : leaf _ JNull |- _ => inversion H
         | H : In _ (_ :: _) |- _ => destruct H as [H|H]
         | H : In _ [] |- _ => destruct H
         | H : (_, _) = (_, _) |- _ => injection H as <- <-
         | H : _ = _ :> jsval |- _ => subst
         end;
    repeat split; reflexivity.
Defined.

(** The own properties [sanitize] builds do not depend on the prototype
    it started from. *)
Lemma fold_assign_own (f : string * value -> jsval) fields : forall own,
  exists own', forall proto, exists proto',
    fold_left (fun o kv => assign o (fst kv) (f kv)) fields (JObject proto own)
    = JObject proto' own'.
Proof.
  induction fields as [|kv fields IH]; intros own.
  - exists own. intros proto. exists proto. reflexivity.
  - destruct (IH (if String.eqb (fst kv) "__proto__" then own
                  else set_own (fst kv) (f kv) own)) as [own' Hown'].
    exists own'. intros proto. cbn [fold_left]. unfold assign at 2.
    destruct (String.eqb (fst kv) "__proto__"); [|apply Hown'].
    destruct (f kv); apply Hown'.
Qed.

(** X12.  What a body carries under a key named [__proto__] is out of
    the detector's sight once [sanitizeInput] has run: the verdict on the
    sanitized body is the verdict on the body without that entry,
    whatever the entry holds. *)
Theorem detector_blind_to_proto (before after : list (string * value))
    (hidden : value) :
  checkInput (sanitize (VObject (before ++ ("__proto__", hidden) :: after)))
  = checkInput (sanitize (VObject (before ++ after))).
Proof.
  rewrite !sanitize_object, !fold_left_app. cbn [fold_left fst snd].
  set (f := fun kv : string * value => sanitize_property (snd kv)).
  change (fun sanitized kv => assign sanitized (fst kv) (sanitize_property (snd kv)))
    with (fun o kv => assign o (fst kv) (f kv)).
  destruct (fold_assign_own f before []) as [own Hown].
  destruct (Hown None) as [proto ->].
  destruct (fold_assign_own f after own) as [own' Hown'].
  destruct (Hown' proto) as [proto1 ->].
  assert (Hstep : exists proto2,
            assign (JObject proto own) "__proto__" (sanitize_property hidden)
            = JObject proto2 own).
  { unfold assign. cbn [String.eqb Ascii.eqb Bool.eqb].
    destruct (sanitize_property hidden); eauto. }
  destruct Hstep as [proto2 ->].
  destruct (Hown' proto2) as [proto3 ->].
  reflexivity.
Qed.

Lemma skip_word_mentions c s :
  mentions c (skip_word s) = true -> mentions c s = true.
Proof.
  induction s as [|a s IH]; cbn [skip_word]; [auto|].
  destruct (is_word a); [|auto]. intros H. cbn [mentions].
  rewrite (IH H). apply orb_true_r.
Qed.

Lemma skip_ws_mentions c : forall n s,
  (String.length s <= n)%nat ->
  mentions c (skip_ws s) = true -> mentions c s = true.
Proof.
  induction n as [|n IH]; intros s Hn.
  - destruct s; [auto|cbn in Hn; lia].
  - destruct s as [|a1 r1]; [auto|]. cbn [skip_ws].
    cbn [String.length] in Hn.
    destruct (is_ws1 a1).
    { intros H. cbn [mentions]. rewrite (IH r1) by (auto; lia).
      apply orb_true_r. }
    destruct r1 as [|a2 r2]; [auto|]. cbn [String.length] in Hn.
    destruct (is_ws2 a1 a2).
    { intros H. cbn [mentions]. rewrite (IH r2) by (auto; lia).
      now rewrite !orb_true_r. }
    destruct r2 as [|a3 r3]; [auto|]. cbn [String.length] in Hn.
    destruct (is_ws3 a1 a2 a3); [|auto].
    intros H. cbn [mentions]. rewrite (IH r3) by (auto; lia).
    now rewrite !orb_true_r.
Qed.

Lemma remove_all_untouched (m : string -> option nat) c :
  (forall s, mentions c s = false -> m s = None) ->
  forall s, mentions c s = false -> remove_all m 0 s = s.
Proof.
  intros Hm. induction s as [|a s IH]; [reflexivity|]. intros H.
  cbn [remove_all]. rewrite (Hm _ H).
  cbn [mentions] in H. apply orb_false_iff in H as [_ H].
  now rewrite (IH H).
Qed.

Lemma match_script_bracket s :
  mentions "<" s = false -> match_script s = None.
Proof.
  intros H. unfold match_script.
  destruct (strip_prefix_ci "<script" s) as [r|] eqn:E; [|reflexivity].
  apply (strip_prefix_ci_head "<" "script") in E; [congruence|reflexivity].
Qed.

Lemma strip_prefix_ci_inner c p q : forall s r,
  strip_prefix_ci (p +:+ String c q) s = Some r ->
  is_word c = false -> mentions c s = true.
Proof.
  induction p as [|a p IH]; intros s r H Hc.
  - now apply (strip_prefix_ci_head c q s r).
  - change (String a p +:+ String c q) with (String a (p +:+ String c q)) in H.
    cbn [strip_prefix_ci] in H. destruct s as [|b s]; [discriminate|].
    destruct (eqb_ci a b); [|discriminate].
    cbn [mentions]. rewrite (IH _ _ H Hc). apply orb_true_r.
Qed.

Lemma match_javascript_colon s :
  mentions ":" s = false -> match_javascript s = None.
Proof.
  intros H. unfold match_javascript.
  destruct (strip_prefix_ci "javascript:" s) as [r|] eqn:E; [|reflexivity].
  apply (strip_prefix_ci_inner ":" "javascript" "") in E;
    [congruence|reflexivity].
Qed.

Lemma match_on_handler_sign s :
  mentions "=" s = false -> match_on_handler s = None.
Proof.
  intros H. unfold match_on_handler.
  destruct (strip_prefix_ci "on" s) as [r|] eqn:E; [|reflexivity].
  destruct r as [|a r]; [reflexivity|].
  destruct (is_word a); [|reflexivity].
  destruct (skip_ws (skip_word (String a r))) as [|e rest] eqn:Es;
    [reflexivity|].
  destruct (Ascii.eqb_spec e "=") as [->|]; [|reflexivity].
  exfalso.
  assert (Hr : mentions "=" (String a r) = true).
  { apply skip_word_mentions.
    apply (skip_ws_mentions "=" (String.length (skip_word (String a r))));
      [lia|].
    rewrite Es. reflexivity. }
  rewrite (strip_prefix_ci_mentions "=" "on" s _ E Hr) in H. discriminate.
Qed.

(** X13.  The sanitizer leaves ordinary text alone: on a string with
    none of the characters [<], [:] and [=] the three replacements remove
    nothing, and the result is the string trimmed. *)
Theorem cleanString_plain (value : string) :
  mentions "<" value = false ->
  mentions ":" value = false ->
  mentions "=" value = false ->
  cleanString value = trim value.
Proof.
  intros H1 H2 H3. unfold cleanString.
  rewrite (remove_all_untouched match_script "<" match_script_bracket) by exact H1.
  rewrite (remove_all_untouched match_javascript ":" match_javascript_colon)
    by exact H2.
  rewrite (remove_all_untouched match_on_handler "=" match_on_handler_sign)
    by exact H3.
  reflexivity.
Qed.

Lemma cleanString_plain_witness :
  cleanString "  on the road, at 5 pm  " = trim "  on the road, at 5 pm  ".
Proof.
  apply cleanString_plain; reflexivity.
Defined.

End DetectorFacts.

(** ** The CORS origin check *)

Section SecurityFacts.
Import JsString Json Express App Guards Detector Security.

(** X14.  With [config.cors.origin] a list of origins joined by commas,
    a request that names its origin is allowed exactly when the origin is
    one of the entries, trimmed, or one of the entries is [*]; every other
    origin ends, in every environment, as the response 403 [CORS policy:
    Access denied] of the error handler, with the request id and without
    the stack of the error. *)
Theorem cors_verdict (entries : list string) (origin : string)
    (stack : option string) (env : string) (req : Request) :
  entries <> [] ->
  Forall (fun e => mentions "," e = false) entries ->
  origin <> "" ->
  match corsOriginHandler stack (String.concat "," entries) (Some origin) with
  | Ret allow =>
      allow = true
      /\ (In origin (map trim entries) \/ In "*" (map trim entries))
  | Throw err =>
      ~ In origin (map trim entries) /\ ~ In "*" (map trim entries)
      /\ errorHandler env err req
         = failure 403 "CORS policy: Access denied" [] req
  end.
Proof.
  intros Hne Hall Horigin. unfold corsOriginHandler.
  rewrite split_concat by assumption.
  destruct origin as [|a r]; [congruence|].
  destruct (includes_string (map trim entries) (String a r)) eqn:E1.
  { cbn [orb]. split; [reflexivity|]. left. now apply includes_string_In. }
  destruct (includes_string (map trim entries) "*") eqn:E2.
  { cbn [orb]. split; [reflexivity|]. right. now apply includes_string_In. }
  cbn [orb]. split; [|split].
  - intros Hin. apply includes_string_In in Hin. congruence.
  - intros Hin. apply includes_string_In in Hin. congruence.
  - reflexivity.
Qed.

Lemma cors_verdict_witness :
  match corsOriginHandler (Some "at cors.js:1")
          (String.concat "," ["https://app.example.org"; " https://admin.example.org"])
          (Some "https://evil.example.net") with
  | Ret allow =>
      allow = true
      /\ (In "https://evil.example.net"
             (map trim ["https://app.example.org"; " https://admin.example.org"])
          \/ In "*" (map trim ["https://app.example.org"; " https://admin.example.org"]))
  | Throw err =>
      ~ In "https://evil.example.net"
          (map trim ["https://app.example.org"; " https://admin.example.org"])
      /\ ~ In "*" (map trim ["https://app.example.org"; " https://admin.example.org"])
      /\ errorHandler "development" err
           (mkRequest (Some "r-7") "GET" "/api/users" [])
         = failure 403 "CORS policy: Access denied" []
             (mkRequest (Some "r-7") "GET" "/api/users" [])
  end.
Proof.
  apply (cors_verdict ["https://app.example.org"; " https://admin.example.org"]
           "https://evil.example.net" (Some "at cors.js:1") "development"
           (mkRequest (Some "r-7") "GET" "/api/users" [])).
  - discriminate.
  - repeat constructor.
  - discriminate.
Defined.

End SecurityFacts.

(** ** The secrets manager: masking, comparison, signatures *)

Section SecretsToolsFacts.
Import JsString Json Buffer NodeCrypto SecretsManager SecretsTools.

Section MaskingFacts.
Variable toLowerCase : string -> string.
Variable fieldsToMask : list string.

Let mask := maskSensitiveData toLowerCase fieldsToMask.
Let mask_property := SecretsTools.mask_property toLowerCase fieldsToMask.
Let hidden := concealed toLowerCase fieldsToMask.
Let entry_ok := SecretsTools.entry_ok toLowerCase fieldsToMask.

Lemma maskSensitiveData_array items :
  mask (VArray items)
  = JArray (mask_items toLowerCase fieldsToMask 0 items).
Proof. reflexivity. Qed.

Lemma concealed_array items :
  hidden (JArray items)
  = concealed_items toLowerCase fieldsToMask 0 items.
Proof. reflexivity. Qed.

Lemma set_own_forallb (Q : string * jsval -> bool) k v own :
  forallb Q own = true -> Q (k, v) = true ->
  forallb Q (set_own k v own) = true.
Proof.
  intros Hown Hkv. induction own as [|[k' v'] own IH]; cbn [set_own forallb].
  - now rewrite Hkv.
  - cbn [forallb] in Hown. apply andb_true_iff in Hown as [H1 H2].
    destruct (String.eqb_spec k' k) as [->|_]; cbn [forallb].
    + now rewrite Hkv, H2.
    + now rewrite H1, (IH H2).
Qed.

Lemma assign_concealed o k v :
  hidden o = true -> entry_ok k v = true -> hidden v = true ->
  hidden (assign o k v) = true.
Proof.
  intros Ho Hk Hv. destruct o as [| | | |proto own|]; try exact Ho.
  unfold assign. unfold hidden in *. cbn [concealed] in Ho.
  apply andb_true_iff in Ho as [Hp Hown].
  destruct (String.eqb k "__proto__").
  - destruct v; cbn [concealed]; rewrite ?Hp, ?Hown; try reflexivity.
    + cbn [concealed] in Hv. now rewrite Hv.
    + cbn [concealed] in Hv. now rewrite Hv.
  - cbn [concealed]. rewrite Hp. cbn [andb].
    apply set_own_forallb; [exact Hown|]. cbn [fst snd].
    fold (entry_ok k v). now rewrite Hk, Hv.
Qed.

Lemma mask_property_ok k v :
  (hidden (mask v) = true) ->
  entry_ok k (mask_property k v) = true /\ hidden (mask_property k v) = true.
Proof.
  intros IH. unfold entry_ok, SecretsTools.entry_ok, mask_property,
    SecretsTools.mask_property.
  destruct (sensitive toLowerCase fieldsToMask k); [split; reflexivity|].
  split; [reflexivity|]. destruct v; first [exact IH | reflexivity].
Qed.

(** X15.  [maskSensitiveData] leaves no sensitive key in the clear: in
    its result, at every depth and in every prototype, a key whose
    lower-case form contains the lower-case form of one of the fields to
    mask holds the mask, whatever the data and the fields. *)
Theorem maskSensitiveData_conceals (data : value) :
  concealed toLowerCase fieldsToMask
    (maskSensitiveData toLowerCase fieldsToMask data) = true.
Proof.
  fold mask hidden.
  induction data as [s|x|b| |fields IH|items IH] using value_ind_nested;
    try reflexivity.
  - change (mask (VObject fields))
      with (fold_left
              (fun masked kv =>
                 assign masked (fst kv) (mask_property (fst kv) (snd kv)))
              fields (JObject None [])).
    assert (Hstart : hidden (JObject None []) = true) by reflexivity.
    revert Hstart. generalize (JObject None []).
    induction fields as [|[k v] fields IHf]; intros acc Hacc; [exact Hacc|].
    apply Forall_cons in IH as [Hv IH]. cbn [fold_left fst snd].
    apply (IHf IH). destruct (mask_property_ok k v Hv) as [H1 H2].
    now apply assign_concealed.
  - rewrite maskSensitiveData_array, concealed_array. generalize O.
    induction items as [|v items IHi]; intros i; [reflexivity|].
    apply Forall_cons in IH as [Hv IH].
    cbn [mask_items concealed_items].
    destruct (mask_property_ok (pretty i) v Hv) as [H1 H2].
    fold mask_property entry_ok hidden. rewrite H1, H2. cbn [andb].
    apply (IHi IH).
Qed.

End MaskingFacts.

Lemma utf16_length_ascii s :
  is_ascii s = true -> utf16_length s = String.length s.
Proof.
  induction s as [|a s IH]; [reflexivity|]. cbn [is_ascii utf16_length].
  intros H. apply andb_true_iff in H as [Ha Hs].
  unfold utf16_units. rewrite Ha, (IH Hs). reflexivity.
Qed.

Lemma length_from s : List.length (from s) = String.length s.
Proof.
  unfold from. induction s as [|a s IH]; [reflexivity|].
  simpl. f_equal. exact IH.
Qed.

(** X16.  [safeCompare] decides equality of ASCII strings and does not
    throw on them.  On two strings with the same number of UTF-16 code
    units and different numbers of UTF-8 bytes it throws: the length it
    checks is not the one [timingSafeEqual] requires. *)
Theorem safeCompare_verdict (a b : string) :
  (is_ascii a = true -> is_ascii b = true ->
   safeCompare a b = Ret (bool_decide (a = b)))
  /\ (utf16_length a = utf16_length b ->
      String.length a <> String.length b ->
      safeCompare a b
      = Throw "RangeError [ERR_CRYPTO_TIMING_SAFE_EQUAL_LENGTH]").
Proof.
  unfold safeCompare. split.
  - intros Ha Hb. rewrite !utf16_length_ascii by assumption.
    destruct (Nat.eqb_spec (String.length a) (String.length b)) as [E|E];
      cbn [negb].
    + unfold timingSafeEqual.
      rewrite bool_decide_eq_true_2 by (now rewrite !length_from).
      f_equal. apply bool_decide_ext. split; [apply from_inj|congruence].
    + rewrite bool_decide_eq_false_2; [reflexivity|congruence].
  - intros Hu Hl. rewrite Hu, Nat.eqb_refl. cbn [negb].
    apply timingSafeEqual_length. now rewrite !length_from.
Qed.

Lemma safeCompare_verdict_witness :
  safeCompare "secret-a" "secret-b" = Ret false
  /\ safeCompare e_acute "e"
     = Throw "RangeError [ERR_CRYPTO_TIMING_SAFE_EQUAL_LENGTH]".
Proof.
  split.
  - apply (proj1 (safeCompare_verdict "secret-a" "secret-b")); reflexivity.
  - apply (proj2 (safeCompare_verdict e_acute "e")).
    + reflexivity.
    + vm_compute. lia.
Defined.

(** X17.  A signature made by [sign] is accepted by [verifySignature]
    under the same secret, and a signature of the same length that
    differs from it is answered [false]. *)
Theorem sign_verifySignature (P : Primitives) (text secret signature : string) :
  sign P (Some text) secret = Ret signature ->
  SecretsManager.verifySignature P (Some text) signature secret = Ret true
  /\ (forall forged,
        String.length forged = String.length signature ->
        forged <> signature ->
        SecretsManager.verifySignature P (Some text) forged secret
        = Ret false).
Proof.
  intros Hsign. unfold SecretsManager.verifySignature. rewrite Hsign.
  cbn [exc_bind]. split.
  - apply timingSafeEqual_same.
  - intros forged Hlen Hne. apply timingSafeEqual_other.
    + now rewrite !length_from.
    + intros H. apply Hne. now apply from_inj.
Qed.

Lemma sign_verifySignature_witness :
  SecretsManager.verifySignature toy (Some "{}") "7b7d" "s3cret" = Ret true
  /\ (forall forged,
        String.length forged = String.length "7b7d" ->
        forged <> "7b7d" ->
        SecretsManager.verifySignature toy (Some "{}") forged "s3cret"
        = Ret false).
Proof.
  apply (sign_verifySignature toy "{}" "s3cret" "7b7d"). reflexivity.
Defined.

Lemma fromHex_app bs tail : fromHex (toHex bs +:+ tail) = bs ++ fromHex tail.
Proof.
  induction bs as [|b bs IH]; [reflexivity|].
  cbn [toHex].
  change ((hex_of_byte b +:+ toHex bs) +:+ tail)
    with (hex_of_byte b +:+ (toHex bs +:+ tail)).
  now rewrite fromHex_hex_of_byte, IH.
Qed.

(** X18.  Only the first 32 bytes of the master key are used: what
    follows the first 64 hexadecimal digits changes neither what
    [encrypt] produces nor what [decrypt] accepts. *)
Theorem master_key_tail_ignored (P : Primitives) (key : list byte)
    (tail : string) :
  List.length key = 32%nat ->
  (forall random text,
     encrypt P (toHex key +:+ tail) random text
     = encrypt P (toHex key) random text)
  /\ (forall encrypted iv authTag,
        decrypt P (toHex key +:+ tail) encrypted iv authTag
        = decrypt P (toHex key) encrypted iv authTag).
Proof.
  intros Hlen.
  assert (Hkey : key_bytes (toHex key +:+ tail) = key_bytes (toHex key)).
  { unfold key_bytes. rewrite fromHex_app, fromHex_toHex.
    rewrite take_app_le by lia. reflexivity. }
  split; intros; unfold encrypt, decrypt; now rewrite Hkey.
Qed.

Lemma master_key_tail_ignored_witness :
  (forall random text,
     encrypt toy (toHex (repeat Byte.x07 32) +:+ "not hex at all") random text
     = encrypt toy (toHex (repeat Byte.x07 32)) random text)
  /\ (forall encrypted iv authTag,
        decrypt toy (toHex (repeat Byte.x07 32) +:+ "not hex at all")
                encrypted iv authTag
        = decrypt toy (toHex (repeat Byte.x07 32)) encrypted iv authTag).
Proof.
  apply (master_key_tail_ignored toy (repeat Byte.x07 32) "not hex at all").
  reflexivity.
Defined.

End SecretsToolsFacts.

(** ** The client's escaping and storage wrapper *)

Section ClientSecurityFacts.
Import Json Buffer ClientCipher Detector ClientSecurity.

Lemma mentions_app d a b :
  mentions d (a +:+ b) = mentions d a || mentions d b.
Proof.
  induction a as [|x a IH]; [reflexivity|].
  change (String x a +:+ b) with (String x (a +:+ b)).
  cbn [mentions]. now rewrite IH, orb_assoc.
Qed.

Lemma replace_char_gone c by_ s :
  mentions c by_ = false -> mentions c (replace_char c by_ s) = false.
Proof.
  intros Hby. induction s as [|a s IH]; [reflexivity|].
  cbn [replace_char]. destruct (Ascii.eqb a c) eqn:E.
  - now rewrite mentions_app, Hby, IH.
  - cbn [mentions]. now rewrite E, IH.
Qed.

Lemma replace_char_absent d c by_ s :
  mentions d by_ = false -> mentions d s = false ->
  mentions d (replace_char c by_ s) = false.
Proof.
  intros Hby. induction s as [|a s IH]; [reflexivity|].
  cbn [replace_char mentions]. intros H.
  apply orb_false_iff in H as [Ha Hs].
  destruct (Ascii.eqb a c).
  - now rewrite mentions_app, Hby, (IH Hs).
  - cbn [mentions]. now rewrite Ha, (IH Hs).
Qed.

Lemma replace_char_same c by_ s :
  mentions c s = false -> replace_char c by_ s = s.
Proof.
  induction s as [|a s IH]; [reflexivity|]. cbn [replace_char mentions].
  intros H. apply orb_false_iff in H as [Ha Hs]. now rewrite Ha, (IH Hs).
Qed.

(** X19.  What the client's [sanitizeInput] returns has no angle
    bracket, no double quote, no apostrophe and no slash, whatever the
    input; and an input with none of these and no ampersand is returned
    as it is. *)
Theorem sanitizeInput_escapes (input : string) :
  Forall (fun c => mentions c (sanitizeInput input) = false)
         ["<"%char; ">"%char; quote; apostrophe; "/"%char]
  /\ (Forall (fun c => mentions c input = false)
             ["&"%char; "<"%char; ">"%char; quote; apostrophe; "/"%char] ->
      sanitizeInput input = input).
Proof.
  unfold sanitizeInput. split.
  - destruct (String.eqb input ""); [repeat constructor|].
    repeat constructor;
      repeat first
        [ apply replace_char_gone; reflexivity
        | apply replace_char_absent; [reflexivity|] ].
  - intros H. destruct (String.eqb_spec input "") as [->|_]; [reflexivity|].
    repeat match goal with
           | H : Forall _ (_ :: _) |- _ => apply Forall_cons in H as [? H]
           end.
    rewrite (replace_char_same "&") by assumption.
    rewrite (replace_char_same "<") by assumption.
    rewrite (replace_char_same ">") by assumption.
    rewrite (replace_char_same quote) by assumption.
    rewrite (replace_char_same apostrophe) by assumption.
    now rewrite (replace_char_same "/") by assumption.
Qed.

Lemma sanitizeInput_escapes_witness :
  Forall (fun c => mentions c (sanitizeInput "<a href='/x'>T&C</a>") = false)
         ["<"%char; ">"%char; quote; apostrophe; "/"%char]
  /\ (Forall (fun c => mentions c "<a href='/x'>T&C</a>" = false)
             ["&"%char; "<"%char; ">"%char; quote; apostrophe; "/"%char] ->
      sanitizeInput "<a href='/x'>T&C</a>" = "<a href='/x'>T&C</a>").
Proof.
  exact (sanitizeInput_escapes "<a href='/x'>T&C</a>").
Defined.

Section SecureStorageFacts.
Variable L : CryptoJS.
Variable ENCRYPTION_KEY : string.
Variable JSON_parse : string -> option value.
Variable JSON_stringify : value -> string.
Variable accepts : string -> string -> bool.

(** X20.  With a cipher that encrypts every text to a text that is not
    empty and decrypts what it encrypted, and a storage that accepts the
    entry, [getItem] after [setItem] gives back what [JSON.parse] makes
    of the stored text and the text itself only where that throws: a
    string that is JSON text comes back as the data it denotes.  Other
    keys read as before. *)
Theorem secureStorage_round_trip (key : string) (value : Stored)
    (sessionStorage : gmap string string) :
  (forall data, exists c bytes,
     c <> "" /\ AES_encrypt L data ENCRYPTION_KEY = Ret c
     /\ AES_decrypt L c ENCRYPTION_KEY = Ret bytes
     /\ Utf8_stringify L bytes = Ret data) ->
  (forall c, accepts key c = true) ->
  let text := match value with
              | Text s => s
              | Other v => JSON_stringify v
              end in
  getItem L ENCRYPTION_KEY JSON_parse key
    (setItem L ENCRYPTION_KEY JSON_stringify accepts key value sessionStorage)
  = match JSON_parse text with
    | Some v => Parsed v
    | None => Raw text
    end
  /\ (forall other,
        other <> key ->
        getItem L ENCRYPTION_KEY JSON_parse other
          (setItem L ENCRYPTION_KEY JSON_stringify accepts key value
                   sessionStorage)
        = getItem L ENCRYPTION_KEY JSON_parse other sessionStorage).
Proof.
  intros Hcipher Haccepts text.
  destruct (Hcipher text) as (c & bytes & Hc & Henc & Hdec & Hutf).
  assert (Hset : setItem L ENCRYPTION_KEY JSON_stringify accepts key value
                         sessionStorage
                 = <[key := c]> sessionStorage).
  { unfold setItem, ClientCipher.encrypt. fold text. rewrite Henc.
    cbn [try_catch]. now rewrite Haccepts. }
  rewrite Hset. split.
  - unfold getItem. rewrite lookup_insert_eq.
    destruct c as [|a c]; [congruence|].
    unfold ClientCipher.decrypt. rewrite Hdec. cbn [exc_bind].
    rewrite Hutf. reflexivity.
  - intros other Hne. unfold getItem.
    now rewrite lookup_insert_ne by congruence.
Qed.

End SecureStorageFacts.

Lemma marking_inverts data :
  exists c bytes,
    c <> "" /\ AES_encrypt marking data "k" = Ret c
    /\ AES_decrypt marking c "k" = Ret bytes
    /\ Utf8_stringify marking bytes = Ret data.
Proof.
  exists ("U2FsdGVk" +:+ data), (from data).
  repeat split; [discriminate|]. cbn [Utf8_stringify marking].
  now rewrite toString_from.
Qed.

Lemma secureStorage_round_trip_witness :
  getItem marking "k" parse_null "access_token"
    (setItem marking "k" (fun _ => "{}") (fun _ _ => true) "access_token"
             (Text "null") ∅)
  = match parse_null "null" with
    | Some v => Parsed v
    | None => Raw "null"
    end
  /\ (forall other,
        other <> "access_token" ->
        getItem marking "k" parse_null other
          (setItem marking "k" (fun _ => "{}") (fun _ _ => true)
                   "access_token" (Text "null") ∅)
        = getItem marking "k" parse_null other ∅).
Proof.
  apply (secureStorage_round_trip marking "k" parse_null (fun _ => "{}")
           (fun _ _ => true) "access_token" (Text "null") ∅).
  - exact marking_inverts.
  - reflexivity.
Defined.

End ClientSecurityFacts.

(** ** The client interceptor: refusals, the default status check, a
    failed refresh *)

Section ApiClientMoreFacts.
Import ApiClient.

(** The request interceptor changes the headers only. *)
Lemma requestInterceptor_config config w config' :
  fst (requestInterceptor config w) = Ret config' ->
  url config' = url config
  /\ validateStatus config' = validateStatus config
  /\ _retry config' = _retry config.
Proof.
  unfold requestInterceptor.
  destruct (RateLimiter.isAllowed _ _ _) as [allowed limiter].
  destruct allowed; cbn [negb]; [|discriminate].
  destruct (present _ && isTokenExpired _ _); [discriminate|].
  destruct (existsb _ _); cbn [fst snd]; intros [= <-];
    destruct (access_token _) as [t|]; try destruct (present _);
    repeat split.
Qed.

(** X21.  A request the request interceptor refuses, because the
    limiter is full or because the stored access token has expired, makes
    no exchange, and what the caller receives is the message for a network
    failure without a status: the interceptor's own message is not
    passed on. *)
Theorem local_refusal_reads_as_network_error (fuel : nat) (config : Config)
    (w : World) (e : Failure) :
  fst (requestInterceptor config w) = Throw e ->
  apiClient (Datatypes.S fuel) config w
  = Some (Rejected (ApiFailure NETWORK None None),
          snd (requestInterceptor config w))
  /\ log (snd (requestInterceptor config w)) = log w.
Proof.
  intros H. split; [|apply requestInterceptor_keeps].
  cbn [apiClient]. destruct (requestInterceptor config w) as [r w1].
  cbn [fst snd] in *. subst r. reflexivity.
Qed.

Lemma local_refusal_reads_as_network_error_witness :
  apiClient 1 plain_request
    (mkWorld 1000000
       (mkStorage (Some "u-17") (Some (mkToken "a0.b0.c0" (ExpiresAt 900)))
                  None None)
       "c5rf" "/admin" (RateLimiter.new 100 60000) [] [])
  = Some (Rejected (ApiFailure NETWORK None None),
          snd (requestInterceptor plain_request
                 (mkWorld 1000000
                    (mkStorage (Some "u-17")
                               (Some (mkToken "a0.b0.c0" (ExpiresAt 900)))
                               None None)
                    "c5rf" "/admin" (RateLimiter.new 100 60000) [] [])))
  /\ log (snd (requestInterceptor plain_request
                 (mkWorld 1000000
                    (mkStorage (Some "u-17")
                               (Some (mkToken "a0.b0.c0" (ExpiresAt 900)))
                               None None)
                    "c5rf" "/admin" (RateLimiter.new 100 60000) [] [])))
     = log (mkWorld 1000000
              (mkStorage (Some "u-17")
                         (Some (mkToken "a0.b0.c0" (ExpiresAt 900)))
                         None None)
              "c5rf" "/admin" (RateLimiter.new 100 60000) [] []).
Proof.
  apply (local_refusal_reads_as_network_error 0 plain_request _
           (LocalError "Token expired")).
  vm_compute. reflexivity.
Defined.

Lemma exchange_reply event w reply rest :
  network w = reply :: rest -> fst (exchange event w) = reply.
Proof. unfold exchange. intros ->. reflexivity. Qed.

(** X22.  With the status check the instance is created with, which
    accepts every status below 500, no call ever refreshes the token: the
    call makes at most one exchange, and a 401 resolves the promise like a
    success. *)
Theorem default_status_check_never_refreshes (fuel : nat) (config : Config)
    (w : World) :
  (forall status, validateStatus config status = default_validateStatus status) ->
  exists out w' events,
    apiClient (Datatypes.S fuel) config w = Some (out, w')
    /\ log w' = events ++ log w
    /\ refreshes events = O /\ (sends events <= 1)%nat
    /\ (forall c latency data rest,
          fst (requestInterceptor config w) = Ret c ->
          network (snd (requestInterceptor config w))
          = Answer latency 401 data :: rest ->
          out = Resolved data).
Proof.
  intros Hdefault. cbn [apiClient].
  destruct (requestInterceptor_keeps config w) as [Hlog _].
  pose proof (requestInterceptor_config config w) as Hcfg.
  destruct (requestInterceptor config w) as [[c|e] w1]; cbn [fst snd] in *.
  - destruct (Hcfg c eq_refl) as (_ & Hv & Hr).
    pose proof (exchange_log (Sent (url c) (_retry c)) w1) as Hex.
    pose proof (exchange_reply (Sent (url c) (_retry c)) w1) as Hreply.
    destruct (exchange (Sent (url c) (_retry c)) w1) as [reply w2].
    cbn [fst snd] in Hex, Hreply.
    assert (Hsent : log w2 = [Sent (url c) (_retry c)] ++ log w)
      by (rewrite Hex, Hlog; reflexivity).
    assert (Hcount : refreshes [Sent (url c) (_retry c)] = O
                     /\ (sends [Sent (url c) (_retry c)] <= 1)%nat)
      by (split; cbn; lia).
    destruct Hcount as [Hc1 Hc2].
    destruct reply as [l|l status data].
    + eexists _, w2, [Sent (url c) (_retry c)].
      split; [reflexivity|]. repeat (split; [assumption|]).
      intros c0 latency data rest _ Hnet.
      specialize (Hreply _ _ Hnet). discriminate.
    + rewrite Hv, Hdefault. unfold default_validateStatus.
      case_bool_decide as Hstatus.
      * eexists _, w2, [Sent (url c) (_retry c)].
        split; [reflexivity|]. repeat (split; [assumption|]).
        intros c0 latency data' rest _ Hnet.
        specialize (Hreply _ _ Hnet). now injection Hreply as _ _ ->.
      * unfold onRejected. cbn [response].
        destruct (Z.eqb_spec status 401) as [->|_]; [lia|].
        destruct (status =? 429);
          (eexists _, w2, [Sent (url c) (_retry c)];
           split; [reflexivity|]; repeat (split; [assumption|]);
           intros c0 latency data' rest _ Hnet;
           specialize (Hreply _ _ Hnet); injection Hreply as _ -> _; lia).
  - exists (Rejected (ApiFailure NETWORK None None)), w1, [].
    split; [reflexivity|]. split; [exact Hlog|].
    split; [reflexivity|]. split; [cbn; lia|].
    intros c0 ? ? ? [=].
Qed.

Lemma default_status_check_never_refreshes_witness :
  exists out w' events,
    apiClient 2 plain_request (session [Answer 40 401 (body "expired")])
    = Some (out, w')
    /\ log w' = events ++ log (session [Answer 40 401 (body "expired")])
    /\ refreshes events = O /\ (sends events <= 1)%nat
    /\ (forall c latency data rest,
          fst (requestInterceptor plain_request
                 (session [Answer 40 401 (body "expired")])) = Ret c ->
          network (snd (requestInterceptor plain_request
                          (session [Answer 40 401 (body "expired")])))
          = Answer latency 401 data :: rest ->
          out = Resolved data).
Proof.
  apply (default_status_check_never_refreshes 1 plain_request
           (session [Answer 40 401 (body "expired")])).
  reflexivity.
Defined.

(** X23.  A refresh that fails ends the session.  When a request that
    is not a replay is answered 401 and rejected, the stored refresh token
    is present and not expired, and the refresh call gets no response or
    one outside 2xx, the call is rejected with the error of the refresh,
    the storage is emptied, the location is an authentication page, and
    nothing is replayed. *)
Theorem failed_refresh_ends_session (fuel : nat) (config c : Config)
    (w : World) (latency : Z) (data : Data) (second : Reply)
    (rest : list Reply) :
  let w1 := snd (requestInterceptor config w) in
  let stored := refresh_token (storage w1) in
  fst (requestInterceptor config w) = Ret c ->
  _retry config = false ->
  validateStatus config 401 = false ->
  network w1 = Answer latency 401 data :: second :: rest ->
  present stored && negb (isTokenExpired (now w1 + latency) stored) = true ->
  match second with
  | Answer _ status _ => axios_validateStatus status = false
  | NoResponse _ => True
  end ->
  exists w',
    apiClient (Datatypes.S fuel) config w
    = Some (Rejected (RefreshError second), w')
    /\ storage w' = cleared
    /\ JsString.includes (pathname w') "/auth" = true
    /\ log w' = [Refresh; Sent (url config) false] ++ log w.
Proof.
  intros w1 stored Hret Hretry Hstatus Hnet Hstored Hsecond.
  destruct (requestInterceptor_keeps config w) as [Hlog _].
  destruct (requestInterceptor_config config w c Hret) as (Hu & Hv & Hr).
  cbn [apiClient]. subst stored w1.
  destruct (requestInterceptor config w) as [r w1]. cbn [fst snd] in *.
  subst r. rewrite Hr, Hretry, Hu.
  unfold exchange at 1. rewrite Hnet. rewrite Hv, Hstatus.
  unfold onRejected.
  cbn [response ApiClient.config Z.eqb Pos.eqb retried _retry storage now
       with_storage].
  rewrite Hr, Hretry. rewrite Hstored.
  unfold exchange. cbn [network log now storage pathname fresh_csrf rateLimiter].
  assert (Hend : forall w2 : World,
            let w3 := with_storage cleared w2 in
            let w4 := if negb (JsString.includes (pathname w3) "/auth")
                      then with_pathname "/admin/auth" w3 else w3 in
            storage w4 = cleared
            /\ JsString.includes (pathname w4) "/auth" = true
            /\ log w4 = log w2).
  { intros w2 w3 w4. subst w3 w4. unfold with_storage, with_pathname.
    cbn [pathname]. destruct (JsString.includes (pathname w2) "/auth") eqn:E;
      cbn [negb storage pathname log]; repeat split; assumption. }
  destruct second as [l2|l2 status2 data2].
  - eexists. split; [reflexivity|].
    match goal with
    | |- storage (if _ then with_pathname _ (with_storage _ ?w2) else _) = _ /\ _ =>
        destruct (Hend w2) as (H1 & H2 & H3)
    end.
    split; [exact H1|]. split; [exact H2|].
    rewrite H3. cbn [log]. now rewrite Hlog.
  - rewrite Hsecond. eexists. split; [reflexivity|].
    match goal with
    | |- storage (if _ then with_pathname _ (with_storage _ ?w2) else _) = _ /\ _ =>
        destruct (Hend w2) as (H1 & H2 & H3)
    end.
    split; [exact H1|]. split; [exact H2|].
    rewrite H3. cbn [log]. now rewrite Hlog.
Qed.

Lemma failed_refresh_ends_session_witness :
  exists w',
    apiClient 1 strict_request
      (session [Answer 40 401 (body "expired"); Answer 25 503 (body "down")])
    = Some (Rejected (RefreshError (Answer 25 503 (body "down"))), w')
    /\ storage w' = cleared
    /\ JsString.includes (pathname w') "/auth" = true
    /\ log w'
       = [Refresh; Sent (url strict_request) false]
         ++ log (session [Answer 40 401 (body "expired");
                          Answer 25 503 (body "down")]).
Proof.
  apply (failed_refresh_ends_session 0 strict_request
           (mkConfig "/users" "get"
              [("Authorization", "Bearer a1.b1.c1");
               ("X-Request-Timestamp", "1000000")]
              false axios_validateStatus)
           (session [Answer 40 401 (body "expired");
                     Answer 25 503 (body "down")])
           40 (body "expired") (Answer 25 503 (body "down")) []);
    vm_compute; reflexivity.
Defined.

End ApiClientMoreFacts.

(** ** Token expiry on the two sides *)

Section ExpiryFacts.
Import ApiClient JWTHelper.

(** X24.  The client's [isTokenExpired] and the server's [isExpired]
    on a token whose payload gives both the same [exp]: the client counts
    the token as expired exactly when the server does or the clock is in
    the very second [exp], so the client never keeps a token the server
    would refuse for its age.  On a token without [exp] they differ the
    other way: expired for the server, not for the client. *)
Theorem expiry_client_and_server (now exp : Z) (text : string) :
  text <> "" ->
  exp <> 0 ->
  isTokenExpired now (Some (mkToken text (ExpiresAt exp)))
  = isExpired now (Some (Some exp)) || (now / 1000 =? exp)
  /\ isTokenExpired now (Some (mkToken text NoExpiry)) = false
  /\ isExpired now (Some None) = true.
Proof.
  intros Htext Hexp. unfold isTokenExpired, isExpired. cbn [raw expiry].
  destruct (String.eqb_spec text ""); [contradiction|].
  destruct (Z.eqb_spec exp 0); [contradiction|].
  repeat split.
  pose proof (Z.div_mod now 1000 ltac:(lia)) as Hdiv.
  pose proof (Z.mod_pos_bound now 1000 ltac:(lia)) as Hmod.
  case_bool_decide as Hle;
    destruct (Z.ltb_spec exp (now / 1000));
    destruct (Z.eqb_spec (now / 1000) exp); cbn [orb]; try reflexivity; lia.
Qed.

Lemma expiry_client_and_server_witness :
  isTokenExpired 1900999 (Some (mkToken "a.b.c" (ExpiresAt 1900)))
  = isExpired 1900999 (Some (Some 1900)) || (1900999 / 1000 =? 1900)
  /\ isTokenExpired 1900999 (Some (mkToken "a.b.c" NoExpiry)) = false
  /\ isExpired 1900999 (Some None) = true.
Proof.
  apply (expiry_client_and_server 1900999 1900 "a.b.c"); discriminate.
Defined.

End ExpiryFacts.

(** ** File names and object identifiers *)

Section SanitizeHelperFacts.
Import JsString Detector SecretsTools Passwords SanitizeHelper.

Lemma all_chars_app p a b :
  all_chars p (a +:+ b) = all_chars p a && all_chars p b.
Proof.
  induction a as [|x a IH]; [reflexivity|].
  change (String x a +:+ b) with (String x (a +:+ b)).
  cbn [all_chars]. now rewrite IH, andb_assoc.
Qed.

Lemma all_chars_mentions p c s :
  p c = false -> all_chars p s = true -> mentions c s = false.
Proof.
  intros Hc. induction s as [|a s IH]; [reflexivity|].
  cbn [all_chars mentions]. intros H. apply andb_true_iff in H as [Ha Hs].
  rewrite (IH Hs), orb_false_r.
  destruct (Ascii.eqb_spec a c) as [->|]; [congruence|reflexivity].
Qed.

(** X25.  Whatever the name, [filename] returns letters, digits, dots,
    underscores and dashes only: the result has no slash and no
    backslash. *)
Theorem filename_alphabet (name : string) :
  all_chars filename_char (filename name) = true
  /\ mentions "/" (filename name) = false
  /\ mentions "\" (filename name) = false.
Proof.
  assert (H : all_chars filename_char (filename name) = true).
  { unfold filename. generalize (remove_all match_traversal 0 name).
    induction s as [|a s IH]; [reflexivity|]. cbn [replace_others].
    destruct (filename_char a) eqn:Ha.
    - cbn [all_chars]. now rewrite Ha, IH.
    - rewrite all_chars_app, IH, andb_true_r.
      unfold utf16_units.
      destruct (_ <? 128)%N; [reflexivity|].
      destruct (_ <? 192)%N; [reflexivity|].
      destruct (_ <? 240)%N; reflexivity. }
  split; [exact H|].
  split; apply (all_chars_mentions filename_char); first [reflexivity|exact H].
Qed.

Lemma keep_all p s : all_chars p (keep p s) = true.
Proof.
  induction s as [|a s IH]; [reflexivity|]. cbn [keep].
  destruct (p a) eqn:E; [|exact IH]. cbn [all_chars]. now rewrite E, IH.
Qed.

Lemma keep_fixed p s : all_chars p s = true -> keep p s = s.
Proof.
  induction s as [|a s IH]; [reflexivity|]. cbn [all_chars keep].
  intros H. apply andb_true_iff in H as [Ha Hs]. now rewrite Ha, (IH Hs).
Qed.

Lemma hex_is_ascii s : all_chars hex_char s = true -> is_ascii s = true.
Proof.
  induction s as [|a s IH]; [reflexivity|]. cbn [all_chars is_ascii].
  intros H. apply andb_true_iff in H as [Ha Hs]. rewrite (IH Hs), andb_true_r.
  unfold hex_char, in_range in Ha. apply N.ltb_lt.
  repeat match goal with
         | H : _ || _ = true |- _ => apply orb_true_iff in H as [H|H]
         | H : _ && _ = true |- _ => apply andb_true_iff in H as [? H]
         | H : (_ <=? _)%N = true |- _ => apply N.leb_le in H
         end; lia.
Qed.

(** X26.  When [objectId] returns, what it returns is 24 hexadecimal
    digits and is left as it is by a second call; it throws exactly when
    the argument does not have 24 hexadecimal digits among its
    characters, whatever else it has. *)
Theorem objectId_result (id : string) :
  (forall s, objectId id = Ret s ->
     String.length s = 24%nat /\ all_chars hex_char s = true
     /\ objectId s = Ret s)
  /\ (objectId id = Throw "Invalid ObjectId format"
      <-> String.length (keep hex_char id) <> 24%nat).
Proof.
  unfold objectId.
  pose proof (keep_all hex_char id) as Hall.
  pose proof (utf16_length_ascii _ (hex_is_ascii _ Hall)) as Hlen.
  rewrite Hlen.
  destruct (Nat.eqb_spec (String.length (keep hex_char id)) 24) as [E|E];
    cbn [negb]; split.
  - intros s [= <-]. split; [exact E|]. split; [exact Hall|].
    rewrite (keep_fixed _ _ Hall), Hlen, E. reflexivity.
  - split; [discriminate|contradiction].
  - intros s [=].
  - split; [intros _; exact E|reflexivity].
Qed.

Lemma objectId_result_witness :
  (forall s, objectId "507f-1f77-bcf8-6cd7-9943-9011" = Ret s ->
     String.length s = 24%nat /\ all_chars hex_char s = true
     /\ objectId s = Ret s)
  /\ (objectId "507f-1f77-bcf8-6cd7-9943-9011" = Throw "Invalid ObjectId format"
      <-> String.length (keep hex_char "507f-1f77-bcf8-6cd7-9943-9011")
          <> 24%nat).
Proof.
  exact (objectId_result "507f-1f77-bcf8-6cd7-9943-9011").
Defined.

End SanitizeHelperFacts.

(** ** The two password policies *)

Section PasswordFacts.
Import JsString Detector SecretsTools ClientSecurity Passwords.

Lemma ahead_any p s : ahead p s = true -> any_char p s = true.
Proof.
  unfold ahead. induction s as [|a s IH]; cbn [on_line any_char].
  - discriminate.
  - intros H. apply orb_true_iff in H as [H|H]; [now rewrite H|].
    destruct (line_terminator (String a s)); [discriminate|].
    rewrite (IH H). apply orb_true_r.
Qed.

Lemma alnum_plain a :
  is_lower a || is_upper a || is_digit a = true ->
  is_special a = false /\ (code a <? 128)%N = true.
Proof.
  destruct a as [[] [] [] [] [] [] [] []]; vm_compute; intros H;
    first [discriminate H | split; reflexivity].
Qed.

Lemma alnum_only_no_special s :
  all_chars (fun a => is_lower a || is_upper a || is_digit a) s = true ->
  any_char is_special s = false /\ is_ascii s = true.
Proof.
  induction s as [|a s IH]; [split; reflexivity|].
  cbn [all_chars any_char is_ascii]. intros H.
  apply andb_true_iff in H as [Ha Hs].
  destruct (alnum_plain a Ha) as [H1 H2]. destruct (IH Hs) as [H3 H4].
  now rewrite H1, H2, H3, H4.
Qed.

(** X27.  No password satisfies both policies.  A password the client's
    [validatePassword] accepts is refused by the server's
    [validateStrength], with the one error that it has no special
    character; a password the server accepts is refused by the client. *)
Theorem password_policies_disjoint (password : string) :
  (validatePassword password = None ->
   validateStrength password
   = mkStrength false
       ["Password must contain at least one special character"])
  /\ (valid (validateStrength password) = true ->
      validatePassword password <> None).
Proof.
  assert (Hfirst : validatePassword password = None ->
            validateStrength password
            = mkStrength false
                ["Password must contain at least one special character"]).
  { unfold validatePassword, isStrongPassword.
    destruct (String.eqb password "" || isEmpty password); [discriminate|].
    destruct (utf16_length password <? 8)%nat eqn:Hlen; [discriminate|].
    destruct (ahead is_lower password) eqn:H1; [|discriminate].
    destruct (ahead is_upper password) eqn:H2; [|discriminate].
    destruct (ahead is_digit password) eqn:H3; [|discriminate].
    destruct (all_chars _ password) eqn:H4; [|discriminate].
    intros _. destruct (alnum_only_no_special _ H4) as [H5 _].
    unfold validateStrength.
    rewrite Hlen, (ahead_any _ _ H1), (ahead_any _ _ H2), (ahead_any _ _ H3), H5.
    reflexivity. }
  split; [exact Hfirst|].
  intros Hvalid Hclient. rewrite (Hfirst Hclient) in Hvalid. discriminate.
Qed.

Lemma password_policies_disjoint_witness :
  validateStrength "Abcdefg1"
  = mkStrength false ["Password must contain at least one special character"].
Proof.
  apply (proj1 (password_policies_disjoint "Abcdefg1")). reflexivity.
Defined.

Lemma length_append a b :
  String.length (a +:+ b) = (String.length a + String.length b)%nat.
Proof.
  induction a as [|x a IH]; [reflexivity|].
  change (String x a +:+ b) with (String x (a +:+ b)).
  cbn [String.length]. now rewrite IH.
Qed.

Lemma any_char_app p a b :
  any_char p (a +:+ b) = any_char p a || any_char p b.
Proof.
  induction a as [|x a IH]; [reflexivity|].
  change (String x a +:+ b) with (String x (a +:+ b)).
  cbn [any_char]. now rewrite IH, orb_assoc.
Qed.

Lemma all_chars_get p s : forall i a,
  all_chars p s = true -> String.get i s = Some a -> p a = true.
Proof.
  induction s as [|x s IH]; intros i a H Hget; [discriminate|].
  cbn [all_chars] in H. apply andb_true_iff in H as [Hx Hs].
  destruct i as [|i]; cbn [String.get] in Hget.
  - now injection Hget as <-.
  - now apply (IH i).
Qed.

Lemma pick_in_range s i :
  (i < String.length s)%nat ->
  exists a, String.get i s = Some a /\ pick s i = String a EmptyString.
Proof.
  revert i. induction s as [|x s IH]; intros i Hi; cbn [String.length] in Hi;
    [lia|].
  destruct i as [|i].
  - exists x. split; reflexivity.
  - destruct (IH i ltac:(lia)) as (a & Hget & Hpick). exists a.
    unfold pick in *. cbn [String.get]. now rewrite Hget in *.
Qed.

Lemma any_char_existsb p s :
  any_char p s = existsb p (list_ascii_of_string s).
Proof.
  induction s as [|a s IH]; [reflexivity|]. cbn. now rewrite IH.
Qed.

Lemma is_ascii_forallb s :
  is_ascii s = forallb (fun a => (code a <? 128)%N) (list_ascii_of_string s).
Proof.
  induction s as [|a s IH]; [reflexivity|]. cbn. now rewrite IH.
Qed.

Lemma length_chars s :
  String.length s = List.length (list_ascii_of_string s).
Proof.
  induction s as [|a s IH]; [reflexivity|]. cbn. now rewrite IH.
Qed.

Lemma existsb_Permutation (p : ascii -> bool) l l' :
  Permutation l l' -> existsb p l = existsb p l'.
Proof.
  intros H. induction H as [|x l l' _ IH|x y l|l l' l'' _ IH1 _ IH2].
  - reflexivity.
  - cbn. now rewrite IH.
  - cbn. destruct (p x); destruct (p y); reflexivity.
  - now rewrite IH1.
Qed.

Lemma forallb_Permutation (p : ascii -> bool) l l' :
  Permutation l l' -> forallb p l = forallb p l'.
Proof.
  intros H. induction H as [|x l l' _ IH|x y l|l l' l'' _ IH1 _ IH2].
  - reflexivity.
  - cbn. now rewrite IH.
  - cbn. destruct (p x); destruct (p y); reflexivity.
  - now rewrite IH1.
Qed.

(** What the loop of [generate] appends is ASCII, one character for
    each round. *)
Lemma fill_facts (random : nat -> nat -> nat) :
  (forall k n, (0 < n)%nat -> (random k n < n)%nat) ->
  forall rounds password,
    let filled :=
      fold_left
        (fun password i => password +:+ pick all (random i (String.length all)))
        rounds password in
    is_ascii password = true ->
    is_ascii filled = true
    /\ String.length filled = (String.length password + List.length rounds)%nat
    /\ (forall p, any_char p password = true -> any_char p filled = true).
Proof.
  intros Hrandom. induction rounds as [|i rounds IH]; intros password filled Ha.
  - subst filled. cbn [fold_left List.length]. repeat split; auto; lia.
  - subst filled. cbn [fold_left List.length].
    destruct (pick_in_range all (random i (String.length all)))
      as (a & Hget & Hpick); [apply Hrandom; vm_compute; lia|].
    rewrite Hpick.
    assert (Hall : all_chars (fun a => (code a <? 128)%N) all = true)
      by reflexivity.
    pose proof (all_chars_get _ _ _ _ Hall Hget) as Hcode.
    assert (Hnext : is_ascii (password +:+ String a EmptyString) = true).
    { rewrite is_ascii_forallb in *.
      assert (Happ : forall x y, list_ascii_of_string (x +:+ y)
                = list_ascii_of_string x ++ list_ascii_of_string y).
      { intros x y. induction x as [|c x IHx]; [reflexivity|].
        change (String c x +:+ y) with (String c (x +:+ y)).
        cbn. now rewrite IHx. }
      rewrite Happ, forallb_app, Ha. cbn. now rewrite Hcode. }
    destruct (IH (password +:+ String a EmptyString) Hnext) as (H1 & H2 & H3).
    split; [exact H1|]. split.
    + rewrite H2, length_append. cbn [String.length]. lia.
    + intros p Hp. apply H3. rewrite any_char_app, Hp. reflexivity.
Qed.

(** X28.  A password made by [generate] with a length of 8 or more
    passes [validateStrength], whatever the random draws and whatever
    order the shuffle leaves the characters in. *)
Theorem generated_password_is_strong (random : nat -> nat -> nat)
    (shuffle : list ascii -> list ascii) (length : nat) :
  (forall k n, (0 < n)%nat -> (random k n < n)%nat) ->
  (forall l, Permutation l (shuffle l)) ->
  (8 <= length)%nat ->
  validateStrength (generate random shuffle length) = mkStrength true [].
Proof.
  intros Hrandom Hshuffle Hlength. unfold generate.
  destruct (pick_in_range lowercase (random 0%nat (String.length lowercase)))
    as (a1 & Hg1 & ->); [apply Hrandom; vm_compute; lia|].
  destruct (pick_in_range uppercase (random 1%nat (String.length uppercase)))
    as (a2 & Hg2 & ->); [apply Hrandom; vm_compute; lia|].
  destruct (pick_in_range numbers (random 2%nat (String.length numbers)))
    as (a3 & Hg3 & ->); [apply Hrandom; vm_compute; lia|].
  destruct (pick_in_range special (random 3%nat (String.length special)))
    as (a4 & Hg4 & ->); [apply Hrandom; vm_compute; lia|].
  change (String a1 "" +:+ String a2 "" +:+ String a3 "" +:+ String a4 "")
    with (String a1 (String a2 (String a3 (String a4 "")))).
  pose proof (all_chars_get is_lower lowercase _ _ eq_refl Hg1) as Hl.
  pose proof (all_chars_get is_upper uppercase _ _ eq_refl Hg2) as Hu.
  pose proof (all_chars_get is_digit numbers _ _ eq_refl Hg3) as Hd.
  pose proof (all_chars_get is_special special _ _ eq_refl Hg4) as Hs.
  pose proof (all_chars_get (fun a => (code a <? 128)%N) lowercase _ _
                eq_refl Hg1) as Hc1.
  pose proof (all_chars_get (fun a => (code a <? 128)%N) uppercase _ _
                eq_refl Hg2) as Hc2.
  pose proof (all_chars_get (fun a => (code a <? 128)%N) numbers _ _
                eq_refl Hg3) as Hc3.
  pose proof (all_chars_get (fun a => (code a <? 128)%N) special _ _
                eq_refl Hg4) as Hc4.
  set (start := String a1 (String a2 (String a3 (String a4 "")))).
  assert (Hstart : is_ascii start = true)
    by (subst start; cbn [is_ascii]; now rewrite Hc1, Hc2, Hc3, Hc4).
  rewrite (utf16_length_ascii _ Hstart).
  change (String.length start) with 4%nat.
  destruct (fill_facts random Hrandom (seq 4 (length - 4)) start Hstart)
    as (Hascii & Hlen & Hany).
  set (filled := fold_left _ _ start) in *.
  rewrite length_seq in Hlen. change (String.length start) with 4%nat in Hlen.
  set (result := string_of_list_ascii (shuffle (list_ascii_of_string filled))).
  assert (Hchars : list_ascii_of_string result
                   = shuffle (list_ascii_of_string filled))
    by apply list_ascii_of_string_of_list_ascii.
  assert (Hsame : forall p, any_char p result = any_char p filled).
  { intros p. rewrite !any_char_existsb, Hchars. symmetry.
    apply existsb_Permutation, Hshuffle. }
  assert (Hresult : is_ascii result = true).
  { rewrite is_ascii_forallb, Hchars.
    rewrite <- (forallb_Permutation _ _ _ (Hshuffle _)).
    now rewrite <- is_ascii_forallb. }
  assert (Hrlen : String.length result = length).
  { rewrite length_chars, Hchars.
    rewrite <- (Permutation_length (Hshuffle _)), <- length_chars. lia. }
  unfold validateStrength.
  rewrite (utf16_length_ascii _ Hresult), Hrlen, !Hsame.
  rewrite (Hany is_upper), (Hany is_lower), (Hany is_digit), (Hany is_special);
    try (subst start; cbn [any_char];
         rewrite ?Hl, ?Hu, ?Hd, ?Hs, ?orb_true_r; reflexivity).
  destruct (Nat.ltb_spec length 8); [lia|]. reflexivity.
Qed.

Lemma generated_password_is_strong_witness :
  validateStrength (generate (fun _ _ => O) (@rev ascii) 12)
  = mkStrength true [].
Proof.
  apply (generated_password_is_strong (fun _ _ => O) (@rev ascii) 12).
  - intros k n Hn. exact Hn.
  - intros l. apply Permutation_rev.
  - lia.
Defined.

End PasswordFacts.

(** ** The configuration and the authorization header *)

Section EnvFacts.
Import Env.

Lemma set_required process_env name fallback :
  unset process_env name = false ->
  or_default process_env name fallback <> "".
Proof.
  unfold unset, or_default. destruct (process_env !! name) as [v|];
    [|discriminate].
  destruct (String.eqb_spec v ""); [discriminate|]. auto.
Qed.

(** X29.  The configuration module exports a configuration without a
    JWT secret, a refresh secret or a cookie secret in the [test]
    environment only: when loading succeeds, what is exported is the
    object built from the environment, and unless [NODE_ENV] is [test]
    the three secrets are not empty. *)
Theorem exported_config_has_secrets (process_env : gmap string string)
    (exported : Config) :
  load process_env = Ret exported ->
  exported = config process_env
  /\ (env exported = "test"
      \/ (secret (jwt exported) <> "" /\ refreshSecret (jwt exported) <> ""
          /\ cookie_secret exported <> "")).
Proof.
  unfold load.
  destruct (String.eqb_spec (env (config process_env)) "test") as [Htest|_];
    cbn [negb].
  - intros [= <-]. split; [reflexivity|]. now left.
  - unfold validateConfig, requiredEnvVars. cbn [List.filter].
    destruct (unset process_env "JWT_SECRET") eqn:H1;
      destruct (unset process_env "JWT_REFRESH_SECRET") eqn:H2;
      destruct (unset process_env "COOKIE_SECRET") eqn:H3;
      cbn [List.length Nat.ltb Nat.leb exc_bind]; try discriminate.
    intros [= <-]. split; [reflexivity|]. right.
    cbn [config jwt secret refreshSecret cookie_secret].
    repeat split; now apply set_required.
Qed.

Lemma exported_config_has_secrets_witness :
  config (<["JWT_SECRET" := "s1"]>
            (<["JWT_REFRESH_SECRET" := "s2"]>
               (<["COOKIE_SECRET" := "s3"]> ∅)))
  = config (<["JWT_SECRET" := "s1"]>
              (<["JWT_REFRESH_SECRET" := "s2"]>
                 (<["COOKIE_SECRET" := "s3"]> ∅)))
  /\ (env (config (<["JWT_SECRET" := "s1"]>
                     (<["JWT_REFRESH_SECRET" := "s2"]>
                        (<["COOKIE_SECRET" := "s3"]> ∅)))) = "test"
      \/ (secret (jwt (config (<["JWT_SECRET" := "s1"]>
                                 (<["JWT_REFRESH_SECRET" := "s2"]>
                                    (<["COOKIE_SECRET" := "s3"]> ∅))))) <> ""
          /\ refreshSecret
               (jwt (config (<["JWT_SECRET" := "s1"]>
                               (<["JWT_REFRESH_SECRET" := "s2"]>
                                  (<["COOKIE_SECRET" := "s3"]> ∅))))) <> ""
          /\ cookie_secret
               (config (<["JWT_SECRET" := "s1"]>
                          (<["JWT_REFRESH_SECRET" := "s2"]>
                             (<["COOKIE_SECRET" := "s3"]> ∅)))) <> "")).
Proof.
  apply (exported_config_has_secrets
           (<["JWT_SECRET" := "s1"]>
              (<["JWT_REFRESH_SECRET" := "s2"]>
                 (<["COOKIE_SECRET" := "s3"]> ∅)))).
  vm_compute. reflexivity.
Defined.

End EnvFacts.

Section AuthorizationFacts.
Import Express ApiClient JWTHelper.

Lemma assoc_set_header_same k v hs : assoc k (set_header k v hs) = Some v.
Proof.
  induction hs as [|[k' v'] hs IH]; cbn [set_header assoc].
  - now rewrite String.eqb_refl.
  - destruct (String.eqb k' k) eqn:E; cbn [assoc].
    + now rewrite String.eqb_refl.
    + now rewrite E.
Qed.

Lemma assoc_set_header_other k k0 v hs :
  k <> k0 -> assoc k0 (set_header k v hs) = assoc k0 hs.
Proof.
  intros Hne. induction hs as [|[k' v'] hs IH]; cbn [set_header assoc].
  - destruct (String.eqb_spec k k0); [contradiction|reflexivity].
  - destruct (String.eqb_spec k' k) as [->|]; cbn [assoc].
    + destruct (String.eqb_spec k k0); [contradiction|reflexivity].
    + now rewrite IH.
Qed.

(** X30.  The [Authorization] header the request interceptor writes
    for a stored access token is one the server's [extractFromHeader]
    reads the same token from. *)
Theorem authorization_header_round_trip (config c : Config) (w : World)
    (token : Token) :
  fst (requestInterceptor config w) = Ret c ->
  access_token (storage w) = Some token ->
  raw token <> "" ->
  extractFromHeader (assoc "Authorization" (headers c)) = Some (raw token).
Proof.
  unfold requestInterceptor.
  destruct (RateLimiter.isAllowed _ _ _) as [allowed limiter].
  destruct allowed; cbn [negb]; [|discriminate].
  cbn [with_limiter storage now].
  destruct (present _ && isTokenExpired _ _); [discriminate|].
  intros Hc Htoken Hraw. rewrite Htoken in Hc.
  assert (Hpresent : present (Some token) = true).
  { unfold present. now destruct (String.eqb_spec (raw token) ""). }
  rewrite Hpresent in Hc.
  assert (Hbearer : forall hs,
            assoc "Authorization" hs = Some ("Bearer " +:+ raw token) ->
            extractFromHeader (assoc "Authorization" hs) = Some (raw token)).
  { intros hs ->. reflexivity. }
  destruct (existsb _ _); cbn [fst] in Hc; injection Hc as <-;
    apply Hbearer; cbn [with_header headers];
    rewrite ?(assoc_set_header_other "X-Request-Timestamp") by discriminate;
    rewrite ?(assoc_set_header_other "X-CSRF-Token") by discriminate;
    apply assoc_set_header_same.
Qed.

Lemma authorization_header_round_trip_witness :
  extractFromHeader
    (assoc "Authorization"
       (headers (mkConfig "/users" "get"
                   [("Authorization", "Bearer a1.b1.c1");
                    ("X-Request-Timestamp", "1000000")]
                   false default_validateStatus)))
  = Some (raw access_1).
Proof.
  apply (authorization_header_round_trip plain_request _ (session [])).
  - vm_compute. reflexivity.
  - reflexivity.
  - discriminate.
Defined.

End AuthorizationFacts.
